(** * romiyal-survey: the dynamic taxonomy classification pipeline

    A shallow embedding of [ai_classifier_service.py] and of the request
    handlers of [app.py], together with the parts of the Python standard
    library ([json]), of pydantic (v2, default lax mode) and of [requests]
    that decide what those two files do.

    Conventions.
    - A Python [str] is the list of its Unicode code points ([list N]);
      Python allows every code point below 0x110000, lone surrogates
      included.
    - A Python exception is a value of [exn]; fallible code returns
      [result A = A + exn].
    - The module-level globals of [app.py] are the fields of [app_state];
      a handler is a function from the state to a response and a new state.
    - The outside world of one request (what [requests.post] answers, the
      clock) is an explicit argument; the requests that were posted are
      logged in the state.
    - What depends on the Python installation (the case table of Unicode,
      the digit limit of [int], where the recursion limit is met) is the
      record [interpreter]; the theorems hold for every interpreter, and
      the instances at the end are computed with [test_python]. *)

From Stdlib Require Import ZArith NArith List Ascii String Bool Lia.
From stdpp Require Import base decidable option list sorting gmap.

Set Warnings "-register-all".
Local Open Scope N_scope.

(** ** Python strings *)

Abbreviation pystr := (list N).

(** An ASCII literal of the source as a Python [str]. *)
Definition py (s : string) : pystr :=
  map N_of_ascii (list_ascii_of_string s).

(** The same, for literals that hold JSON text: the text is written here with
    apostrophes where it has double quotes. *)
Definition pyq (s : string) : pystr :=
  map (λ c, if c =? 39 then 34 else c) (py s).

(** Every element is a Unicode code point ([sys.maxunicode] = 0x10ffff). *)
Definition wf_str (s : pystr) : Prop := forallb (λ c, c <? 0x110000) s = true.

Definition is_high_surrogate (c : N) : bool := (0xd800 <=? c) && (c <=? 0xdbff).
Definition is_low_surrogate (c : N) : bool := (0xdc00 <=? c) && (c <=? 0xdfff).

(** ** Exceptions *)

(** The subclasses of [requests.exceptions.RequestException] that one
    [requests.post] followed by [raise_for_status] and [json] can raise. *)
Inductive request_failure : Type :=
  | ConnectionFailure               (* ConnectionError, Timeout: no response *)
  | HTTPError (status : N)          (* raise_for_status on a 4xx or 5xx *)
  | InvalidJSONBody.                (* requests.exceptions.JSONDecodeError *)

Inductive exn : Type :=
  | ValidationError                 (* pydantic.ValidationError *)
  | ValueError (msg : pystr)
  | RuntimeError (msg : pystr) (cause : option request_failure)
      (* the message is [msg] followed by [str(e)] of the requests exception
         interpolated into it, when there is one *)
  | RequestException (f : request_failure)
  | JSONDecodeError                 (* json.JSONDecodeError, a ValueError *)
  | RecursionError                  (* a RuntimeError *)
  | TypeError
  | IndexError
  | KeyError
  | AttributeError
  | BadRequest.                     (* werkzeug: an HTTPException of [get_json] *)

Definition result (A : Type) : Type := A + exn.
Abbreviation ok a := (inl a) (only parsing).
Abbreviation raise e := (inr e) (only parsing).
Definition bind {A B} (m : result A) (k : A → result B) : result B :=
  match m with inl a => k a | inr e => inr e end.
Notation "'let!' x ':=' m 'in' k" := (bind m (λ x, k))
  (at level 10, x pattern, m at level 100, k at level 200).

(** ** The interpreter

    What this development takes from the Python installation as it finds it.
    - The upper-case mapping of the Unicode database for the characters that
      are not ASCII.
    - The longest decimal literal that [int] reads
      ([sys.get_int_max_str_digits()], 4300 unless it is configured; 0 for no
      limit, as in the releases that have none).
    - For the two calls of the JSON decoder in [classify_learning_objective],
      on which texts the call runs into the recursion limit of the
      interpreter. This depends on the depth of the call stack at the call
      and on the release of CPython, which counts the arrays and objects
      that are open, and also the calls that read a constant such as NaN or
      build the error of the decoder.
    Everything below holds for every such interpreter. *)
Record interpreter : Type := mkInterpreter {
  unicode_upper : N → pystr;                (* [chr(c).upper()] for c >= 128 *)
  int_max_str_digits : nat;
  response_recursion : pystr → bool;        (* at [response.json()], line 126 *)
  output_recursion : pystr → bool           (* at [json.loads(json_string)], line 132 *)
}.

Section Python.
Variable python : interpreter.

(** [str.upper()]: character by character, by the full case mapping ('ß'
    becomes 'SS'); of the ASCII characters only a to z change. *)
Definition upper_char (c : N) : pystr :=
  if (97 <=? c) && (c <=? 122) then [c - 32]
  else if c <? 128 then [c]
  else unicode_upper python c.
Definition upper (s : pystr) : pystr := flat_map upper_char s.

(** [a < b] on [str]: lexicographic on code points. *)
Fixpoint str_ltb (a b : pystr) : bool :=
  match a, b with
  | _, [] => false
  | [], _ :: _ => true
  | x :: a', y :: b' => if x <? y then true else if x =? y then str_ltb a' b' else false
  end.
Definition str_lt (a b : pystr) : Prop := str_ltb a b = true.
(** [not (b < a)], the order [sorted] leaves two neighbours in. *)
Definition str_le (a b : pystr) : Prop := str_ltb b a = false.

Global Instance str_le_dec a b : Decision (str_le a b).
Proof. unfold str_le. apply _. Defined.

(** [str(n)] for a non-negative [int]. *)
Definition digit_char (d : N) : N := 48 + d.
Fixpoint str_of_pos_aux (fuel : nat) (n : N) (acc : pystr) : pystr :=
  match fuel with
  | O => acc
  | S fuel' =>
      let acc' := digit_char (n mod 10) :: acc in
      if n / 10 =? 0 then acc' else str_of_pos_aux fuel' (n / 10) acc'
  end.
Definition str_of_N (n : N) : pystr := str_of_pos_aux (S (N.to_nat (N.log2 n))) n [].

(** ** JSON values, as [json.loads] builds them *)

(** A Python [float] that came from a decimal literal is kept as that literal,
    [m * 10^e]; the double is its correctly rounded value. *)
Inductive pyfloat : Type :=
  | FDec (m : Z) (e : Z)
  | FInf (negative : bool)
  | FNaN.

Inductive json : Type :=
  | JNull
  | JBool (b : bool)
  | JInt (z : Z)
  | JFloat (f : pyfloat)
  | JStr (s : pystr)
  | JArr (items : list json)
  | JObj (members : list (pystr * json)).

Global Instance pyfloat_eq_dec : EqDecision pyfloat.
Proof. solve_decision. Defined.

(** [d[k] = v] on an insertion-ordered [dict]: an existing key keeps its
    place and takes the new value, a new key goes last. *)
Fixpoint dict_set {V} (k : pystr) (v : V) (d : list (pystr * V)) : list (pystr * V) :=
  match d with
  | [] => [(k, v)]
  | (k', v') :: d' => if decide (k' = k) then (k, v) :: d' else (k', v') :: dict_set k v d'
  end.

(** [d.get(k)] *)
Fixpoint dict_get {V} (k : pystr) (d : list (pystr * V)) : option V :=
  match d with
  | [] => None
  | (k', v) :: d' => if decide (k' = k) then Some v else dict_get k d'
  end.

(** [d.pop(k)]: the value and the dict without the key. *)
Fixpoint dict_pop {V} (k : pystr) (d : list (pystr * V)) : option (V * list (pystr * V)) :=
  match d with
  | [] => None
  | (k', v) :: d' =>
      if decide (k' = k) then Some (v, d')
      else match dict_pop k d' with
           | Some (x, d'') => Some (x, (k', v) :: d'')
           | None => None
           end
  end.

Definition dict_keys {V} (d : list (pystr * V)) : list pystr := map fst d.

(** Truth value of a JSON-born Python object ([not x] is its negation). The
    double of the literal [m * 10^e] is 0.0 or -0.0 exactly when its
    magnitude is at most 2^-1075, half of the smallest double above zero
    (the tie goes to the even one, which is zero). *)
Definition float_is_zero (f : pyfloat) : bool :=
  match f with
  | FDec m e =>
      (m =? 0)%Z || ((e <? 0)%Z && (Z.abs m * 2 ^ 1075 <=? 10 ^ (- e))%Z)
  | _ => false
  end.
Definition truthy (v : json) : bool :=
  match v with
  | JNull => false
  | JBool b => b
  | JInt z => negb (z =? 0)%Z
  | JFloat f => negb (float_is_zero f)
  | JStr s => negb (bool_decide (s = []))
  | JArr l => match l with [] => false | _ => true end
  | JObj d => match d with [] => false | _ => true end
  end.

(** ** [json.dumps]: the encoder of [str] (ensure_ascii, the default)

    [json.encoder.encode_basestring_ascii]: printable ASCII other than the
    quote and the backslash is copied; the short escapes are used for
    backslash, quote, \b \f \n \r \t; every other code point becomes
    \uXXXX with four lower-case hex digits, one of a surrogate pair above
    0xffff. *)

Definition hex_digit (d : N) : N := if d <? 10 then 48 + d else 87 + d.

(** ['{0:04x}'.format(n)], for n < 0x10000 *)
Definition hex4 (n : N) : pystr :=
  [hex_digit (n / 4096 mod 16); hex_digit (n / 256 mod 16);
   hex_digit (n / 16 mod 16); hex_digit (n mod 16)].

Definition u_escape (n : N) : pystr := 92 :: 117 :: hex4 n.

Definition escape_char (c : N) : pystr :=
  if c =? 92 then [92; 92]            (* backslash *)
  else if c =? 34 then [92; 34]       (* quote *)
  else if (32 <=? c) && (c <=? 126) then [c]
  else if c =? 8 then [92; 98]        (* \b *)
  else if c =? 12 then [92; 102]      (* \f *)
  else if c =? 10 then [92; 110]      (* \n *)
  else if c =? 13 then [92; 114]      (* \r *)
  else if c =? 9 then [92; 116]       (* \t *)
  else if c <? 0x10000 then u_escape c
  else
    let n := c - 0x10000 in
    let s1 := N.lor 0xd800 (N.land (N.shiftr n 10) 0x3ff) in
    let s2 := N.lor 0xdc00 (N.land n 0x3ff) in
    u_escape s1 ++ u_escape s2.

Fixpoint escape_chars (s : pystr) : pystr :=
  match s with
  | [] => []
  | c :: s' => escape_char c ++ escape_chars s'
  end.

Definition encode_basestring_ascii (s : pystr) : pystr :=
  34 :: escape_chars s ++ [34].

(** ** [json.loads]: the decoder

    The scanner of CPython's [_json] module, strict mode. *)

Definition hex_value (c : N) : option N :=
  if (48 <=? c) && (c <=? 57) then Some (c - 48)
  else if (97 <=? c) && (c <=? 102) then Some (c - 87)
  else if (65 <=? c) && (c <=? 70) then Some (c - 55)
  else None.

Definition hex4_value (h1 h2 h3 h4 : N) : option N :=
  match hex_value h1, hex_value h2, hex_value h3, hex_value h4 with
  | Some a, Some b, Some c, Some d => Some (((a * 16 + b) * 16 + c) * 16 + d)
  | _, _, _, _ => None
  end.

(** The character a backslash escape other than \u stands for. *)
Definition simple_escape (e : N) : option N :=
  if e =? 34 then Some 34
  else if e =? 92 then Some 92
  else if e =? 47 then Some 47
  else if e =? 98 then Some 8
  else if e =? 102 then Some 12
  else if e =? 110 then Some 10
  else if e =? 114 then Some 13
  else if e =? 116 then Some 9
  else None.

(** [Py_UNICODE_JOIN_SURROGATES] *)
Definition join_surrogates (hi lo : N) : N :=
  0x10000 + N.lor (N.shiftl (N.land hi 0x3ff) 10) (N.land lo 0x3ff).

Definition cons_char (c : N) (r : option (pystr * pystr)) : option (pystr * pystr) :=
  match r with
  | Some (s, rest) => Some (c :: s, rest)
  | None => None
  end.

(** [scanstring], entered after the opening quote: the decoded string and the
    text after the closing quote; [None] is a [JSONDecodeError]. *)
Fixpoint scanstring (s : pystr) : option (pystr * pystr) :=
  match s with
  | [] => None                                   (* unterminated string *)
  | c :: rest =>
      if c =? 34 then Some ([], rest)
      else if c =? 92 then
        match rest with
        | [] => None
        | e :: rest1 =>
            if e =? 117 then
              match rest1 with
              | h1 :: h2 :: h3 :: h4 :: rest2 =>
                  match hex4_value h1 h2 h3 h4 with
                  | None => None                  (* invalid \uXXXX escape *)
                  | Some uni =>
                      if is_high_surrogate uni then
                        match rest2 with
                        | b :: u :: g1 :: g2 :: g3 :: g4 :: rest3 =>
                            if (b =? 92) && (u =? 117) &&
                               match rest3 with [] => false | _ => true end
                            then
                              match hex4_value g1 g2 g3 g4 with
                              | None => None
                              | Some uni2 =>
                                  if is_low_surrogate uni2
                                  then cons_char (join_surrogates uni uni2) (scanstring rest3)
                                  else cons_char uni (scanstring rest2)
                              end
                            else cons_char uni (scanstring rest2)
                        | _ => cons_char uni (scanstring rest2)
                        end
                      else cons_char uni (scanstring rest2)
                  end
              | _ => None
              end
            else
              match simple_escape e with
              | Some ch => cons_char ch (scanstring rest1)
              | None => None                      (* invalid \escape *)
              end
        end
      else if c <=? 31 then None                  (* invalid control character *)
      else cons_char c (scanstring rest)
  end.

(** [WHITESPACE = [ \t\n\r]*] *)
Definition is_ws (c : N) : bool := (c =? 32) || (c =? 9) || (c =? 10) || (c =? 13).
Fixpoint skip_ws (s : pystr) : pystr :=
  match s with
  | c :: rest => if is_ws c then skip_ws rest else s
  | [] => []
  end.

Definition is_digit (c : N) : bool := (48 <=? c) && (c <=? 57).

(** The longest prefix of decimal digits, and what follows it. *)
Fixpoint span_digits (s : pystr) : pystr * pystr :=
  match s with
  | c :: rest =>
      if is_digit c then let '(ds, r) := span_digits rest in (c :: ds, r) else ([], s)
  | [] => ([], [])
  end.

Definition digits_value (ds : pystr) : Z :=
  fold_left (λ acc d, acc * 10 + Z.of_N (d - 48))%Z ds 0%Z.

Fixpoint strip_prefix (p s : pystr) : option pystr :=
  match p, s with
  | [], _ => Some s
  | a :: p', b :: s' => if a =? b then strip_prefix p' s' else None
  | _ :: _, [] => None
  end.

(** [_match_number]: an optional minus sign; the integer part, a single 0 or
    digits that start with 1 to 9; an optional fraction, a dot and at least
    one digit; an optional exponent, e or E, an optional sign and at least one
    digit. The value is an [int] when there is neither fraction nor exponent,
    a [float] otherwise. *)
Definition match_number (s : pystr) : option (json * pystr) :=
  let '(neg, s1) := match s with
                    | c :: r => if c =? 45 then (true, r) else (false, s)
                    | [] => (false, s)
                    end in
  let int_part :=
    match s1 with
    | c :: r =>
        if (49 <=? c) && (c <=? 57) then Some (span_digits s1)
        else if c =? 48 then Some ([48], r)
        else None
    | [] => None
    end in
  match int_part with
  | None => None
  | Some (ds, s2) =>
      let '(fs, s3) :=
        match s2 with
        | dot :: d :: _ =>
            if (dot =? 46) && is_digit d then span_digits (tl s2) else ([], s2)
        | _ => ([], s2)
        end in
      let '(ex, s4) :=
        match s3 with
        | e :: r =>
            if (e =? 101) || (e =? 69) then
              let '(eneg, r1) := match r with
                                 | sg :: r' => if sg =? 45 then (true, r')
                                               else if sg =? 43 then (false, r')
                                               else (false, r)
                                 | [] => (false, r)
                                 end in
              let '(es, r2) := span_digits r1 in
              match es with
              | [] => (None, s3)
              | _ => (Some (if eneg then - digits_value es else digits_value es)%Z, r2)
              end
            else (None, s3)
        | [] => (None, s3)
        end in
      let sign (z : Z) : Z := if neg then (- z)%Z else z in
      match fs, ex with
      | [], None => Some (JInt (sign (digits_value ds)), s4)
      | _, _ =>
          let m := (digits_value ds * 10 ^ Z.of_nat (length fs) + digits_value fs)%Z in
          let e := (default 0 ex - Z.of_nat (length fs))%Z in
          Some (JFloat (FDec (sign m) e), s4)
      end
  end.

Inductive scan (A : Type) : Type :=
  | Scanned (a : A) (rest : pystr)
  | Malformed                       (* JSONDecodeError *)
  | DigitLimit (digits : nat)       (* ValueError: an integer literal too long *)
  | OutOfFuel.
Arguments Scanned {A} a rest.
Arguments Malformed {A}.
Arguments DigitLimit {A} digits.
Arguments OutOfFuel {A}.

(** Whether [int] refuses a decimal literal of [digits] digits: when it has
    more than 640 of them, a limit is set and it has more than the limit. *)
Definition over_digit_limit (digits : nat) : bool :=
  ((640 <? digits) && (0 <? int_max_str_digits python)
   && (int_max_str_digits python <? digits))%nat.

(** The number of digits of the integer literal that [s] starts with and
    [rest] follows; the sign is not counted. *)
Definition integer_digits (s rest : pystr) : nat :=
  (length s - length rest
   - match s with c :: _ => if (c =? 45)%N then 1 else 0 | [] => 0 end)%nat.

(** The constants and numbers of [scan_once]. *)
Definition scan_atom (s : pystr) : scan json :=
  match strip_prefix (py "null") s with Some r => Scanned JNull r | None =>
  match strip_prefix (py "true") s with Some r => Scanned (JBool true) r | None =>
  match strip_prefix (py "false") s with Some r => Scanned (JBool false) r | None =>
  match strip_prefix (py "NaN") s with Some r => Scanned (JFloat FNaN) r | None =>
  match strip_prefix (py "Infinity") s with Some r => Scanned (JFloat (FInf false)) r | None =>
  match strip_prefix (py "-Infinity") s with Some r => Scanned (JFloat (FInf true)) r | None =>
  match match_number s with
  | Some (JInt z, r) =>
      if over_digit_limit (integer_digits s r) then DigitLimit (integer_digits s r)
      else Scanned (JInt z) r
  | Some (v, r) => Scanned v r
  | None => Malformed
  end end end end end end end.

(** [scan_once] with [JSONObject] and [JSONArray]; [fuel] bounds the nesting
    and the number of members and only makes the recursion structural,
    [json_loads] gives enough of it. *)
Fixpoint scan_once (fuel : nat) (s : pystr) {struct fuel} : scan json :=
  match fuel with
  | O => OutOfFuel
  | S f =>
      match s with
      | [] => Malformed
      | c :: rest =>
          if c =? 34 then
            match scanstring rest with
            | Some (str, r) => Scanned (JStr str) r
            | None => Malformed
            end
          else if c =? 123 then
            match skip_ws rest with
            | c' :: r' => if c' =? 125 then Scanned (JObj []) r'
                          else parse_members f (skip_ws rest) []
            | [] => Malformed
            end
          else if c =? 91 then
            match skip_ws rest with
            | c' :: r' => if c' =? 93 then Scanned (JArr []) r'
                          else parse_items f (skip_ws rest) []
            | [] => Malformed
            end
          else scan_atom s
      end
  end
with parse_items (fuel : nat) (s : pystr) (acc : list json) {struct fuel} : scan json :=
  match fuel with
  | O => OutOfFuel
  | S f =>
      match scan_once f s with
      | Scanned v r =>
          match skip_ws r with
          | c :: r' =>
              if c =? 93 then Scanned (JArr (acc ++ [v])) r'
              else if c =? 44 then parse_items f (skip_ws r') (acc ++ [v])
              else Malformed
          | [] => Malformed
          end
      | Malformed => Malformed
      | DigitLimit n => DigitLimit n
      | OutOfFuel => OutOfFuel
      end
  end
with parse_members (fuel : nat) (s : pystr) (acc : list (pystr * json)) {struct fuel} : scan json :=
  match fuel with
  | O => OutOfFuel
  | S f =>
      match s with
      | q :: r =>
          if q =? 34 then
            match scanstring r with
            | Some (key, r1) =>
                match skip_ws r1 with
                | colon :: r2 =>
                    if colon =? 58 then
                      match scan_once f (skip_ws r2) with
                      | Scanned v r3 =>
                          match skip_ws r3 with
                          | c :: r4 =>
                              if c =? 125 then Scanned (JObj (dict_set key v acc)) r4
                              else if c =? 44 then parse_members f (skip_ws r4) (dict_set key v acc)
                              else Malformed
                          | [] => Malformed
                          end
                      | Malformed => Malformed
                      | DigitLimit n => DigitLimit n
                      | OutOfFuel => OutOfFuel
                      end
                    else Malformed
                | [] => Malformed
                end
            | None => Malformed
            end
          else Malformed
      | [] => Malformed
      end
  end.

(** The [ValueError] of [int] for a literal of [digits] digits. *)
Definition int_digits_error (digits : nat) : exn :=
  ValueError
    (py "Exceeds the limit (" ++ str_of_N (N.of_nat (int_max_str_digits python))
     ++ py " digits) for integer string conversion: value has "
     ++ str_of_N (N.of_nat digits)
     ++ py " digits; use sys.set_int_max_str_digits() to increase the limit").

(** [json.loads(s)] for a [str], when the decoder does not run into the
    recursion limit: one value between optional whitespace. *)
Definition json_loads (s : pystr) : result json :=
  match scan_once (2 * length s + 2) (skip_ws s) with
  | Scanned v r => match skip_ws r with
                   | [] => ok v
                   | _ :: _ => raise JSONDecodeError      (* extra data *)
                   end
  | DigitLimit n => raise (int_digits_error n)
  | Malformed | OutOfFuel => raise JSONDecodeError
  end.

(** [json.loads(s)] at a call where the interpreter says, by [recursion], on
    which texts the recursion limit is met. *)
Definition json_loads_at (recursion : pystr → bool) (s : pystr) : result json :=
  if recursion s then raise RecursionError else json_loads s.

(** ** pydantic (v2, default configuration: lax mode, extra fields ignored) *)

(** *** Conversion of text to [float] in lax mode

    The text is trimmed and read as a float literal: an optional sign, then
    inf, infinity or nan in any case, or digits with an optional dot and an
    optional exponent, at least one digit in the mantissa. A text with single
    underscores strictly inside it is read again without them. *)

Definition lower_char (c : N) : N := if (65 <=? c) && (c <=? 90) then c + 32 else c.

(** Unicode White_Space *)
Definition is_space (c : N) : bool :=
  ((9 <=? c) && (c <=? 13)) || (c =? 32) || (c =? 0x85) || (c =? 0xa0) || (c =? 0x1680)
  || ((0x2000 <=? c) && (c <=? 0x200a)) || (c =? 0x2028) || (c =? 0x2029)
  || (c =? 0x202f) || (c =? 0x205f) || (c =? 0x3000).

Fixpoint trim_start (s : pystr) : pystr :=
  match s with
  | c :: rest => if is_space c then trim_start rest else s
  | [] => []
  end.
Definition trim (s : pystr) : pystr := rev (trim_start (rev (trim_start s))).

Definition float_literal (s : pystr) : option pyfloat :=
  let '(neg, s1) := match s with
                    | c :: r => if c =? 45 then (true, r)
                                else if c =? 43 then (false, r) else (false, s)
                    | [] => (false, s)
                    end in
  let word := map lower_char s1 in
  if bool_decide (word = py "inf") || bool_decide (word = py "infinity") then Some (FInf neg)
  else if bool_decide (word = py "nan") then Some FNaN
  else
    let '(ds, s2) := span_digits s1 in
    let '(fs, s3) := match s2 with
                     | dot :: r => if dot =? 46 then span_digits r else ([], s2)
                     | [] => ([], s2)
                     end in
    match ds, fs with
    | [], [] => None
    | _, _ =>
        let ex :=
          match s3 with
          | [] => Some 0%Z
          | e :: r =>
              if (e =? 101) || (e =? 69) then
                let '(eneg, r1) := match r with
                                   | sg :: r' => if sg =? 45 then (true, r')
                                                 else if sg =? 43 then (false, r')
                                                 else (false, r)
                                   | [] => (false, r)
                                   end in
                match span_digits r1 with
                | ((_ :: _) as es, []) => Some (if eneg then - digits_value es else digits_value es)%Z
                | _ => None
                end
              else None
          end in
        match ex with
        | None => None
        | Some x =>
            let m := (digits_value ds * 10 ^ Z.of_nat (length fs) + digits_value fs)%Z in
            Some (FDec (if neg then - m else m) (x - Z.of_nat (length fs)))
        end
    end.

Fixpoint has_double_underscore (s : pystr) : bool :=
  match s with
  | a :: (b :: _) as rest => ((a =? 95) && (b =? 95)) || has_double_underscore rest
  | _ => false
  end.

Definition strip_underscores (s : pystr) : option pystr :=
  if bool_decide (head s = Some 95) || bool_decide (last s = Some 95)
     || negb (bool_decide (95 ∈ s)) || has_double_underscore s
  then None
  else Some (filter (λ c, c ≠ 95) s).

Definition str_as_float (s : pystr) : option pyfloat :=
  match float_literal (trim s) with
  | Some f => Some f
  | None => match strip_underscores s with
            | Some s' => float_literal s'
            | None => None
            end
  end.

(** *** Comparison of a [float] with the bounds of [confidenceScore]

    The double of the literal [m * 10^e] is its value rounded to nearest,
    ties to even: it is at most 1.0 exactly when the literal is at most
    1 + 2^-53, and at least 0.0 (which -0.0 is) exactly when the literal is
    at least -2^-1075. *)
Definition float_le_one (f : pyfloat) : bool :=
  match f with
  | FDec m e =>
      if (0 <=? e)%Z then (m * 10 ^ e <=? 1)%Z
      else (m * 2 ^ 53 <=? (2 ^ 53 + 1) * 10 ^ (- e))%Z
  | FInf negative => negative
  | FNaN => false
  end.
Definition float_ge_zero (f : pyfloat) : bool :=
  match f with
  | FDec m e =>
      if (0 <=? m)%Z then true
      else if (0 <=? e)%Z then false
      else (- m * 2 ^ 1075 <=? 10 ^ (- e))%Z
  | FInf negative => negb negative
  | FNaN => false
  end.

(** *** The two models of [ai_classifier_service.py] *)

(** A [str] field: of the objects JSON gives, only a [str] is one. *)
Definition validate_str (v : json) : option pystr :=
  match v with JStr s => Some s | _ => None end.

(** A [float] field: a number is taken as it is, a [bool] as 1.0 or 0.0, a
    [str] is read as a float literal. *)
Definition validate_float (v : json) : option pyfloat :=
  match v with
  | JFloat f => Some f
  | JInt z => Some (FDec z 0)
  | JBool b => Some (FDec (if b then 1 else 0) 0)
  | JStr s => str_as_float s
  | _ => None
  end.

(** [ClassificationRequest(answer=objective)]; the validated [answer]. *)
Definition ClassificationRequest (objective : json) : result pystr :=
  match validate_str objective with
  | Some a => ok a
  | None => raise ValidationError
  end.

Record ClassificationResult : Type := mkClassificationResult {
  primaryDomain : pystr;
  confidenceScore : pyfloat;     (* Field(..., ge=0.0, le=1.0) *)
  justification : pystr
}.

Global Instance ClassificationResult_eq_dec : EqDecision ClassificationResult.
Proof. solve_decision. Defined.

(** The constructor [ClassificationResult], called with the keyword arguments
    [kwargs]: every field is required ([Field(...)]), other keys are ignored. *)
Definition ClassificationResult_init (kwargs : list (pystr * json)) : result ClassificationResult :=
  match dict_get (py "primaryDomain") kwargs ≫= validate_str,
        dict_get (py "confidenceScore") kwargs ≫= validate_float,
        dict_get (py "justification") kwargs ≫= validate_str with
  | Some d, Some c, Some j =>
      if float_ge_zero c && float_le_one c
      then ok (mkClassificationResult d c j)
      else raise ValidationError
  | _, _, _ => raise ValidationError
  end.

(** [r.model_dump()] *)
Definition model_dump (r : ClassificationResult) : json :=
  JObj [(py "primaryDomain", JStr (primaryDomain r));
        (py "confidenceScore", JFloat (confidenceScore r));
        (py "justification", JStr (justification r))].

(** [ClassificationResult.model_json_schema()]: what pydantic generates for
    the class of lines 17 to 24. The keys of a schema object are sorted, the
    keys of [properties] keep the order in which the fields are declared. *)
Definition model_json_schema : list (pystr * json) :=
  [(py "description",
     JStr (py "Defines the required structured output from the Gemini model,
where a definitive category is always chosen."));
   (py "properties", JObj
     [(py "primaryDomain", JObj
        [(py "description", JStr (py "The final, most suitable category for the user's response. This can be one of the existing categories or a newly generated one if no existing category fits."));
         (py "title", JStr (py "Primarydomain"));
         (py "type", JStr (py "string"))]);
      (py "confidenceScore", JObj
        [(py "description", JStr (py "The classification confidence (0.0 to 1.0)."));
         (py "maximum", JFloat (FDec 10 (-1)));
         (py "minimum", JFloat (FDec 0 (-1)));
         (py "title", JStr (py "Confidencescore"));
         (py "type", JStr (py "number"))]);
      (py "justification", JObj
        [(py "description", JStr (py "A concise, single-sentence explanation for the chosen classification."));
         (py "title", JStr (py "Justification"));
         (py "type", JStr (py "string"))])]);
   (py "required", JArr [JStr (py "primaryDomain"); JStr (py "confidenceScore");
                         JStr (py "justification")]);
   (py "title", JStr (py "ClassificationResult"));
   (py "type", JStr (py "object"))].

(** ** Operators of Python on the objects JSON gives *)

(** [x == s] for a [str] literal [s]: no other kind of object equals a [str]. *)
Definition py_eq_str (v : json) (s : pystr) : bool :=
  match v with
  | JStr t => bool_decide (t = s)
  | _ => false
  end.

(** [needle in s] for two [str]. *)
Fixpoint is_prefix (p s : pystr) : bool :=
  match p, s with
  | [], _ => true
  | a :: p', b :: s' => (a =? b) && is_prefix p' s'
  | _ :: _, [] => false
  end.
Fixpoint is_infix (needle s : pystr) : bool :=
  is_prefix needle s || match s with [] => false | _ :: s' => is_infix needle s' end.

(** [k in data] for a [str] k. *)
Definition py_contains (data : json) (k : pystr) : result bool :=
  match data with
  | JObj d => ok (bool_decide (is_Some (dict_get k d)))
  | JArr l => ok (existsb (λ x, py_eq_str x k) l)
  | JStr s => ok (is_infix k s)
  | _ => raise TypeError              (* not iterable *)
  end.

(** [data[k]] for a [str] k. *)
Definition py_getitem (data : json) (k : pystr) : result json :=
  match data with
  | JObj d => match dict_get k d with Some v => ok v | None => raise KeyError end
  | _ => raise TypeError              (* indices must be integers; not subscriptable *)
  end.

(** ** [ai_classifier_service.py] *)

Definition BASE_SYSTEM_PROMPT : pystr := py "
You are an intelligent engine for real-time survey analysis. Carefully read and interpret each user response, then assign it to the most appropriate category based on the survey question and existing categories.

**Instructions:**
1. Evaluate the user's answer in the context of the survey question.
2. First, check if the answer reasonably fits any of the **Existing Categories** (semantic meaning counts, not just exact wording). 
3. If it fits an existing category, set `primaryDomain` to that exact category name. Always prefer existing categories over creating new ones.
4. Only if the answer does not reasonably fit any existing category, create a new, concise category name (distinct from the user's answer) and assign it to `primaryDomain`.
5. Always follow the provided JSON schema strictly in your output.
".

(** [x.upper()] for an object [x] that JSON gives. *)
Definition py_upper (v : json) : result json :=
  match v with
  | JStr s => ok (JStr (upper s))
  | _ => raise AttributeError
  end.

(** The body of the loop of lines 49 to 51, for one [prop]: the test
    ['type' in prop], then [prop['type']], its [upper()] and the assignment.
    A property that is a [str] or a list without 'type' in it is passed
    over. *)
Definition upper_prop_type (prop : json) : result json :=
  let! has_type := py_contains prop (py "type") in
  if has_type then
    let! t := py_getitem prop (py "type") in
    let! t' := py_upper t in
    match prop with
    | JObj d => ok (JObj (dict_set (py "type") t' d))
    | _ => raise TypeError              (* not reached: the subscript has raised *)
    end
  else ok prop.

Fixpoint upper_prop_types (props : list (pystr * json)) : result (list (pystr * json)) :=
  match props with
  | [] => ok []
  | (k, prop) :: rest =>
      let! prop' := upper_prop_type prop in
      let! rest' := upper_prop_types rest in
      ok ((k, prop') :: rest')
  end.

(** Lines 47 to 53, on the dict [schema] that [model_json_schema()] returned.
    The loop updates the dicts under [properties] in place. *)
Definition compile_schema (schema : list (pystr * json)) : result (list (pystr * json)) :=
  match dict_pop (py "type") schema with
  | None => raise KeyError
  | Some (t, schema1) =>
      let! t' := py_upper t in
      let schema2 := dict_set (py "type") t' schema1 in
      let! schema3 :=
        match dict_get (py "properties") schema2 with
        | Some (JObj props) =>
            let! props' := upper_prop_types props in
            ok (dict_set (py "properties") (JObj props') schema2)
        | Some _ => raise AttributeError
        | None => ok schema2
        end in
      let! ordering :=
        match dict_get (py "properties") schema3 with
        | Some (JObj props) => ok (dict_keys props)
        | Some _ => raise AttributeError
        | None => ok []
        end in
      ok (dict_set (py "propertyOrdering") (JArr (map JStr ordering)) schema3)
  end.

Definition get_response_schema : result json :=
  let! schema := compile_schema model_json_schema in ok (JObj schema).

(** [json.dumps(..., indent=2)] of the values the prompt is built from: a
    [str], a list of [str] at nesting [level], and the three-key dict. With
    an indent the items are separated by a comma and a line break, a key
    from its value by a colon and a space, and an empty list is []. *)
Definition newline_indent (level : nat) : pystr := 10 :: repeat 32 (2 * level)%nat.

Fixpoint join_items (sep : pystr) (items : list pystr) : pystr :=
  match items with
  | [] => []
  | [x] => x
  | x :: rest => x ++ sep ++ join_items sep rest
  end.

Definition dumps_str_list (level : nat) (l : list pystr) : pystr :=
  match l with
  | [] => py "[]"
  | _ => 91 :: newline_indent (S level)
         ++ join_items (44 :: newline_indent (S level)) (map encode_basestring_ascii l)
         ++ newline_indent level ++ [93]
  end.

Definition dumps_user_prompt (objective question : pystr) (existing_categories : list pystr) : pystr :=
  123 :: newline_indent 1
  ++ encode_basestring_ascii (py "user_answer") ++ py ": " ++ encode_basestring_ascii objective
  ++ 44 :: newline_indent 1
  ++ encode_basestring_ascii (py "question") ++ py ": " ++ encode_basestring_ascii question
  ++ 44 :: newline_indent 1
  ++ encode_basestring_ascii (py "existing_categories") ++ py ": "
  ++ dumps_str_list 1 existing_categories
  ++ newline_indent 0 ++ [125].

Definition get_gemini_api_payload (objective : json) (question : pystr)
    (existing_categories : list pystr) : result json :=
  match ClassificationRequest objective with
  | inr _ => raise (ValueError (py "Invalid objective format."))
  | inl answer =>
      let user_prompt := dumps_user_prompt answer question existing_categories in
      let! schema := get_response_schema in
      ok (JObj
        [(py "contents", JArr [JObj [(py "parts", JArr [JObj [(py "text", JStr user_prompt)]])]]);
         (py "systemInstruction", JObj [(py "parts", JArr [JObj [(py "text", JStr BASE_SYSTEM_PROMPT)]])]);
         (py "generationConfig", JObj
            [(py "responseMimeType", JStr (py "application/json"));
             (py "responseSchema", schema)])])
  end.

(** What one [requests.post] gives: no response at all (the call raised), or a
    response with its status code and the text of its body. *)
Inductive http_outcome : Type :=
  | NoResponse
  | Response (status : N) (body : pystr).

(** [d.get(k, default)]; only a dict has [get]. *)
Definition py_get (v : json) (k : pystr) (dflt : json) : result json :=
  match v with
  | JObj d => ok (default dflt (dict_get k d))
  | _ => raise AttributeError
  end.

(** [x[0]] *)
Definition py_index0 (v : json) : result json :=
  match v with
  | JArr (x :: _) => ok x
  | JArr [] => raise IndexError
  | JStr (c :: _) => ok (JStr [c])
  | JStr [] => raise IndexError
  | JObj _ => raise KeyError          (* the keys of a JSON object are [str] *)
  | _ => raise TypeError
  end.

(** Line 127: the text at candidates[0].content.parts[0].text *)
Definition extract_text (api_response_data : json) : result json :=
  let! candidates := py_get api_response_data (py "candidates") (JArr [JObj []]) in
  let! candidate := py_index0 candidates in
  let! content := py_get candidate (py "content") (JObj []) in
  let! parts := py_get content (py "parts") (JArr [JObj []]) in
  let! part := py_index0 parts in
  py_get part (py "text") (JStr (py "{}")).

(** Lines 132 to 135: [json.loads] of the extracted text, then the model. *)
Definition parse_model_output (json_string : json) : result ClassificationResult :=
  let! model_output_data :=
    match json_string with
    | JStr s => json_loads_at (output_recursion python) s
    | _ => raise TypeError              (* not a str, bytes or bytearray *)
    end in
  match model_output_data with
  | JObj kwargs => ClassificationResult_init kwargs
  | _ => raise TypeError              (* the argument after ** is not a mapping *)
  end.

Section Service.
(** The provider: what a [requests.post] of a payload to a URL gives. *)
Variable requests_post : pystr → json → http_outcome.

(** Lines 122 to 126: the request, [raise_for_status] and the body as JSON.
    [response.json()] turns the [JSONDecodeError] of the decoder into the one
    of requests, a [RequestException]; another exception of the decoder
    leaves it as it is. *)
Definition post_json (full_api_url : pystr) (payload : json) : result json :=
  match requests_post full_api_url payload with
  | NoResponse => raise (RequestException ConnectionFailure)
  | Response status body =>
      if (400 <=? status) && (status <? 600)
      then raise (RequestException (HTTPError status))
      else match json_loads_at (response_recursion python) body with
           | inl v => ok v
           | inr JSONDecodeError => raise (RequestException InvalidJSONBody)
           | inr e => raise e
           end
  end.

(** Lines 121 to 138, once the payload is built. *)
Definition call_model (full_api_url : pystr) (payload : json) : result ClassificationResult :=
  let! api_response_data := post_json full_api_url payload in
  let! json_string := extract_text api_response_data in
  if negb (truthy json_string) || py_eq_str json_string (py "{}")
  then raise (RuntimeError (py "AI model did not return valid classification content.") None)
  else parse_model_output json_string.

(** The [except] clauses of lines 140 to 149. *)
Definition classify_except {A} (m : result A) : result A :=
  match m with
  | inl a => ok a
  | inr ValidationError =>
      raise (RuntimeError (py "AI output failed schema validation.") None)
  | inr (RequestException f) =>
      raise (RuntimeError (py "Failed to communicate with the AI service: ") (Some f))
  | inr e => raise e
  end.

(** The result, and the requests that were posted on the way. *)
Definition classify_learning_objective (objective : json) (api_url api_key question : pystr)
    (existing_categories : list pystr) : result ClassificationResult * list (pystr * json) :=
  match get_gemini_api_payload objective question existing_categories with
  | inr e => (classify_except (raise e), [])
  | inl payload =>
      let full_api_url := api_url ++ py "?key=" ++ api_key in
      (classify_except (call_model full_api_url payload), [(full_api_url, payload)])
  end.
End Service.

(** ** [app.py] *)

Definition GEMINI_API_URL : pystr :=
  py "https://generativelanguage.googleapis.com/v1beta/models/gemini-2.5-flash-preview-05-20:generateContent".

(** One element of [user_responses] (lines 138 to 144). *)
Record response_record : Type := mkRecord {
  rec_id : pystr;
  userId : pystr;
  answer : json;
  classification : ClassificationResult;
  timestamp : Z
}.

(** The globals [user_responses] and [current_question], and two logs of what
    the process did to the outside: the requests posted to the provider and
    the [state_update] events broadcast, each with its question and its
    responses. *)
Record app_state : Type := mkState {
  user_responses : list response_record;
  current_question : pystr;
  posted : list (pystr * json);
  emitted : list (pystr * list response_record)
}.

(** The Flask session of the caller. *)
Record session : Type := mkSession {
  logged_in : bool;
  user_id : option pystr
}.

(** What [jsonify(...), status] returns to the caller. *)
Record reply : Type := mkReply {
  reply_body : json;
  reply_status : N
}.

Definition error_reply (msg : string) (status : N) : reply :=
  mkReply (JObj [(py "error", JStr (py msg))]) status.

(** Lines 96 to 103. *)
Definition handle_clear_data (sess : session) (st : app_state) : app_state :=
  if logged_in sess then
    mkState [] (current_question st) (posted st)
            (emitted st ++ [(current_question st, [])])
  else st.

(** Whether [objective[:40]] can be taken: of the objects JSON gives, a [str]
    and a list can be sliced. *)
Definition py_sliceable (objective : json) : result unit :=
  match objective with
  | JStr _ | JArr _ => ok ()
  | _ => raise TypeError
  end.

(** Lines 130 to 132: [sorted(list(set(...)))]. The order in which the set is
    listed does not show in the result, see [sorted_set_unique]. *)
Definition existing_categories_of (responses : list response_record) : list pystr :=
  merge_sort str_le
    (elements (list_to_set (map (λ res, primaryDomain (classification res)) responses)
                 : gset pystr)).

(** What [request.get_json()] does with the body of the request (line 121):
    it returns the value of the JSON text, [None] of Python being [JNull]; or
    it raises an HTTPException of werkzeug, [BadRequest] for a body that the
    decoder refuses with a [ValueError], [UnsupportedMediaType] for a content
    type that is not JSON; or the decoder has met the recursion limit in a
    body nested too deep, and its [RecursionError] comes out. *)
Inductive get_json : Type :=
  | Returned (data : json)
  | NotJSON
  | NestedTooDeep.

Section App.
Variable requests_post : pystr → json → http_outcome.
(** The environment variable; [None] when it is not set. *)
Variable GEMINI_API_KEY : option pystr.

(** The [try] block of [classify_objective], from line 121 on, for a key
    that is set: the reply or the exception, and the state it leaves. *)
Definition classify_objective_body (api_key : pystr) (sess : session)
    (request_json : get_json) (now : Z) (st : app_state) : result reply * app_state :=
  match request_json with
  | NotJSON => (raise BadRequest, st)
  | NestedTooDeep => (raise RecursionError, st)
  | Returned data =>
      if negb (truthy data) then (ok (error_reply "Missing required field 'answer'" 400), st)
      else match py_contains data (py "answer") with
      | inr e => (raise e, st)
      | inl false => (ok (error_reply "Missing required field 'answer'" 400), st)
      | inl true =>
          match (let! objective := py_getitem data (py "answer") in
                 let! _ := py_sliceable objective in ok objective) with
          | inr e => (raise e, st)
          | inl objective =>
              let existing_categories := existing_categories_of (user_responses st) in
              let '(outcome, sent) :=
                classify_learning_objective requests_post objective GEMINI_API_URL api_key
                  (current_question st) existing_categories in
              let st1 := mkState (user_responses st) (current_question st)
                                 (posted st ++ sent) (emitted st) in
              match outcome with
              | inr e => (raise e, st1)
              | inl classification_result =>
                  let new_response :=
                    mkRecord (py "res-" ++ str_of_N (N.of_nat (length (user_responses st)) + 1))
                             (default (py "anonymous") (user_id sess))
                             objective classification_result now in
                  let responses := user_responses st ++ [new_response] in
                  (ok (mkReply (model_dump classification_result) 200),
                   mkState responses (current_question st) (posted st1)
                           (emitted st ++ [(current_question st, responses)]))
              end
          end
      end
  end.

(** Lines 108 to 165. The body of the 422 reply also holds the list
    [e.errors()], which is not modelled; the branch is never taken, see
    [classify_objective_status]. The clause for [RuntimeError] also catches
    its subclass [RecursionError]. *)
Definition classify_objective (sess : session) (request_json : get_json) (now : Z)
    (st : app_state) : reply * app_state :=
  match GEMINI_API_KEY with
  | None | Some [] =>
      (error_reply "Server is not configured for AI classification." 500, st)
  | Some api_key =>
      match classify_objective_body api_key sess request_json now st with
      | (inl r, st') => (r, st')
      | (inr ValidationError, st') => (error_reply "Data validation failed" 422, st')
      | (inr (RuntimeError _ _), st') | (inr RecursionError, st') =>
          (error_reply "AI classification failed due to internal schema mismatch." 500, st')
      | (inr _, st') => (error_reply "An internal server error occurred." 500, st')
      end
  end.
End App.

(** ** [app.py]: the pages and the login *)

(** What a page handler returns: a redirect to a location or a file sent from
    the directory of the application. *)
Inductive page : Type :=
  | Redirect (location : pystr)
  | SendFile (name : pystr).

(** Lines 37 to 40 and 57 to 60. *)
Definition serve_login_page : page := SendFile (py "login.html").
Definition serve_user_panel : page := SendFile (py "user.html").

Section Admin.
(** The two environment variables, with their defaults when they are not set. *)
Variables ADMIN_USERNAME ADMIN_PASSWORD : pystr.

(** Lines 42 to 55. [username] and [password] are what [request.form.get]
    gives, [None] for a field that is not in the form. The locations are
    those [url_for] builds for the routes of lines 37 and 62. *)
Definition handle_login (username password : option pystr) (sess : session) : page * session :=
  if bool_decide (username = Some ADMIN_USERNAME) && bool_decide (password = Some ADMIN_PASSWORD)
  then (Redirect (py "/admin.html"), mkSession true (user_id sess))
  else (Redirect (py "/?error=true"), sess).
End Admin.

(** Lines 62 to 70. *)
Definition serve_admin_panel (sess : session) : page :=
  if negb (logged_in sess) then Redirect (py "/") else SendFile (py "admin.html").

(** Lines 72 to 76. *)
Definition logout (sess : session) : page * session :=
  (Redirect (py "/"), mkSession false (user_id sess)).

(** ** [app.py]: the other socket events *)

(** Lines 80 to 83: the [state_update] sent to the client that connects. The
    globals are read, not written. *)
Definition handle_connect (st : app_state) : pystr * list response_record :=
  (current_question st, user_responses st).

(** What [handle_set_question] does: it returns with a state, it raises, or it
    stores as the question a truthy object that is not a [str]. This
    development types the question as a [str] and does not follow a run
    beyond that last point. *)
Inductive set_question_outcome : Type :=
  | QuestionState (st : app_state)
  | QuestionRaised (e : exn)
  | QuestionNotText (question_text : json).

(** Lines 85 to 94. *)
Definition handle_set_question (sess : session) (data : json) (st : app_state)
    : set_question_outcome :=
  if logged_in sess then
    match py_get data (py "question") JNull with
    | inr e => QuestionRaised e
    | inl question_text =>
        if truthy question_text then
          match question_text with
          | JStr q =>
              QuestionState
                (mkState (user_responses st) q (posted st)
                         (emitted st ++ [(q, user_responses st)]))
          | _ => QuestionNotText question_text
          end
        else QuestionState st
    end
  else QuestionState st.

(** ** Definitions used to state the properties *)

(** The [user_prompt] of a payload: contents[0].parts[0].text *)
Definition payload_user_prompt (payload : json) : option pystr :=
  match payload with
  | JObj d =>
      match dict_get (py "contents") d with
      | Some (JArr (JObj content :: _)) =>
          match dict_get (py "parts") content with
          | Some (JArr (JObj part :: _)) => dict_get (py "text") part ≫= validate_str
          | _ => None
          end
      | _ => None
      end
  | _ => None
  end.

(** No high surrogate of the text is directly followed by a low surrogate. *)
Fixpoint no_surrogate_pair (s : pystr) : bool :=
  match s with
  | a :: (b :: _) as rest =>
      negb (is_high_surrogate a && is_low_surrogate b) && no_surrogate_pair rest
  | _ => true
  end.

(** The text [r] starts with a \u escape, with more text after it, whose four
    characters are not the hex digits of a code point outside the low
    surrogates: read after a high surrogate, this is where the scanner joins
    the two escapes or stops with an error. *)
Definition low_escape_ahead (r : pystr) : bool :=
  match r with
  | b :: u :: g1 :: g2 :: g3 :: g4 :: rest3 =>
      (b =? 92) && (u =? 117) && match rest3 with [] => false | _ => true end
      && match hex4_value g1 g2 g3 g4 with
         | None => true
         | Some uni2 => is_low_surrogate uni2
         end
  | _ => false
  end.

Ltac cmp :=
  repeat (match goal with
          | |- context [?a =? ?b] => destruct (N.eqb_spec a b)
          | |- context [?a <? ?b] => destruct (N.ltb_spec a b)
          | |- context [?a <=? ?b] => destruct (N.leb_spec a b)
          end; try (exfalso; lia); cbn [andb orb negb]).

(** A well-formed text without such a pair. *)
Definition text_ok (s : pystr) : Prop := wf_str s ∧ no_surrogate_pair s = true.

(** ** Concrete requests, providers and states used below *)

Definition no_session : session := mkSession false None.
Definition admin_session : session := mkSession true None.
Definition empty_state : app_state :=
  mkState [] (py "What is your primary learning objective regarding the use of AI in medicine?") [] [].
Definition oncology_record : response_record :=
  mkRecord (py "res-1") (py "anonymous") (JStr (py "I want to learn how AI detects cancer in scans"))
    (mkClassificationResult (py "Oncology") (FDec 91 (-2)) (py "Concerns AI-assisted cancer detection."))
    1700000000.
Definition oncology_state : app_state :=
  mkState [oncology_record] (current_question empty_state) [] [].

Definition request_with_answer (a : string) : get_json :=
  Returned (JObj [(py "answer", JStr (py a))]).

(** A provider that answers every request with the text [model_text] in the
    envelope of the API. *)
Definition envelope (model_text : json) : json :=
  JObj [(py "candidates",
         JArr [JObj [(py "content", JObj [(py "parts", JArr [JObj [(py "text", model_text)]])])]])].
Definition provider_down : pystr → json → http_outcome := λ _ _, NoResponse.
Definition provider_unavailable : pystr → json → http_outcome :=
  λ _ _, Response 503 (py "Service Unavailable").
Definition provider_no_candidates : pystr → json → http_outcome :=
  λ _ _, Response 200 (pyq "{'candidates': []}").
Definition provider_empty_text : pystr → json → http_outcome :=
  λ _ _, Response 200 (pyq "{'candidates': [{'content': {'parts': [{'text': ''}]}}]}").
Definition provider_braces : pystr → json → http_outcome :=
  λ _ _, Response 200 (pyq "{'candidates': [{'content': {'parts': [{'text': '{}'}]}}]}").
Definition provider_no_text : pystr → json → http_outcome :=
  λ _ _, Response 200 (pyq "{'candidates': [{'content': {'parts': [{}]}}]}").
Definition provider_bad_score : pystr → json → http_outcome :=
  λ _ _, Response 200 (pyq "{'candidates': [{'content': {'parts': [{'text': '{\'primaryDomain\': \'Oncology\', \'confidenceScore\': 1.5, \'justification\': \'x\'}'}]}}]}").
Definition provider_oncology : pystr → json → http_outcome :=
  λ _ _, Response 200 (pyq "{'candidates': [{'content': {'parts': [{'text': '{\'primaryDomain\': \'Oncology\', \'confidenceScore\': 0.91, \'justification\': \'Concerns AI-assisted cancer detection.\'}'}]}}]}").

Definition test_key : option pystr := Some (py "k").

(** The payloads of the specification for the validator, and one with a
    member more whose value is the constant NaN. *)
Definition payload_of_specification : pystr :=
  pyq "{'primaryDomain':'Cancer Imaging','confidenceScore':0.87,'justification':'Mentions tumor segmentation in CT scans.'}".
Definition payload_without_justification : pystr :=
  pyq "{'primaryDomain':'Cancer Imaging','confidenceScore':0.87}".
Definition payload_with_score_above_one : pystr :=
  pyq "{'primaryDomain':'Cancer Imaging','confidenceScore':1.5,'justification':'Mentions tumor segmentation in CT scans.'}".
Definition payload_with_score_as_text : pystr :=
  pyq "{'primaryDomain':'Cancer Imaging','confidenceScore':'high','justification':'Mentions tumor segmentation in CT scans.'}".
Definition payload_with_nan : pystr :=
  pyq "{'primaryDomain':'Cancer Imaging','confidenceScore':0.87,'justification':'Mentions tumor segmentation in CT scans.','note':NaN}".

(** An interpreter for the instances: the default digit limit of CPython, a
    call stack far from the recursion limit for every text, and a case table
    that is not consulted, the tags of the schema being ASCII. *)
Definition test_python : interpreter :=
  mkInterpreter (λ c, [c]) 4300 (λ _, false) (λ _, false).

(** The answer text a request carries, if it carries one. *)
Definition request_answer (request_json : get_json) : option pystr :=
  match request_json with
  | Returned (JObj d) => dict_get (py "answer") d ≫= validate_str
  | _ => None
  end.

(** The test of line 123 holds: the value counts as false, or it is a dict
    without the key 'answer', a list without the element 'answer' or a text
    without 'answer' in it. *)
Definition lacks_answer (data : json) : bool :=
  negb (truthy data)
  || match data with
     | JObj d => bool_decide (dict_get (py "answer") d = None)
     | JArr l => negb (existsb (λ x, py_eq_str x (py "answer")) l)
     | JStr s => negb (is_infix (py "answer") s)
     | _ => false
     end.

(** The reply to a request that carries no answer text. *)
Definition reply_without_answer (GEMINI_API_KEY : option pystr) (request_json : get_json)
    : reply :=
  match GEMINI_API_KEY with
  | None | Some [] => error_reply "Server is not configured for AI classification." 500
  | Some _ =>
      match request_json with
      | Returned data =>
          if lacks_answer data then error_reply "Missing required field 'answer'" 400
          else error_reply "An internal server error occurred." 500
      | NotJSON => error_reply "An internal server error occurred." 500
      | NestedTooDeep =>
          error_reply "AI classification failed due to internal schema mismatch." 500
      end
  end.

Definition request_without_answer : get_json :=
  Returned (JObj [(py "text", JStr (py "I want to learn about AI"))]).

(** The type tag of the property [name] of a schema. *)
Definition property_type (schema : json) (name : pystr) : option json :=
  match schema with
  | JObj d =>
      match dict_get (py "properties") d with
      | Some (JObj props) =>
          match dict_get name props with
          | Some (JObj prop) => dict_get (py "type") prop
          | _ => None
          end
      | _ => None
      end
  | _ => None
  end.

Definition property_names (schema : json) : option (list pystr) :=
  match schema with
  | JObj d =>
      match dict_get (py "properties") d with
      | Some (JObj props) => Some (dict_keys props)
      | _ => None
      end
  | _ => None
  end.

Definition schema_member (schema : json) (k : pystr) : option json :=
  match schema with
  | JObj d => dict_get k d
  | _ => None
  end.

(** ** The process serving calls one after another *)

(** A call to the API route or a socket event. A classification request comes
    with the provider as it answers at that time. *)
Inductive call : Type :=
  | ClassifyObjective (requests_post : pystr → json → http_outcome) (sess : session)
      (request_json : get_json) (now : Z)
  | ClearAllData (sess : session)
  | SetQuestion (sess : session) (data : json)
  | Connect.

(** The state after one call. An exception out of a socket handler leaves the
    state as it is. The question of [app_state] is a text: when a logged-in
    session sets a question that counts as true and is not a [str], which the
    code stores and broadcasts like any other, the run leaves the states of
    this development and [serve] is [None]; [question_is_text] below tells
    the calls that do not do this. *)
Definition serve (GEMINI_API_KEY : option pystr) (c : call) (st : app_state)
    : option app_state :=
  match c with
  | ClassifyObjective requests_post sess request_json now =>
      Some (snd (classify_objective requests_post GEMINI_API_KEY sess request_json now st))
  | ClearAllData sess => Some (handle_clear_data sess st)
  | SetQuestion sess data =>
      match handle_set_question sess data st with
      | QuestionState st' => Some st'
      | QuestionRaised _ => Some st
      | QuestionNotText _ => None
      end
  | Connect => Some st
  end.

Fixpoint serve_all (GEMINI_API_KEY : option pystr) (calls : list call) (st : app_state)
    : option app_state :=
  match calls with
  | [] => Some st
  | c :: calls' => serve GEMINI_API_KEY c st ≫= serve_all GEMINI_API_KEY calls'
  end.

(** A call other than a [set_question] by which a logged-in session sets a
    question that counts as true and is not a [str]. *)
Definition question_is_text (c : call) : bool :=
  match c with
  | SetQuestion sess data =>
      negb (logged_in sess)
      || match py_get data (py "question") JNull with
         | inl question_text =>
             negb (truthy question_text)
             || match question_text with JStr _ => true | _ => false end
         | inr _ => true
         end
  | _ => true
  end.

(** A socket event sent with a session that is logged in. *)
Definition by_admin (c : call) : bool :=
  match c with
  | ClearAllData sess | SetQuestion sess _ => logged_in sess
  | _ => false
  end.

(** The identifier of the i-th record of a history, counted from 1. *)
Definition response_id (i : nat) : pystr := py "res-" ++ str_of_N (N.of_nat i).

Definition ids_in_sequence (responses : list response_record) : Prop :=
  map rec_id responses = map response_id (seq 1 (length responses)).

(** A stored record holds a text as its answer and a score within the bounds
    of the model. *)
Definition stored_ok (rec : response_record) : Prop :=
  (∃ a, answer rec = JStr a)
  ∧ float_ge_zero (confidenceScore (classification rec)) = true
  ∧ float_le_one (confidenceScore (classification rec)) = true.

(** The last [state_update] broadcast carries what a client that connects now
    is sent. *)
Definition in_sync (st : app_state) : Prop :=
  last (emitted st) = Some (handle_connect st).

(** The requests to the pages, with the form fields of a login. *)
Inductive page_request : Type :=
  | GetLoginPage
  | PostLogin (username password : option pystr)
  | GetUserPanel
  | GetAdminPanel
  | GetLogout.

Definition respond (ADMIN_USERNAME ADMIN_PASSWORD : pystr) (rq : page_request)
    (sess : session) : page * session :=
  match rq with
  | GetLoginPage => (serve_login_page, sess)
  | PostLogin username password =>
      handle_login ADMIN_USERNAME ADMIN_PASSWORD username password sess
  | GetUserPanel => (serve_user_panel, sess)
  | GetAdminPanel => (serve_admin_panel sess, sess)
  | GetLogout => logout sess
  end.

(** The session after a sequence of requests of one browser. *)
Definition browse (ADMIN_USERNAME ADMIN_PASSWORD : pystr) (rqs : list page_request)
    (sess : session) : session :=
  fold_left (λ s rq, snd (respond ADMIN_USERNAME ADMIN_PASSWORD rq s)) rqs sess.

Definition is_login_with (ADMIN_USERNAME ADMIN_PASSWORD : pystr) (rq : page_request) : bool :=
  match rq with
  | PostLogin username password =>
      bool_decide (username = Some ADMIN_USERNAME) && bool_decide (password = Some ADMIN_PASSWORD)
  | _ => false
  end.

(** Two sequences of calls: one with a failing provider, an admin setting the
    question and a client connecting; one of visitors only. *)
Definition set_question_data (q : string) : json := JObj [(py "question", JStr (py q))].

Definition sample_calls : list call :=
  [ClassifyObjective provider_oncology no_session (request_with_answer "treat tumours") 5;
   ClassifyObjective provider_down no_session (request_with_answer "read scans") 6;
   SetQuestion admin_session (set_question_data "What do you expect from AI?");
   ClassifyObjective provider_oncology no_session (request_with_answer "read scans") 7;
   Connect].

Definition visitor_calls : list call :=
  [ClassifyObjective provider_oncology no_session (request_with_answer "treat tumours") 5;
   ClearAllData no_session;
   SetQuestion no_session (set_question_data "What do you expect from AI?");
   SetQuestion no_session (JStr (py "question"));
   ClassifyObjective provider_oncology no_session (request_with_answer "read scans") 7].

(** A line break or a printable ASCII character. *)
Definition printable (c : N) : bool := (c =? 10) || ((32 <=? c) && (c <=? 126)).

(** ** The grammar of JSON texts

    The grammar of RFC 8259, character by character, for comparison with the
    decoder; with [constants] it has the three values NaN, Infinity and
    -Infinity as well, which are no JSON and which Python reads. *)

Definition json_ws (w : pystr) : Prop := Forall (λ c, is_ws c = true) w.
Definition json_digits (ds : pystr) : Prop := Forall (λ c, is_digit c = true) ds.

Definition is_hex (c : N) : bool :=
  is_digit c || ((97 <=? c) && (c <=? 102)) || ((65 <=? c) && (c <=? 70)).

(** The characters between the quotes of a string: any character from the
    space on but the quote and the backslash; a backslash and one of
    quote, backslash, slash, b, f, n, r, t; a backslash, u and four
    hexadecimal digits. *)
Inductive json_chars : pystr → Prop :=
  | chars_end : json_chars []
  | chars_plain c b :
      32 <= c → c ≠ 34 → c ≠ 92 → json_chars b → json_chars (c :: b)
  | chars_escape e b :
      e ∈ [34; 92; 47; 98; 102; 110; 114; 116] → json_chars b →
      json_chars (92 :: e :: b)
  | chars_unicode h1 h2 h3 h4 b :
      is_hex h1 = true → is_hex h2 = true → is_hex h3 = true → is_hex h4 = true →
      json_chars b →
      json_chars (92 :: 117 :: h1 :: h2 :: h3 :: h4 :: b).

(** number = [ minus ] int [ frac ] [ exp ] *)
Inductive json_number : pystr → Prop :=
  | number_parts sign int frac exp :
      sign = [] ∨ sign = [45] →
      int = [48] ∨ (∃ d ds, int = d :: ds ∧ 49 <= d <= 57 ∧ json_digits ds) →
      frac = [] ∨ (∃ d ds, frac = 46 :: d :: ds ∧ json_digits (d :: ds)) →
      exp = [] ∨ (∃ e sg d ds, exp = e :: sg ++ d :: ds
                               ∧ (e = 101 ∨ e = 69)
                               ∧ (sg = [] ∨ sg = [43] ∨ sg = [45])
                               ∧ json_digits (d :: ds)) →
      json_number (sign ++ int ++ frac ++ exp).

Inductive json_value (constants : bool) : pystr → Prop :=
  | value_null : json_value constants (py "null")
  | value_true : json_value constants (py "true")
  | value_false : json_value constants (py "false")
  | value_NaN : constants = true → json_value constants (py "NaN")
  | value_Infinity : constants = true → json_value constants (py "Infinity")
  | value_minus_Infinity : constants = true → json_value constants (py "-Infinity")
  | value_number lit : json_number lit → json_value constants lit
  | value_string b : json_chars b → json_value constants (34 :: b ++ [34])
  | value_empty_array w : json_ws w → json_value constants (91 :: w ++ [93])
  | value_array w elements :
      json_ws w → json_elements constants elements →
      json_value constants (91 :: w ++ elements)
  | value_empty_object w : json_ws w → json_value constants (123 :: w ++ [125])
  | value_object w members :
      json_ws w → json_members constants members →
      json_value constants (123 :: w ++ members)
(** the values of an array after the opening bracket, with the closing one *)
with json_elements (constants : bool) : pystr → Prop :=
  | elements_last v w :
      json_value constants v → json_ws w →
      json_elements constants (v ++ w ++ [93])
  | elements_more v w w1 elements :
      json_value constants v → json_ws w → json_ws w1 →
      json_elements constants elements →
      json_elements constants (v ++ w ++ 44 :: w1 ++ elements)
(** the members of an object after the opening brace, with the closing one *)
with json_members (constants : bool) : pystr → Prop :=
  | members_last k w w1 v w2 :
      json_chars k → json_ws w → json_ws w1 → json_value constants v → json_ws w2 →
      json_members constants (34 :: k ++ 34 :: w ++ 58 :: w1 ++ v ++ w2 ++ [125])
  | members_more k w w1 v w2 w3 members :
      json_chars k → json_ws w → json_ws w1 → json_value constants v → json_ws w2 →
      json_ws w3 → json_members constants members →
      json_members constants
        (34 :: k ++ 34 :: w ++ 58 :: w1 ++ v ++ w2 ++ 44 :: w3 ++ members).

Scheme json_value_mut := Minimality for json_value Sort Prop
  with json_elements_mut := Minimality for json_elements Sort Prop
  with json_members_mut := Minimality for json_members Sort Prop.
Combined Scheme json_grammar_ind
  from json_value_mut, json_elements_mut, json_members_mut.

(** JSON-text = ws value ws *)
Definition json_text (constants : bool) (s : pystr) : Prop :=
  ∃ w lit w1, s = w ++ lit ++ w1 ∧ json_ws w ∧ json_value constants lit ∧ json_ws w1.

(** A test that every JSON text passes: outside its strings it has only
    whitespace, digits, the signs of numbers, the punctuation of arrays and
    objects and the letters of the constants. *)
Definition json_bare_char (constants : bool) (c : N) : bool :=
  is_ws c || is_digit c
  || bool_decide (c ∈ py "-+.eE[]{},:nulltruefalse")
  || (constants && bool_decide (c ∈ py "NIiy")).

Inductive lexer_state : Type := Bare | InString | Escaped.

Fixpoint bare_characters (constants : bool) (st : lexer_state) (s : pystr) : bool :=
  match s with
  | [] => true
  | c :: r =>
      match st with
      | Bare =>
          if c =? 34 then bare_characters constants InString r
          else json_bare_char constants c && bare_characters constants Bare r
      | InString =>
          if c =? 34 then bare_characters constants Bare r
          else if c =? 92 then bare_characters constants Escaped r
          else bare_characters constants InString r
      | Escaped => bare_characters constants InString r
      end
  end.

(** ** The causes of a failure of [classify_learning_objective]

    Each cause with the exception that the call ends in: the answer is not a
    text; the exchange with the provider fails; the decoder of the response
    meets a limit of the interpreter; the walk through the envelope raises;
    the text is missing, empty or the text of an empty object; the text is
    not a [str]; the decoder refuses the text; the value of the text is not
    an object; the model refuses the object. *)
Inductive service_failure (requests_post : pystr → json → http_outcome) (objective : json)
    (api_url api_key question : pystr) (existing_categories : list pystr) : exn → Prop :=
  | InvalidInput :
      validate_str objective = None →
      service_failure requests_post objective api_url api_key question existing_categories
        (ValueError (py "Invalid objective format."))
  | CommunicationFailure payload f :
      get_gemini_api_payload objective question existing_categories = ok payload →
      post_json requests_post (api_url ++ py "?key=" ++ api_key) payload
      = raise (RequestException f) →
      service_failure requests_post objective api_url api_key question existing_categories
        (RuntimeError (py "Failed to communicate with the AI service: ") (Some f))
  | ResponseOverLimit payload e :
      get_gemini_api_payload objective question existing_categories = ok payload →
      post_json requests_post (api_url ++ py "?key=" ++ api_key) payload = raise e →
      (∀ f, e ≠ RequestException f) →
      service_failure requests_post objective api_url api_key question existing_categories e
  | MalformedEnvelope payload data e :
      get_gemini_api_payload objective question existing_categories = ok payload →
      post_json requests_post (api_url ++ py "?key=" ++ api_key) payload = ok data →
      extract_text data = raise e →
      service_failure requests_post objective api_url api_key question existing_categories e
  | EmptyModelOutput payload data text :
      get_gemini_api_payload objective question existing_categories = ok payload →
      post_json requests_post (api_url ++ py "?key=" ++ api_key) payload = ok data →
      extract_text data = ok text →
      negb (truthy text) || py_eq_str text (py "{}") = true →
      service_failure requests_post objective api_url api_key question existing_categories
        (RuntimeError (py "AI model did not return valid classification content.") None)
  | OutputNotText payload data text :
      get_gemini_api_payload objective question existing_categories = ok payload →
      post_json requests_post (api_url ++ py "?key=" ++ api_key) payload = ok data →
      extract_text data = ok text →
      truthy text = true →
      validate_str text = None →
      service_failure requests_post objective api_url api_key question existing_categories
        TypeError
  | OutputNotDecoded payload data text e :
      get_gemini_api_payload objective question existing_categories = ok payload →
      post_json requests_post (api_url ++ py "?key=" ++ api_key) payload = ok data →
      extract_text data = ok (JStr text) →
      text ≠ [] → text ≠ py "{}" →
      json_loads_at (output_recursion python) text = raise e →
      service_failure requests_post objective api_url api_key question existing_categories e
  | OutputNotObject payload data text v :
      get_gemini_api_payload objective question existing_categories = ok payload →
      post_json requests_post (api_url ++ py "?key=" ++ api_key) payload = ok data →
      extract_text data = ok (JStr text) →
      text ≠ [] → text ≠ py "{}" →
      json_loads_at (output_recursion python) text = ok v →
      (∀ kwargs, v ≠ JObj kwargs) →
      service_failure requests_post objective api_url api_key question existing_categories
        TypeError
  | SchemaViolation payload data text kwargs :
      get_gemini_api_payload objective question existing_categories = ok payload →
      post_json requests_post (api_url ++ py "?key=" ++ api_key) payload = ok data →
      extract_text data = ok (JStr text) →
      text ≠ [] → text ≠ py "{}" →
      json_loads_at (output_recursion python) text = ok (JObj kwargs) →
      ClassificationResult_init kwargs = raise ValidationError →
      service_failure requests_post objective api_url api_key question existing_categories
        (RuntimeError (py "AI output failed schema validation.") None).

(** * Properties *)

(** ** The decoder on some texts *)

Example json_loads_ex1 :
  json_loads (pyq "{'a': [1, 2.5e-1, 'x\u00e9\n'], 'b' : {}, 'a': [true, -0, 1E2]} ")
  = ok (JObj [(py "a", JArr [JBool true; JInt 0; JFloat (FDec 1 2)]); (py "b", JObj [])]).
Proof. vm_compute. reflexivity. Qed.

Example json_loads_ex2 :
  json_loads (pyq "['\ud83d\ude00', '\ud83d', 1.]") = raise JSONDecodeError
  ∧ json_loads (pyq "['\ud83d\ude00', '\ud83dx']") = ok (JArr [JStr [0x1f600]; JStr [0xd83d; 120]]).
Proof. vm_compute. split; reflexivity. Qed.

(** ** The request handlers: what a failing request leaves behind *)

#[local] Opaque py.

(** What [classify_learning_objective] raises is never one of the two kinds
    its [except] clauses rewrite. *)
Lemma classify_except_raise {A} (m : result A) e :
  classify_except m = inr e → e ≠ ValidationError ∧ ∀ f, e ≠ RequestException f.
Proof.
  destruct m as [a|e']; simpl; [discriminate|].
  destruct e'; intros; simplify_eq; (split; [|intros ?]; discriminate).
Qed.

Section AppFacts.
Variable requests_post : pystr → json → http_outcome.

Lemma classify_learning_objective_raise objective url key q cats e :
  fst (classify_learning_objective requests_post objective url key q cats) = inr e →
  e ≠ ValidationError ∧ ∀ f, e ≠ RequestException f.
Proof.
  unfold classify_learning_objective.
  destruct (get_gemini_api_payload objective q cats); cbn [fst];
    apply classify_except_raise.
Qed.

Lemma classify_posts_at_most_one objective url key q cats :
  snd (classify_learning_objective requests_post objective url key q cats) = []
  ∨ ∃ payload,
      get_gemini_api_payload objective q cats = ok payload
      ∧ snd (classify_learning_objective requests_post objective url key q cats)
        = [(url ++ py "?key=" ++ key, payload)].
Proof.
  unfold classify_learning_objective.
  destruct (get_gemini_api_payload objective q cats) as [payload|e]; simpl; eauto.
Qed.

(** An exception out of the [try] block leaves the two globals and the
    broadcast log as they were. *)
Lemma classify_objective_body_raise key sess req now st e st' :
  classify_objective_body requests_post key sess req now st = (inr e, st') →
  user_responses st' = user_responses st
  ∧ current_question st' = current_question st
  ∧ emitted st' = emitted st.
Proof.
  unfold classify_objective_body. intros H.
  repeat (case_match; simplify_eq/=); auto.
Qed.

(** A reply out of the [try] block is the 400 of a missing answer, with
    nothing changed, or the 200 of a classification, with its record
    appended. *)
Lemma classify_objective_body_reply key sess req now st r st' :
  classify_objective_body requests_post key sess req now st = (inl r, st') →
  (r = error_reply "Missing required field 'answer'" 400 ∧ st' = st)
  ∨ (reply_status r = 200
     ∧ ∃ rec, user_responses st' = user_responses st ++ [rec]
              ∧ reply_body r = model_dump (classification rec)).
Proof.
  unfold classify_objective_body. intros H.
  repeat (case_match; simplify_eq/=); eauto.
Qed.

Lemma py_contains_raise data k e : py_contains data k = inr e → e = TypeError.
Proof. destruct data; simpl; congruence. Qed.

Lemma objective_raise data e :
  (let! objective := py_getitem data (py "answer") in
   let! _ := py_sliceable objective in ok objective) = inr e →
  e = TypeError ∨ e = KeyError.
Proof.
  unfold py_getitem, py_sliceable. intros H.
  repeat (case_match; simplify_eq/=); auto.
Qed.

(** The [try] block never raises a [ValidationError]: the service has
    turned each one into a [ValueError] or a [RuntimeError]. *)
Lemma classify_objective_body_raise_kind key sess req now st e st' :
  classify_objective_body requests_post key sess req now st = (inr e, st') →
  e ≠ ValidationError.
Proof.
  unfold classify_objective_body. intros H.
  repeat (case_match; simplify_eq/=); try done.
  - match goal with
    | H : classify_learning_objective _ _ _ _ _ _ = _ |- _ =>
        pose proof (classify_learning_objective_raise _ _ _ _ _ _ (f_equal fst H)) as [? _]
    end.
    done.
  - match goal with
    | H : bind _ _ = inr _ |- _ => destruct (objective_raise _ _ H) as [-> | ->]
    end; done.
  - match goal with
    | H : py_contains _ _ = inr _ |- _ => rewrite (py_contains_raise _ _ _ H)
    end.
    done.
Qed.

(** The status of a reply is 200, 400 or 500: the 422 branch is dead. *)
Lemma classify_objective_status key sess req now st :
  reply_status (fst (classify_objective requests_post key sess req now st)) ∈ [200; 400; 500].
Proof.
  unfold classify_objective.
  destruct key as [[|c k]|]; simpl; [set_solver| |set_solver].
  destruct (classify_objective_body _ _ _ _ _ _) as [[r|e] st'] eqn:Hb.
  - apply classify_objective_body_reply in Hb as [[-> _]|[Hr _]]; simpl;
      [|rewrite Hr]; set_solver.
  - apply classify_objective_body_raise_kind in Hb.
    destruct e; simpl; try done; set_solver.
Qed.

(** What a request posts, if it posts anything, is the payload built from the
    answer, the current question and the categories of the history. *)
Lemma classify_objective_posted key sess req now st :
  posted (snd (classify_objective requests_post key sess req now st)) = posted st
  ∨ ∃ objective payload k,
      key = Some k
      ∧ get_gemini_api_payload objective (current_question st)
          (existing_categories_of (user_responses st)) = ok payload
      ∧ posted (snd (classify_objective requests_post key sess req now st))
        = posted st ++ [(GEMINI_API_URL ++ py "?key=" ++ k, payload)].
Proof.
  unfold classify_objective.
  destruct key as [[|c k]|]; [by left| |by left].
  assert (∀ out st', classify_objective_body requests_post (c :: k) sess req now st = (out, st') →
            posted st' = posted st
            ∨ ∃ objective payload,
                get_gemini_api_payload objective (current_question st)
                  (existing_categories_of (user_responses st)) = ok payload
                ∧ posted st' = posted st ++ [(GEMINI_API_URL ++ py "?key=" ++ c :: k, payload)])
    as Hbody.
  { intros out st'. unfold classify_objective_body.
    destruct req as [data| |]; [|intros [= _ <-]; by left..].
    destruct (negb (truthy data)); [intros [= _ <-]; by left|].
    destruct (py_contains data (py "answer")) as [[]|]; try (intros [= _ <-]; by left).
    destruct (bind _ _) as [objective|]; [|intros [= _ <-]; by left].
    destruct (classify_learning_objective _ _ _ _ _ _) as [outcome sent] eqn:Hc.
    pose proof (classify_posts_at_most_one objective GEMINI_API_URL (c :: k)
                  (current_question st) (existing_categories_of (user_responses st))) as Hp.
    rewrite Hc in Hp. cbn [snd] in Hp.
    destruct Hp as [-> | (payload & Hpay & ->)].
    - destruct outcome; intros [= _ <-]; left; cbn [posted]; by rewrite app_nil_r.
    - destruct outcome; intros [= _ <-]; right; exists objective, payload; by split. }
  destruct (classify_objective_body _ _ _ _ _ _) as [out st'] eqn:Hb.
  destruct (Hbody _ _ eq_refl) as [Hp | (objective & payload & Hpay & Hp)].
  - left. by destruct out as [r|[]].
  - right. exists objective, payload, (c :: k). split; [done|]. split; [done|].
    by destruct out as [r|[]].
Qed.
End AppFacts.

(** ** C8: the administrative reset *)

(** C8. For every starting state, [handle_clear_data] called by a logged-in
    admin leaves the history empty, called a second time right after it
    leaves it empty again, and the second call changes nothing more of the
    two globals; the handler is a total function with no exception path. *)
Theorem handle_clear_data_idempotent (sess : session) (st : app_state) :
  logged_in sess = true →
  user_responses (handle_clear_data sess st) = []
  ∧ user_responses (handle_clear_data sess (handle_clear_data sess st)) = []
  ∧ current_question (handle_clear_data sess (handle_clear_data sess st)) = current_question st.
Proof.
  intros Hadmin. unfold handle_clear_data. rewrite Hadmin. simpl. auto.
Qed.


(** Without a login the handler does nothing. *)
Lemma handle_clear_data_not_logged_in sess st :
  logged_in sess = false → handle_clear_data sess st = st.
Proof. intros H. unfold handle_clear_data. by rewrite H. Qed.

(** ** C7: a failing request leaves the history as it was *)

(** C7. Whatever the provider answers, a classification request that does not
    end in the 200 reply leaves [user_responses] (and the question and the
    broadcast log) exactly as they were: no record is appended on a failure
    path. *)
Theorem history_unchanged_on_failure (requests_post : pystr → json → http_outcome)
    (key : option pystr) (sess : session) (req : get_json) (now : Z) (st : app_state) :
  reply_status (fst (classify_objective requests_post key sess req now st)) ≠ 200 →
  user_responses (snd (classify_objective requests_post key sess req now st)) = user_responses st
  ∧ current_question (snd (classify_objective requests_post key sess req now st)) = current_question st
  ∧ emitted (snd (classify_objective requests_post key sess req now st)) = emitted st.
Proof.
  unfold classify_objective.
  destruct key as [[|c k]|]; simpl; auto.
  destruct (classify_objective_body _ _ _ _ _ _) as [[r|e] st'] eqn:Hb.
  - apply classify_objective_body_reply in Hb as [[-> ->]|[Hr _]]; simpl; auto.
    intros []. exact Hr.
  - intros _. apply classify_objective_body_raise in Hb.
    destruct e; simpl; exact Hb.
Qed.

(** ** C1: requests without an answer text *)

Lemma state_eta st :
  mkState (user_responses st) (current_question st) (posted st ++ []) (emitted st) = st.
Proof. destruct st; simpl. by rewrite app_nil_r. Qed.

(** An answer that is not a text stops [get_gemini_api_payload]. *)
Lemma get_gemini_api_payload_not_text objective q cats :
  validate_str objective = None →
  get_gemini_api_payload objective q cats = raise (ValueError (py "Invalid objective format.")).
Proof. intros H. unfold get_gemini_api_payload, ClassificationRequest. by rewrite H. Qed.

Lemma classify_learning_objective_not_text requests_post objective url key q cats :
  validate_str objective = None →
  classify_learning_objective requests_post objective url key q cats
  = (raise (ValueError (py "Invalid objective format.")), []).
Proof.
  intros H. unfold classify_learning_objective.
  by rewrite get_gemini_api_payload_not_text.
Qed.

(** Any text, the empty one included, passes it. *)
Lemma get_gemini_api_payload_text a q cats :
  ∃ payload, get_gemini_api_payload (JStr a) q cats = ok payload.
Proof.
  assert (∃ schema, get_response_schema = ok schema) as [schema Hs]
    by (vm_compute; eauto).
  unfold get_gemini_api_payload. cbn [ClassificationRequest validate_str].
  rewrite Hs. cbn [bind]. eauto.
Qed.


(** C1, as amended. A request that carries no answer text ([get_json]
    raises, or the value it returns is not a dict whose [answer] is a [str])
    posts nothing to the provider and leaves the state as it was, and its
    reply is: without a key, the 500 of the missing configuration; for a
    value that counts as false or does not hold 'answer' (as a key of the
    dict, an element of the list, a part of the text), the 400 of the
    missing field; for a body nested beyond the recursion limit, the 500 of
    the [RuntimeError] clause; in every other case (no JSON body; a number
    or [true]; a list or a text that holds 'answer'; an [answer] that is not
    a text) the 500 with the generic message. And [get_gemini_api_payload]
    raises [ValueError('Invalid objective format.')] for every answer that
    is not a text. *)
Theorem request_without_answer_rejected (requests_post : pystr → json → http_outcome)
    (key : option pystr) (sess : session) (req : get_json) (now : Z) (st : app_state) :
  request_answer req = None →
  classify_objective requests_post key sess req now st = (reply_without_answer key req, st)
  ∧ ∀ objective question existing_categories,
      validate_str objective = None →
      get_gemini_api_payload objective question existing_categories
      = raise (ValueError (py "Invalid objective format.")).
Proof.
  intros Hna. split; [|intros; by apply get_gemini_api_payload_not_text].
  unfold classify_objective, reply_without_answer.
  destruct key as [[|c k]|]; [done| |done].
  unfold classify_objective_body, lacks_answer.
  destruct req as [data| |]; [|done..].
  destruct (truthy data) eqn:Ht; cbn [negb orb]; [|done].
  destruct data as [|b|z|f|s|items|members]; cbn [py_contains]; try done.
  - destruct (is_infix (py "answer") s); done.
  - destruct (existsb _ items); done.
  - cbn [request_answer] in Hna.
    destruct (dict_get (py "answer") members) as [objective|] eqn:Hget.
    + rewrite bool_decide_eq_true_2 by eauto. rewrite bool_decide_eq_false_2 by done.
      cbn [py_getitem]. rewrite Hget. cbn [bind].
      destruct objective; try done.
      cbn [py_sliceable bind].
      rewrite classify_learning_objective_not_text by done.
      by rewrite state_eta.
    + rewrite bool_decide_eq_false_2 by (by intros [? ?]).
      by rewrite bool_decide_eq_true_2.
Qed.

(** ** C2: how the failures of a request are told apart *)

(** The decoder raises its own error or the error of a limit. *)
Lemma json_loads_at_raise recursion s e :
  json_loads_at recursion s = raise e →
  e = JSONDecodeError ∨ e = RecursionError ∨ ∃ n, e = int_digits_error n.
Proof.
  unfold json_loads_at, json_loads. destruct (recursion s); [intros [= <-]; auto|].
  destruct (scan_once _ _) as [v r| |n|]; [destruct (skip_ws r)|..];
    intros [= <-]; eauto.
Qed.

(** What the walk of line 127 raises. *)
Lemma extract_text_raise data e :
  extract_text data = raise e →
  e = AttributeError ∨ e = IndexError ∨ e = KeyError ∨ e = TypeError.
Proof.
  assert (∀ v k dflt e, py_get v k dflt = raise e → e = AttributeError) as Hget.
  { intros v k dflt e'. destruct v; simpl; congruence. }
  assert (∀ v e, py_index0 v = raise e → e = IndexError ∨ e = KeyError ∨ e = TypeError)
    as Hidx.
  { intros v e'. destruct v as [| | | |[|]|[|]|]; simpl; intros [= <-]; auto. }
  unfold extract_text.
  destruct (py_get data _ _) as [candidates|e1] eqn:H1; cbn [bind].
  2:{ intros [= <-]. apply Hget in H1 as ->. auto. }
  destruct (py_index0 candidates) as [candidate|e2] eqn:H2; cbn [bind].
  2:{ intros [= <-]. apply Hidx in H2. tauto. }
  destruct (py_get candidate _ _) as [content|e3] eqn:H3; cbn [bind].
  2:{ intros [= <-]. apply Hget in H3 as ->. auto. }
  destruct (py_get content _ _) as [parts|e4] eqn:H4; cbn [bind].
  2:{ intros [= <-]. apply Hget in H4 as ->. auto. }
  destruct (py_index0 parts) as [part|e5] eqn:H5; cbn [bind].
  2:{ intros [= <-]. apply Hidx in H5. tauto. }
  intros H6. apply Hget in H6 as ->. auto.
Qed.

(** The only failure of the model is a [ValidationError]. *)
Lemma ClassificationResult_init_raise kwargs e :
  ClassificationResult_init kwargs = raise e → e = ValidationError.
Proof.
  unfold ClassificationResult_init. intros H.
  repeat (case_match; simplify_eq/=); done.
Qed.

Lemma int_digits_error_not_invalid n :
  int_digits_error n ≠ ValueError (py "Invalid objective format.").
Proof.
  unfold int_digits_error. intros H. discriminate H.
Qed.

Section ServiceFailures.
Variable requests_post : pystr → json → http_outcome.
Variables (objective : json) (api_url api_key question : pystr).
Variable existing_categories : list pystr.

Let outcome : result ClassificationResult :=
  fst (classify_learning_objective requests_post objective api_url api_key question
         existing_categories).
Let full_api_url : pystr := api_url ++ py "?key=" ++ api_key.

Lemma outcome_call_model payload :
  get_gemini_api_payload objective question existing_categories = ok payload →
  outcome = classify_except (call_model requests_post full_api_url payload).
Proof.
  intros Hp. unfold outcome, classify_learning_objective. by rewrite Hp.
Qed.

(** What [post_json] raises: the exception of requests, or the error of a
    limit that the decoder of the response has met. *)
Lemma post_json_raise payload e :
  post_json requests_post full_api_url payload = raise e →
  (∃ f, e = RequestException f) ∨ e = RecursionError ∨ ∃ n, e = int_digits_error n.
Proof.
  unfold post_json.
  destruct (requests_post _ _) as [|status body]; [intros [= <-]; eauto|].
  destruct (_ && _); [intros [= <-]; eauto|].
  destruct (json_loads_at _ body) as [v|e'] eqn:Hl; [done|].
  destruct (json_loads_at_raise _ _ _ Hl) as [->|[->|[n ->]]];
    intros [= <-]; eauto.
Qed.

(** A failed exchange with the provider. *)
Lemma communication_failure payload f :
  get_gemini_api_payload objective question existing_categories = ok payload →
  post_json requests_post full_api_url payload = raise (RequestException f) →
  outcome = raise (RuntimeError (py "Failed to communicate with the AI service: ") (Some f)).
Proof.
  intros Hp Hpost. rewrite (outcome_call_model _ Hp).
  unfold call_model. by rewrite Hpost.
Qed.

(** A limit of the interpreter met in the decoder of the response. *)
Lemma response_over_limit payload e :
  get_gemini_api_payload objective question existing_categories = ok payload →
  post_json requests_post full_api_url payload = raise e →
  (∀ f, e ≠ RequestException f) →
  outcome = raise e.
Proof.
  intros Hp Hpost Hf. rewrite (outcome_call_model _ Hp).
  unfold call_model. rewrite Hpost. cbn [bind].
  destruct (post_json_raise _ _ Hpost) as [[f ->]|[->|[n ->]]]; [by destruct (Hf f)|done..].
Qed.

(** An envelope that the walk of line 127 does not get through. *)
Lemma malformed_envelope payload data e :
  get_gemini_api_payload objective question existing_categories = ok payload →
  post_json requests_post full_api_url payload = ok data →
  extract_text data = raise e →
  outcome = raise e.
Proof.
  intros Hp Hpost Ht. rewrite (outcome_call_model _ Hp).
  unfold call_model. rewrite Hpost. cbn [bind]. rewrite Ht. cbn [bind].
  by destruct (extract_text_raise _ _ Ht) as [->|[->|[->| ->]]].
Qed.

(** No text, an empty text or the text of an empty object in the envelope. *)
Lemma empty_model_output payload data text :
  get_gemini_api_payload objective question existing_categories = ok payload →
  post_json requests_post full_api_url payload = ok data →
  extract_text data = ok text →
  negb (truthy text) || py_eq_str text (py "{}") = true →
  outcome = raise (RuntimeError
                     (py "AI model did not return valid classification content.") None).
Proof.
  intros Hp Hpost Ht He. rewrite (outcome_call_model _ Hp).
  unfold call_model. rewrite Hpost. cbn [bind]. rewrite Ht. cbn [bind]. by rewrite He.
Qed.

(** A text that counts as true and is not a [str]. *)
Lemma output_not_text payload data text :
  get_gemini_api_payload objective question existing_categories = ok payload →
  post_json requests_post full_api_url payload = ok data →
  extract_text data = ok text →
  truthy text = true →
  validate_str text = None →
  outcome = raise TypeError.
Proof.
  intros Hp Hpost Ht Htrue Hs. rewrite (outcome_call_model _ Hp).
  unfold call_model. rewrite Hpost. cbn [bind]. rewrite Ht. cbn [bind]. rewrite Htrue.
  by destruct text.
Qed.

(** A text that the decoder refuses. *)
Lemma malformed_model_output payload data text e :
  get_gemini_api_payload objective question existing_categories = ok payload →
  post_json requests_post full_api_url payload = ok data →
  extract_text data = ok (JStr text) →
  text ≠ [] → text ≠ py "{}" →
  json_loads_at (output_recursion python) text = raise e →
  outcome = raise e.
Proof.
  intros Hp Hpost Ht Hne Hnb Hl. rewrite (outcome_call_model _ Hp).
  unfold call_model. rewrite Hpost. cbn [bind]. rewrite Ht. cbn [bind].
  cbn [truthy py_eq_str]. rewrite !bool_decide_eq_false_2 by done.
  cbn [negb orb]. unfold parse_model_output. rewrite Hl. cbn [bind].
  destruct (json_loads_at_raise _ _ _ Hl) as [->|[->|[n ->]]]; done.
Qed.

(** A text whose value is not an object. *)
Lemma output_not_object payload data text v :
  get_gemini_api_payload objective question existing_categories = ok payload →
  post_json requests_post full_api_url payload = ok data →
  extract_text data = ok (JStr text) →
  text ≠ [] → text ≠ py "{}" →
  json_loads_at (output_recursion python) text = ok v →
  (∀ kwargs, v ≠ JObj kwargs) →
  outcome = raise TypeError.
Proof.
  intros Hp Hpost Ht Hne Hnb Hl Hv. rewrite (outcome_call_model _ Hp).
  unfold call_model. rewrite Hpost. cbn [bind]. rewrite Ht. cbn [bind].
  cbn [truthy py_eq_str]. rewrite !bool_decide_eq_false_2 by done.
  cbn [negb orb]. unfold parse_model_output. rewrite Hl. cbn [bind].
  destruct v; try done. by destruct (Hv members).
Qed.

(** A JSON object that the model [ClassificationResult] refuses. *)
Lemma schema_violation payload data text kwargs :
  get_gemini_api_payload objective question existing_categories = ok payload →
  post_json requests_post full_api_url payload = ok data →
  extract_text data = ok (JStr text) →
  text ≠ [] → text ≠ py "{}" →
  json_loads_at (output_recursion python) text = ok (JObj kwargs) →
  ClassificationResult_init kwargs = raise ValidationError →
  outcome = raise (RuntimeError (py "AI output failed schema validation.") None).
Proof.
  intros Hp Hpost Ht Hne Hnb Hl Hv. rewrite (outcome_call_model _ Hp).
  unfold call_model. rewrite Hpost. cbn [bind]. rewrite Ht. cbn [bind].
  cbn [truthy py_eq_str]. rewrite !bool_decide_eq_false_2 by done.
  cbn [negb orb]. unfold parse_model_output. rewrite Hl. cbn [bind]. by rewrite Hv.
Qed.

(** Every failure has one of these causes. *)
Lemma outcome_raise e :
  outcome = raise e →
  service_failure requests_post objective api_url api_key question existing_categories e.
Proof.
  unfold outcome, classify_learning_objective.
  destruct (get_gemini_api_payload objective question existing_categories)
    as [payload|e0] eqn:Hp; cbn [fst].
  2:{ revert Hp. unfold get_gemini_api_payload.
      destruct (ClassificationRequest objective) as [a|] eqn:Ha.
      - assert (∃ schema, get_response_schema = ok schema) as [schema ->]
          by (vm_compute; eauto).
        done.
      - intros [= <-] [= <-]. apply InvalidInput.
        unfold ClassificationRequest in Ha. by destruct (validate_str objective). }
  unfold call_model.
  destruct (post_json requests_post _ payload) as [data|e1] eqn:Hpost; cbn [bind].
  2:{ destruct (post_json_raise _ _ Hpost) as [[f ->]|[->|[n ->]]]; intros [= <-].
      - by eapply CommunicationFailure.
      - by eapply ResponseOverLimit.
      - by eapply ResponseOverLimit. }
  destruct (extract_text data) as [text|e2] eqn:Ht; cbn [bind].
  2:{ destruct (extract_text_raise _ _ Ht) as [->|[->|[->| ->]]]; intros [= <-];
        by eapply MalformedEnvelope. }
  destruct (negb (truthy text) || py_eq_str text (py "{}")) eqn:He.
  { intros [= <-]. by eapply EmptyModelOutput. }
  apply orb_false_iff in He as [Htrue Hbraces]. apply negb_false_iff in Htrue.
  unfold parse_model_output.
  destruct text as [| | | |text| |];
    try (intros [= <-]; by eapply OutputNotText).
  assert (text ≠ []) as Hne by (by intros ->).
  assert (text ≠ py "{}") as Hnb.
  { intros ->. cbn [py_eq_str] in Hbraces. by rewrite bool_decide_eq_true_2 in Hbraces. }
  destruct (json_loads_at _ text) as [v|e3] eqn:Hl; cbn [bind].
  2:{ destruct (json_loads_at_raise _ _ _ Hl) as [->|[->|[n ->]]]; intros [= <-];
        by eapply OutputNotDecoded. }
  destruct v as [| | | | | |kwargs];
    try (intros [= <-]; by eapply OutputNotObject).
  destruct (ClassificationResult_init kwargs) as [r|e4] eqn:Hi; [done|].
  apply ClassificationResult_init_raise in Hi as Hv. subst e4.
  intros [= <-]. by eapply SchemaViolation.
Qed.
End ServiceFailures.

(** A request with a text as its answer, served with a key: the reply that
    the handlers of lines 152 to 165 make of the outcome of the service. *)
Lemma classify_objective_endpoint (requests_post : pystr → json → http_outcome)
    k sess d a now st :
  k ≠ [] →
  dict_get (py "answer") d = Some (JStr a) →
  fst (classify_objective requests_post (Some k) sess (Returned (JObj d)) now st)
  = match fst (classify_learning_objective requests_post (JStr a) GEMINI_API_URL k
                 (current_question st) (existing_categories_of (user_responses st))) with
    | inl r => mkReply (model_dump r) 200
    | inr (RuntimeError _ _) | inr RecursionError =>
        error_reply "AI classification failed due to internal schema mismatch." 500
    | inr _ => error_reply "An internal server error occurred." 500
    end.
Proof.
  intros Hk Hd. unfold classify_objective, classify_objective_body.
  destruct k as [|c k]; [done|].
  assert (truthy (JObj d) = true) as -> by (by destruct d).
  cbn [negb py_contains py_getitem]. rewrite Hd.
  rewrite bool_decide_eq_true_2 by eauto.
  cbn [bind py_sliceable].
  destruct (classify_learning_objective _ _ _ _ _ _) as [[r|e] sent] eqn:Hc; cbn [fst].
  - done.
  - pose proof (classify_learning_objective_raise requests_post _ _ _ _ _ _
                  (f_equal fst Hc)) as [Hv _].
    by destruct e.
Qed.

(** C2, as amended. A call of [classify_learning_objective] fails with the
    exception [e] exactly when one of nine causes holds of which [e] is the
    exception ([service_failure]). The exceptions are these, and no two of
    them are equal: the [ValueError] of an answer that is not a text; the
    [RuntimeError] of a failed exchange with the provider, of an empty
    output and of an object that breaks the schema, three messages; and,
    passed on as they were raised, [AttributeError], [IndexError],
    [KeyError] and [TypeError] of the walk through the envelope and of a
    text or a value of another kind, [JSONDecodeError] of a text that is not
    JSON, and [RecursionError] and the [ValueError] of the digit limit from
    the decoder. For a request with a text answer the endpoint makes one
    reply of every [RuntimeError], [RecursionError] included, and one
    generic reply of every other exception. *)
Theorem failures_attributed_by_service (requests_post : pystr → json → http_outcome)
    (objective : json) (api_url api_key question : pystr) (existing_categories : list pystr)
    (e : exn) :
  let outcome := fst (classify_learning_objective requests_post objective api_url api_key
                        question existing_categories) in
  let invalid_input := ValueError (py "Invalid objective format.") in
  let communication f :=
    RuntimeError (py "Failed to communicate with the AI service: ") (Some f) in
  let empty_output :=
    RuntimeError (py "AI model did not return valid classification content.") None in
  let schema_violation := RuntimeError (py "AI output failed schema validation.") None in
  (outcome = raise e
   ↔ service_failure requests_post objective api_url api_key question existing_categories e)
  ∧ (outcome = raise e →
     e = invalid_input ∨ (∃ f, e = communication f) ∨ e = empty_output
     ∨ e = schema_violation
     ∨ e = AttributeError ∨ e = IndexError ∨ e = KeyError ∨ e = TypeError
     ∨ e = JSONDecodeError ∨ e = RecursionError ∨ ∃ n, e = int_digits_error n)
  ∧ (∀ f n,
       NoDup [invalid_input; communication f; empty_output; schema_violation;
              AttributeError; IndexError; KeyError; TypeError;
              JSONDecodeError; RecursionError; int_digits_error n])
  ∧ (∀ k sess d a now st,
       k ≠ [] → dict_get (py "answer") d = Some (JStr a) →
       fst (classify_objective requests_post (Some k) sess (Returned (JObj d)) now st)
       = match fst (classify_learning_objective requests_post (JStr a) GEMINI_API_URL k
                      (current_question st) (existing_categories_of (user_responses st))) with
         | inl r => mkReply (model_dump r) 200
         | inr (RuntimeError _ _) | inr RecursionError =>
             error_reply "AI classification failed due to internal schema mismatch." 500
         | inr _ => error_reply "An internal server error occurred." 500
         end).
Proof.
  cbv zeta. split_and!.
  - split; [apply outcome_raise|].
    intros [H|payload f Hp H|payload e' Hp H Hf|payload data e' Hp H Ht
            |payload data text Hp H Ht He|payload data text Hp H Ht Htrue Hs
            |payload data text e' Hp H Ht Hne Hnb Hl|payload data text v Hp H Ht Hne Hnb Hl Hv
            |payload data text kwargs Hp H Ht Hne Hnb Hl Hv].
    + by rewrite classify_learning_objective_not_text.
    + by eapply communication_failure.
    + by eapply response_over_limit.
    + by eapply malformed_envelope.
    + by eapply empty_model_output.
    + by eapply output_not_text.
    + by eapply malformed_model_output.
    + by eapply output_not_object.
    + by eapply schema_violation.
  - intros H. apply outcome_raise in H.
    destruct H as [H|payload f Hp H|payload e' Hp H Hf|payload data e' Hp H Ht
            |payload data text Hp H Ht He|payload data text Hp H Ht Htrue Hs
            |payload data text e' Hp H Ht Hne Hnb Hl|payload data text v Hp H Ht Hne Hnb Hl Hv
            |payload data text kwargs Hp H Ht Hne Hnb Hl Hv]; eauto 12.
    + destruct (post_json_raise _ _ _ _ _ H) as [[f ->]|[->|[n ->]]];
        [by destruct (Hf f)|eauto 12..].
    + destruct (extract_text_raise _ _ Ht) as [->|[->|[->| ->]]]; eauto 12.
    + destruct (json_loads_at_raise _ _ _ Hl) as [->|[->|[n ->]]]; eauto 12.
  - intros f n. pose proof (int_digits_error_not_invalid n) as Hn.
    unfold int_digits_error in *.
    repeat (apply NoDup_cons; split;
            [rewrite ?elem_of_cons, elem_of_nil; intros H;
             repeat (destruct H as [H|H]; [try discriminate H; try by (symmetry in H)|]);
             done|]).
    apply NoDup_nil_2.
  - intros. by apply classify_objective_endpoint.
Qed.

(** ** C3 and C4: the model [ClassificationResult] as the validator *)

(** What the model accepts, field by field: the three keys are present, the
    two text fields hold texts, which are kept as they are, and
    [confidenceScore] holds a number, a boolean or a text that reads as a
    float, whose value lies within the bounds. *)
Lemma ClassificationResult_init_ok kwargs r :
  ClassificationResult_init kwargs = ok r ↔
  dict_get (py "primaryDomain") kwargs = Some (JStr (primaryDomain r))
  ∧ dict_get (py "justification") kwargs = Some (JStr (justification r))
  ∧ ∃ v, dict_get (py "confidenceScore") kwargs = Some v
         ∧ validate_float v = Some (confidenceScore r)
         ∧ float_ge_zero (confidenceScore r) = true
         ∧ float_le_one (confidenceScore r) = true.
Proof.
  unfold ClassificationResult_init. split.
  - intros H.
    destruct (dict_get (py "primaryDomain") kwargs) as [[]|]; simplify_eq/=.
    destruct (dict_get (py "confidenceScore") kwargs) as [v|]; simplify_eq/=.
    destruct (validate_float v) as [c|] eqn:Hv; simplify_eq/=.
    destruct (dict_get (py "justification") kwargs) as [[]|]; simplify_eq/=.
    destruct (float_ge_zero c) eqn:Hge; simplify_eq/=.
    destruct (float_le_one c) eqn:Hle; simplify_eq/=.
    eauto 10.
  - intros (-> & -> & v & -> & Hv & Hge & Hle). simpl.
    rewrite Hv, Hge, Hle. by destruct r.
Qed.



(** C3, as amended. The validator never fills in a missing field and never
    converts a value into a text: when one of the three fields is missing,
    when [primaryDomain] or [justification] holds anything but a text, or when
    [confidenceScore] holds null, a list, an object or a text that does not
    read as a float, the model raises [ValidationError]. (A number-like text
    or a boolean given for [confidenceScore] is converted, as pydantic does
    by default.) *)
Theorem validator_fails_closed (kwargs : list (pystr * json)) :
  (dict_get (py "primaryDomain") kwargs = None
   ∨ dict_get (py "confidenceScore") kwargs = None
   ∨ dict_get (py "justification") kwargs = None
   ∨ (∃ v, dict_get (py "primaryDomain") kwargs = Some v ∧ ∀ s, v ≠ JStr s)
   ∨ (∃ v, dict_get (py "justification") kwargs = Some v ∧ ∀ s, v ≠ JStr s)
   ∨ (∃ v, dict_get (py "confidenceScore") kwargs = Some v
           ∧ match v with
             | JNull | JArr _ | JObj _ => True
             | JStr s => str_as_float s = None
             | _ => False
             end)) →
  ClassificationResult_init kwargs = raise ValidationError.
Proof.
  intros H.
  destruct (ClassificationResult_init kwargs) as [r|e] eqn:Hinit;
    [|by apply ClassificationResult_init_raise in Hinit as ->].
  exfalso. apply ClassificationResult_init_ok in Hinit
    as (Hd & Hj & v & Hc & Hv & _ & _).
  destruct H as [H|[H|[H|[(v' & H & Hn)|[(v' & H & Hn)|(v' & H & Hn)]]]]];
    simplify_eq; try by eapply Hn.
  destruct v'; simplify_eq/=; done.
Qed.

(** *** What the decoder accepts is in the grammar *)

Lemma skip_ws_split s : ∃ w, s = w ++ skip_ws s ∧ json_ws w.
Proof.
  induction s as [|c s (w & Hs & Hw)]; [exists []; split; [done|constructor]|].
  cbn [skip_ws]. destruct (is_ws c) eqn:Hc.
  - exists (c :: w). split; [by rewrite Hs at 1|by constructor].
  - exists []. split; [done|constructor].
Qed.

Lemma skip_ws_nil s : skip_ws s = [] → json_ws s.
Proof.
  intros H. destruct (skip_ws_split s) as (w & Hs & Hw).
  rewrite H, app_nil_r in Hs. by subst.
Qed.

Lemma span_digits_split s ds r :
  span_digits s = (ds, r) → s = ds ++ r ∧ json_digits ds.
Proof.
  revert ds r. induction s as [|c s IH]; intros ds r H; simplify_eq/=.
  { split; [done|constructor]. }
  destruct (is_digit c) eqn:Hc; simplify_eq/=; [|split; [done|constructor]].
  destruct (span_digits s) as [ds' r'] eqn:Hs. simplify_eq/=.
  destruct (IH _ _ eq_refl) as [-> Hd]. split; [done|by constructor].
Qed.

Lemma strip_prefix_split p s r : strip_prefix p s = Some r → s = p ++ r.
Proof.
  revert s. induction p as [|a p IH]; intros [|b s] H; simplify_eq/=; try done.
  destruct (a =? b) eqn:Hab; [|done]. apply N.eqb_eq in Hab as ->.
  by rewrite (IH _ H).
Qed.

Lemma hex_value_is_hex c n : hex_value c = Some n → is_hex c = true.
Proof.
  unfold hex_value, is_hex, is_digit.
  destruct ((48 <=? c) && (c <=? 57)); [done|].
  destruct ((97 <=? c) && (c <=? 102)); [done|].
  destruct ((65 <=? c) && (c <=? 70)); done.
Qed.

Lemma hex4_value_is_hex h1 h2 h3 h4 n :
  hex4_value h1 h2 h3 h4 = Some n →
  is_hex h1 = true ∧ is_hex h2 = true ∧ is_hex h3 = true ∧ is_hex h4 = true.
Proof.
  unfold hex4_value.
  destruct (hex_value h1) eqn:H1; [|done]. destruct (hex_value h2) eqn:H2; [|done].
  destruct (hex_value h3) eqn:H3; [|done]. destruct (hex_value h4) eqn:H4; [|done].
  intros _. split_and!; by eapply hex_value_is_hex.
Qed.

Lemma simple_escape_char e ch :
  simple_escape e = Some ch → e ∈ [34; 92; 47; 98; 102; 110; 114; 116].
Proof.
  unfold simple_escape. rewrite !elem_of_cons.
  repeat match goal with
         | |- context [e =? ?n] =>
             destruct (N.eqb_spec e n); [subst; intros _; tauto|]
         end.
  done.
Qed.

Lemma cons_char_split c o x r :
  cons_char c o = Some (x, r) → ∃ y, o = Some (y, r).
Proof. destruct o as [[y r']|]; intros; simplify_eq/=. eauto. Qed.

(** A string that was scanned: its characters and the closing quote. *)
Lemma scanstring_split n :
  ∀ s x r, (length s ≤ n)%nat → scanstring s = Some (x, r) →
           ∃ b, s = b ++ 34 :: r ∧ json_chars b.
Proof.
  induction n as [|n IH]; intros s x r Hn.
  { destruct s; [done|simpl in Hn; lia]. }
  destruct s as [|c s]; [done|]. cbn [scanstring].
  destruct (N.eqb_spec c 34) as [->|Hq].
  { intros [= _ <-]. exists []. split; [done|constructor]. }
  destruct (N.eqb_spec c 92) as [->|Hb].
  - destruct s as [|e s1]; [done|].
    destruct (N.eqb_spec e 117) as [->|He].
    + destruct s1 as [|h1 [|h2 [|h3 [|h4 s2]]]]; try done.
      destruct (hex4_value h1 h2 h3 h4) as [uni|] eqn:Hh; [|done].
      apply hex4_value_is_hex in Hh as (Hh1 & Hh2 & Hh3 & Hh4).
      assert (∀ o, cons_char uni o = Some (x, r) → o = scanstring s2 →
                   ∃ b, 92 :: 117 :: h1 :: h2 :: h3 :: h4 :: s2 = b ++ 34 :: r
                        ∧ json_chars b) as Hs2.
      { intros o Ho ->. apply cons_char_split in Ho as [y Hy].
        apply IH in Hy as (b & -> & Hb'); [|simpl in *; lia].
        exists (92 :: 117 :: h1 :: h2 :: h3 :: h4 :: b). split; [done|by constructor]. }
      destruct (is_high_surrogate uni); [|by eauto].
      destruct s2 as [|b [|u [|g1 [|g2 [|g3 [|g4 s3]]]]]]; try by eauto.
      destruct ((b =? 92) && (u =? 117) && match s3 with [] => false | _ => true end)
        eqn:Hbu; [|by eauto].
      destruct (hex4_value g1 g2 g3 g4) as [uni2|] eqn:Hg; [|done].
      destruct (is_low_surrogate uni2); [|by eauto].
      apply andb_true_iff in Hbu as [Hbu _]. apply andb_true_iff in Hbu as [Hb' Hu].
      apply N.eqb_eq in Hb' as ->. apply N.eqb_eq in Hu as ->.
      apply hex4_value_is_hex in Hg as (Hg1 & Hg2 & Hg3 & Hg4).
      intros Ho. apply cons_char_split in Ho as [y Hy].
      apply IH in Hy as (b & -> & Hb'); [|simpl in *; lia].
      exists (92 :: 117 :: h1 :: h2 :: h3 :: h4 :: 92 :: 117 :: g1 :: g2 :: g3 :: g4 :: b).
      split; [done|by repeat constructor].
    + destruct (simple_escape e) as [ch|] eqn:Hch; [|done].
      apply simple_escape_char in Hch.
      intros Ho. apply cons_char_split in Ho as [y Hy].
      apply IH in Hy as (b & -> & Hb'); [|simpl in *; lia].
      exists (92 :: e :: b). split; [done|by constructor].
  - destruct (N.leb_spec c 31) as [|Hc]; [done|].
    intros Ho. apply cons_char_split in Ho as [y Hy].
    apply IH in Hy as (b & -> & Hb'); [|simpl in *; lia].
    exists (c :: b). split; [done|constructor; [lia|done..]].
Qed.

(** A number that was matched is a number of the grammar. *)
Lemma match_number_split s v r :
  match_number s = Some (v, r) → ∃ lit, s = lit ++ r ∧ json_number lit.
Proof.
  unfold match_number.
  set (signed := match s with
                 | c :: r0 => if c =? 45 then (true, r0) else (false, s)
                 | [] => (false, s)
                 end).
  assert (∃ sign, s = sign ++ signed.2 ∧ (sign = [] ∨ sign = [45])) as (sign & Hs & Hsign).
  { unfold signed. destruct s as [|c s0]; [by exists []; auto|].
    destruct (N.eqb_spec c 45) as [->|]; [exists [45]|exists []]; auto. }
  destruct signed as [neg s1]. cbn [snd] in Hs.
  set (int_part := match s1 with
                   | c :: r0 =>
                       if (49 <=? c) && (c <=? 57) then Some (span_digits s1)
                       else if c =? 48 then Some ([48], r0)
                       else None
                   | [] => None
                   end).
  assert (∀ ds s2, int_part = Some (ds, s2) →
            s1 = ds ++ s2
            ∧ (ds = [48] ∨ ∃ d ds', ds = d :: ds' ∧ 49 <= d <= 57 ∧ json_digits ds'))
    as Hint.
  { intros ds s2. unfold int_part. destruct s1 as [|c s0]; [done|].
    destruct ((49 <=? c) && (c <=? 57)) eqn:Hc.
    - intros [= Hsp]. apply andb_true_iff in Hc as [H1 H2].
      apply N.leb_le in H1, H2.
      destruct (span_digits_split (c :: s0) ds s2 Hsp) as [Heq Hd].
      cbn [span_digits] in Hsp.
      assert (is_digit c = true) as Hdc.
      { unfold is_digit. apply andb_true_iff. split; apply N.leb_le; lia. }
      rewrite Hdc in Hsp. destruct (span_digits s0) as [ds' r'] eqn:Hs0.
      simplify_eq/=. split; [done|]. right. exists c, ds'.
      split_and!; [done|lia|lia|by inversion Hd].
    - destruct (N.eqb_spec c 48) as [->|]; [|done]. intros [= <- <-]. auto. }
  destruct int_part as [[ds s2]|]; [|done].
  destruct (Hint ds s2 eq_refl) as [Hs1 Hds]. clear Hint.
  set (frac := match s2 with
               | dot :: d :: _ =>
                   if (dot =? 46) && is_digit d then span_digits (tl s2) else ([], s2)
               | _ => ([], s2)
               end).
  assert (∃ fr, s2 = fr ++ frac.2
                ∧ (fr = [] ∨ ∃ d fs, fr = 46 :: d :: fs ∧ json_digits (d :: fs)))
    as (fr & Hs2 & Hfr).
  { unfold frac. destruct s2 as [|dot [|d s0]]; try (by exists []; auto).
    destruct ((dot =? 46) && is_digit d) eqn:Hdot; [|by exists []; auto].
    apply andb_true_iff in Hdot as [Hdot Hd]. apply N.eqb_eq in Hdot as ->.
    cbn [tl]. destruct (span_digits (d :: s0)) as [fs r0] eqn:Hsp.
    destruct (span_digits_split _ _ _ Hsp) as [Heq Hfs].
    cbn [span_digits] in Hsp. rewrite Hd in Hsp.
    destruct (span_digits s0) as [fs' r'] eqn:Hs0. simplify_eq/=.
    exists (46 :: d :: fs'). split; [done|]. right. eauto. }
  destruct frac as [fs s3]. cbn [snd] in Hs2.
  set (expo := match s3 with
               | e :: r0 =>
                   if (e =? 101) || (e =? 69) then
                     let '(eneg, r1) := match r0 with
                                        | sg :: r' => if sg =? 45 then (true, r')
                                                      else if sg =? 43 then (false, r')
                                                      else (false, r0)
                                        | [] => (false, r0)
                                        end in
                     let '(es, r2) := span_digits r1 in
                     match es with
                     | [] => (None, s3)
                     | _ => (Some (if eneg then - digits_value es else digits_value es)%Z, r2)
                     end
                   else (None, s3)
               | [] => (None, s3)
               end).
  assert (∃ ex, s3 = ex ++ expo.2
                ∧ (ex = [] ∨ ∃ e sg d es, ex = e :: sg ++ d :: es
                                         ∧ (e = 101 ∨ e = 69)
                                         ∧ (sg = [] ∨ sg = [43] ∨ sg = [45])
                                         ∧ json_digits (d :: es)))
    as (ex & Hs3 & Hex).
  { unfold expo. destruct s3 as [|e r0]; [by exists []; auto|].
    destruct ((e =? 101) || (e =? 69)) eqn:He; [|by exists []; auto].
    assert (e = 101 ∨ e = 69) as He'.
    { apply orb_true_iff in He as [He|He]; apply N.eqb_eq in He; auto. }
    set (sg := match r0 with
               | sg :: r' => if sg =? 45 then (true, r')
                             else if sg =? 43 then (false, r') else (false, r0)
               | [] => (false, r0)
               end).
    assert (∃ sgn, r0 = sgn ++ sg.2 ∧ (sgn = [] ∨ sgn = [43] ∨ sgn = [45]))
      as (sgn & Hr0 & Hsgn).
    { unfold sg. destruct r0 as [|c r']; [by exists []; auto|].
      destruct (N.eqb_spec c 45) as [->|]; [exists [45]; auto|].
      destruct (N.eqb_spec c 43) as [->|]; [exists [43]; auto|exists []; auto]. }
    destruct sg as [eneg r1]. cbn [snd] in Hr0.
    destruct (span_digits r1) as [es r2] eqn:Hsp.
    destruct (span_digits_split _ _ _ Hsp) as [Hr1 Hes].
    destruct es as [|d es]; [by exists []; auto|].
    cbn [snd]. exists (e :: sgn ++ d :: es). split.
    - rewrite Hr0, Hr1. simpl. by rewrite <- app_assoc.
    - right. exists e, sgn, d, es. done. }
  destruct expo as [exv s4]. cbn [snd] in Hs3.
  assert (s = (sign ++ ds ++ fr ++ ex) ++ s4) as Heq.
  { rewrite Hs, Hs1, Hs2, Hs3. by rewrite <- !app_assoc. }
  assert (json_number (sign ++ ds ++ fr ++ ex)) as Hnum by (by constructor).
  destruct fs, exv; intros [= _ <-]; eauto.
Qed.

Lemma scan_atom_split s v r :
  scan_atom s = Scanned v r → ∃ lit, s = lit ++ r ∧ json_value true lit.
Proof.
  unfold scan_atom.
  repeat match goal with
         | |- context [strip_prefix ?p s] =>
             let H := fresh in
             destruct (strip_prefix p s) eqn:H;
               [apply strip_prefix_split in H; intros [= _ <-];
                eexists; split; [exact H|by constructor]|clear H]
         end.
  destruct (match_number s) as [[v' r']|] eqn:Hn; [|done].
  apply match_number_split in Hn as (lit & -> & Hlit).
  assert (json_value true lit) by (by constructor).
  destruct v'; try (intros [= _ <-]; by eauto).
  destruct (over_digit_limit _); [done|]. intros [= _ <-]; by eauto.
Qed.

Local Ltac app_norm :=
  repeat first [rewrite <- app_assoc | progress cbn [app]]; done.

Lemma scan_split f :
  (∀ s v r, scan_once f s = Scanned v r → ∃ lit, s = lit ++ r ∧ json_value true lit)
  ∧ (∀ s acc v r, parse_items f s acc = Scanned v r →
                  ∃ lit, s = lit ++ r ∧ json_elements true lit)
  ∧ (∀ s acc v r, parse_members f s acc = Scanned v r →
                  ∃ lit, s = lit ++ r ∧ json_members true lit).
Proof.
  induction f as [|f (IHv & IHi & IHm)]; [split_and!; intros; discriminate|].
  split_and!.
  - intros s v r. cbn [scan_once].
    destruct s as [|c s]; [done|].
    destruct (N.eqb_spec c 34) as [->|_].
    { destruct (scanstring s) as [[str r']|] eqn:Hs; [|done].
      intros [= _ <-]. apply (scanstring_split _ _ _ _ (le_n _)) in Hs as (b & -> & Hb).
      exists (34 :: b ++ [34]). split; [app_norm|by constructor]. }
    destruct (skip_ws_split s) as (w & Hs & Hw).
    destruct (N.eqb_spec c 123) as [->|_].
    { destruct (skip_ws s) as [|c' r'] eqn:Hsk; [done|].
      destruct (N.eqb_spec c' 125) as [->|_].
      - intros [= _ <-]. exists (123 :: w ++ [125]).
        split; [rewrite Hs; app_norm|by constructor].
      - intros H. apply IHm in H as (lit & Hlit & Hm).
        exists (123 :: w ++ lit). split; [|by constructor].
        rewrite Hs, Hlit. app_norm. }
    destruct (N.eqb_spec c 91) as [->|_].
    { destruct (skip_ws s) as [|c' r'] eqn:Hsk; [done|].
      destruct (N.eqb_spec c' 93) as [->|_].
      - intros [= _ <-]. exists (91 :: w ++ [93]).
        split; [rewrite Hs; app_norm|by constructor].
      - intros H. apply IHi in H as (lit & Hlit & Hm).
        exists (91 :: w ++ lit). split; [|by constructor].
        rewrite Hs, Hlit. app_norm. }
    apply scan_atom_split.
  - intros s acc v r. cbn [parse_items].
    destruct (scan_once f s) as [v' r'| | |] eqn:Hv; try done.
    apply IHv in Hv as (lit & -> & Hlit).
    destruct (skip_ws_split r') as (w & Hr' & Hw).
    destruct (skip_ws r') as [|c r1]; [done|].
    destruct (N.eqb_spec c 93) as [->|_].
    { intros [= _ <-]. exists (lit ++ w ++ [93]).
      split; [rewrite Hr'; app_norm|by constructor]. }
    destruct (N.eqb_spec c 44) as [->|_]; [|done].
    intros H. apply IHi in H as (els & Hels & Hi).
    destruct (skip_ws_split r1) as (w1 & Hr1 & Hw1).
    exists (lit ++ w ++ 44 :: w1 ++ els). split; [|by constructor].
    rewrite Hr', Hr1, Hels. app_norm.
  - intros s acc v r. cbn [parse_members].
    destruct s as [|q s]; [done|].
    destruct (N.eqb_spec q 34) as [->|_]; [|done].
    destruct (scanstring s) as [[key r1]|] eqn:Hk; [|done].
    apply (scanstring_split _ _ _ _ (le_n _)) in Hk as (k & -> & Hk).
    destruct (skip_ws_split r1) as (w & Hr1 & Hw).
    destruct (skip_ws r1) as [|colon r2]; [done|].
    destruct (N.eqb_spec colon 58) as [->|_]; [|done].
    destruct (skip_ws_split r2) as (w1 & Hr2 & Hw1).
    destruct (scan_once f (skip_ws r2)) as [v' r3| | |] eqn:Hv; try done.
    apply IHv in Hv as (lit & Hlit & Hv).
    destruct (skip_ws_split r3) as (w2 & Hr3 & Hw2).
    destruct (skip_ws r3) as [|c r4]; [done|].
    destruct (N.eqb_spec c 125) as [->|_].
    { intros [= _ <-]. exists (34 :: k ++ 34 :: w ++ 58 :: w1 ++ lit ++ w2 ++ [125]).
      split; [|by constructor].
      rewrite Hr1, Hr2, Hlit, Hr3. app_norm. }
    destruct (N.eqb_spec c 44) as [->|_]; [|done].
    intros H. apply IHm in H as (ms & Hms & Hm).
    destruct (skip_ws_split r4) as (w3 & Hr4 & Hw3).
    exists (34 :: k ++ 34 :: w ++ 58 :: w1 ++ lit ++ w2 ++ 44 :: w3 ++ ms).
    split; [|by constructor].
    rewrite Hr1, Hr2, Hlit, Hr3, Hr4, Hms. app_norm.
Qed.

(** Every text that [json.loads] reads is a text of the grammar of JSON with
    the three constants. *)
Lemma json_loads_ok_text s v : json_loads s = ok v → json_text true s.
Proof.
  unfold json_loads. destruct (skip_ws_split s) as (w & Hs & Hw).
  destruct (scan_once _ (skip_ws s)) as [v' r| | |] eqn:Hv; try done.
  apply scan_split in Hv as (lit & Hlit & Hval).
  destruct (skip_ws r) eqn:Hr; [|done]. intros _.
  exists w, lit, r. split_and!; [by rewrite Hs, Hlit|done..|by apply skip_ws_nil].
Qed.

(** *** A test that the texts of the grammar pass *)

Lemma json_bare_char_not_quote k c : json_bare_char k c = true → (c =? 34) = false.
Proof.
  destruct (N.eqb_spec c 34) as [->|]; [|done]. by destruct k; vm_compute.
Qed.

Lemma bare_characters_plain k l rest :
  forallb (json_bare_char k) l = true →
  bare_characters k Bare (l ++ rest) = bare_characters k Bare rest.
Proof.
  induction l as [|c l IH]; [done|]. cbn [forallb app bare_characters].
  intros [Hc Hl]%andb_true_iff. rewrite (json_bare_char_not_quote _ _ Hc), Hc.
  by apply IH.
Qed.

Lemma json_ws_bare k w : json_ws w → forallb (json_bare_char k) w = true.
Proof.
  induction 1 as [|c w Hc _ IH]; [done|]. cbn [forallb]. rewrite IH.
  unfold json_bare_char. by rewrite Hc.
Qed.

Lemma json_digits_bare k ds : json_digits ds → forallb (json_bare_char k) ds = true.
Proof.
  induction 1 as [|c w Hc _ IH]; [done|]. cbn [forallb]. rewrite IH.
  unfold json_bare_char. rewrite Hc. by rewrite orb_true_r.
Qed.

Lemma json_number_bare k lit : json_number lit → forallb (json_bare_char k) lit = true.
Proof.
  intros [sign int frac exp Hsign Hint Hfrac Hexp].
  rewrite !forallb_app. repeat (apply andb_true_iff; split).
  - by destruct Hsign as [-> | ->]; vm_compute.
  - destruct Hint as [->|(d & ds & -> & Hd & Hds)]; [by vm_compute|].
    cbn [forallb]. rewrite (json_digits_bare _ _ Hds), andb_true_r.
    unfold json_bare_char, is_digit.
    replace (48 <=? d) with true by (symmetry; apply N.leb_le; lia).
    replace (d <=? 57) with true by (symmetry; apply N.leb_le; lia).
    by rewrite orb_true_r.
  - destruct Hfrac as [->|(d & ds & -> & Hds)]; [done|].
    change (forallb (json_bare_char k) (46 :: d :: ds))
      with (json_bare_char k 46 && forallb (json_bare_char k) (d :: ds)).
    rewrite (json_digits_bare _ _ Hds). by vm_compute.
  - destruct Hexp as [->|(e & sg & d & ds & -> & He & Hsg & Hds)]; [done|].
    cbn [forallb]. rewrite forallb_app, (json_digits_bare _ _ Hds), !andb_true_r.
    apply andb_true_iff. split.
    + by destruct He as [-> | ->]; vm_compute.
    + by destruct Hsg as [->|[->| ->]]; vm_compute.
Qed.

Lemma is_hex_plain h : is_hex h = true → (h =? 34) = false ∧ (h =? 92) = false.
Proof.
  intros H. split.
  - destruct (N.eqb_spec h 34) as [->|]; [by vm_compute in H|done].
  - destruct (N.eqb_spec h 92) as [->|]; [by vm_compute in H|done].
Qed.

(** The characters of a string and its closing quote lead back out of it. *)
Lemma bare_characters_chars k b rest :
  json_chars b →
  bare_characters k InString (b ++ 34 :: rest) = bare_characters k Bare rest.
Proof.
  induction 1 as [|c b Hc Hq Hb _ IH|e b He _ IH|h1 h2 h3 h4 b H1 H2 H3 H4 _ IH].
  - done.
  - cbn [app bare_characters].
    destruct (N.eqb_spec c 34); [done|]. destruct (N.eqb_spec c 92); [done|]. exact IH.
  - exact IH.
  - cbn [app bare_characters].
    destruct (is_hex_plain _ H1) as [-> ->]. destruct (is_hex_plain _ H2) as [-> ->].
    destruct (is_hex_plain _ H3) as [-> ->]. destruct (is_hex_plain _ H4) as [-> ->].
    exact IH.
Qed.

Lemma bare_characters_grammar k :
  (∀ lit, json_value k lit →
          ∀ rest, bare_characters k Bare (lit ++ rest) = bare_characters k Bare rest)
  ∧ (∀ lit, json_elements k lit →
            ∀ rest, bare_characters k Bare (lit ++ rest) = bare_characters k Bare rest)
  ∧ (∀ lit, json_members k lit →
            ∀ rest, bare_characters k Bare (lit ++ rest) = bare_characters k Bare rest).
Proof.
  assert (∀ c rest, json_bare_char k c = true →
            bare_characters k Bare (c :: rest) = bare_characters k Bare rest) as Hone.
  { intros c rest Hc. by apply (bare_characters_plain k [c]); cbn [forallb]; rewrite Hc. }
  assert (∀ w rest, json_ws w →
            bare_characters k Bare (w ++ rest) = bare_characters k Bare rest) as Hws.
  { intros w rest Hw. by apply bare_characters_plain, json_ws_bare. }
  assert (∀ b rest, json_chars b →
            bare_characters k Bare (34 :: b ++ 34 :: rest) = bare_characters k Bare rest)
    as Hstr.
  { intros b rest Hb. cbn [bare_characters]. by apply bare_characters_chars. }
  apply json_grammar_ind.
  - intros rest. by apply bare_characters_plain; vm_compute.
  - intros rest. by apply bare_characters_plain; vm_compute.
  - intros rest. by apply bare_characters_plain; vm_compute.
  - intros -> rest. by apply bare_characters_plain; vm_compute.
  - intros -> rest. by apply bare_characters_plain; vm_compute.
  - intros -> rest. by apply bare_characters_plain; vm_compute.
  - intros lit Hlit rest. by apply bare_characters_plain, json_number_bare.
  - intros b Hb rest. rewrite <- app_comm_cons, <- app_assoc. by apply Hstr.
  - intros w Hw rest. rewrite <- app_comm_cons, <- app_assoc.
    rewrite Hone by (by vm_compute). rewrite Hws by done.
    by apply Hone; vm_compute.
  - intros w els Hw _ IH rest. rewrite <- app_comm_cons, <- app_assoc.
    rewrite Hone by (by vm_compute). rewrite Hws by done. apply IH.
  - intros w Hw rest. rewrite <- app_comm_cons, <- app_assoc.
    rewrite Hone by (by vm_compute). rewrite Hws by done.
    by apply Hone; vm_compute.
  - intros w ms Hw _ IH rest. rewrite <- app_comm_cons, <- app_assoc.
    rewrite Hone by (by vm_compute). rewrite Hws by done. apply IH.
  - intros v w _ IH Hw rest. rewrite <- !app_assoc. rewrite IH, Hws by done.
    by apply Hone; vm_compute.
  - intros v w w1 els _ IHv Hw Hw1 _ IH rest. rewrite <- !app_assoc.
    rewrite IHv, Hws by done. rewrite <- app_comm_cons.
    rewrite Hone by (by vm_compute). rewrite <- app_assoc, Hws by done. apply IH.
  - intros key w w1 v w2 Hk Hw Hw1 _ IHv Hw2 rest.
    rewrite <- app_comm_cons, <- app_assoc, <- app_comm_cons, Hstr by done.
    rewrite <- app_assoc, Hws by done.
    rewrite <- app_comm_cons, Hone by (by vm_compute).
    rewrite <- app_assoc, Hws by done. rewrite <- app_assoc, IHv.
    rewrite <- app_assoc, Hws by done. by apply Hone; vm_compute.
  - intros key w w1 v w2 w3 ms Hk Hw Hw1 _ IHv Hw2 Hw3 _ IH rest.
    rewrite <- app_comm_cons, <- app_assoc, <- app_comm_cons, Hstr by done.
    rewrite <- app_assoc, Hws by done.
    rewrite <- app_comm_cons, Hone by (by vm_compute).
    rewrite <- app_assoc, Hws by done. rewrite <- app_assoc, IHv.
    rewrite <- app_assoc, Hws by done.
    rewrite <- app_comm_cons, Hone by (by vm_compute).
    rewrite <- app_assoc, Hws by done. apply IH.
Qed.

(** A text of the grammar has no other characters outside its strings. *)
Lemma json_text_bare_characters k s : json_text k s → bare_characters k Bare s = true.
Proof.
  intros (w & lit & w1 & -> & Hw & Hlit & Hw1).
  rewrite bare_characters_plain by (by apply json_ws_bare).
  rewrite (proj1 (bare_characters_grammar k) _ Hlit).
  rewrite <- (app_nil_r w1). by rewrite bare_characters_plain by (by apply json_ws_bare).
Qed.

(** C4, as amended. Unless the interpreter meets its recursion limit in the
    decoder, the validator accepts the payload of the specification and
    returns exactly its three values, and it rejects the payload without
    [justification], the one with [confidenceScore] 1.5 and the one with
    [confidenceScore] given as the text high with a [ValidationError], which
    the service turns into its schema [RuntimeError]. A text outside the
    grammar of JSON, NaN, Infinity and -Infinity counted among its values,
    never reaches the model: the decoder raises [JSONDecodeError], or
    [RecursionError] or the [ValueError] of the digit limit, and the service
    passes that error on as it is, not as the schema error. *)
Theorem validator_examples (text : pystr) :
  ¬ json_text true text →
  (∃ e, parse_model_output (JStr text) = raise e
        ∧ (e = JSONDecodeError ∨ e = RecursionError ∨ ∃ n, e = int_digits_error n)
        ∧ classify_except (raise e : result ClassificationResult) = raise e)
  ∧ parse_model_output (JStr payload_of_specification)
    = (if output_recursion python payload_of_specification then raise RecursionError
       else ok (mkClassificationResult (py "Cancer Imaging") (FDec 87 (-2))
                  (py "Mentions tumor segmentation in CT scans.")))
  ∧ parse_model_output (JStr payload_without_justification)
    = (if output_recursion python payload_without_justification then raise RecursionError
       else raise ValidationError)
  ∧ parse_model_output (JStr payload_with_score_above_one)
    = (if output_recursion python payload_with_score_above_one then raise RecursionError
       else raise ValidationError)
  ∧ parse_model_output (JStr payload_with_score_as_text)
    = (if output_recursion python payload_with_score_as_text then raise RecursionError
       else raise ValidationError)
  ∧ classify_except (raise ValidationError : result ClassificationResult)
    = raise (RuntimeError (py "AI output failed schema validation.") None).
Proof.
  intros Hbad. split_and!.
  - unfold parse_model_output.
    destruct (json_loads_at (output_recursion python) text) as [v|e] eqn:Hl.
    + exfalso. apply Hbad. unfold json_loads_at in Hl.
      destruct (output_recursion python text); [done|]. by eapply json_loads_ok_text.
    + exists e. cbn [bind].
      destruct (json_loads_at_raise _ _ _ Hl) as [->|[->|[n ->]]]; eauto 10.
  - unfold parse_model_output, json_loads_at.
    by destruct (output_recursion python _); [|vm_compute].
  - unfold parse_model_output, json_loads_at.
    by destruct (output_recursion python _); [|vm_compute].
  - unfold parse_model_output, json_loads_at.
    by destruct (output_recursion python _); [|vm_compute].
  - unfold parse_model_output, json_loads_at.
    by destruct (output_recursion python _); [|vm_compute].
  - done.
Qed.


(** ** C5: the schema sent to the provider *)

Lemma dict_get_set_eq {V} k (v : V) d : dict_get k (dict_set k v d) = Some v.
Proof.
  induction d as [|[k' v'] d IH]; simpl.
  - by rewrite decide_True.
  - destruct (decide (k' = k)) as [->|Hne]; simpl.
    + by rewrite decide_True.
    + by rewrite decide_False.
Qed.

Lemma dict_get_set_ne {V} k k' (v : V) d :
  k ≠ k' → dict_get k' (dict_set k v d) = dict_get k' d.
Proof.
  intros Hne. induction d as [|[k0 v0] d IH]; simpl.
  - by rewrite decide_False.
  - destruct (decide (k0 = k)) as [->|Hne0]; simpl.
    + by rewrite !decide_False.
    + destruct (decide (k0 = k')); done.
Qed.

Lemma dict_get_pop_ne {V} k k' (v : V) d d' :
  dict_pop k d = Some (v, d') → k ≠ k' → dict_get k' d' = dict_get k' d.
Proof.
  intros Hpop Hne. revert d' Hpop.
  induction d as [|[k0 v0] d IH]; intros d' Hpop; simplify_eq/=.
  destruct (decide (k0 = k)) as [->|Hne0]; simplify_eq/=.
  - by rewrite decide_False.
  - destruct (dict_pop k d) as [[x d'']|]; simplify_eq/=.
    destruct (decide (k0 = k')); [done|]. by apply IH.
Qed.

Lemma upper_prop_types_keys props props' :
  upper_prop_types props = ok props' → dict_keys props' = dict_keys props.
Proof.
  revert props'. induction props as [|[k prop] props IH]; intros props' H; simplify_eq/=.
  - done.
  - destruct (upper_prop_type prop) as [prop'|]; simplify_eq/=.
    destruct (upper_prop_types props) as [rest|]; simplify_eq/=.
    f_equal. by apply IH.
Qed.

(** Whatever dict [model_json_schema()] returns, the compiled schema keeps the
    names of its [properties] in their order and [propertyOrdering] lists
    them in that order. *)
Lemma compile_schema_ordering schema schema' props :
  dict_get (py "properties") schema = Some (JObj props) →
  compile_schema schema = ok schema' →
  dict_get (py "propertyOrdering") schema' = Some (JArr (map JStr (dict_keys props)))
  ∧ ∃ props', dict_get (py "properties") schema' = Some (JObj props')
              ∧ dict_keys props' = dict_keys props.
Proof.
  intros Hprops. unfold compile_schema.
  destruct (dict_pop (py "type") schema) as [[t schema1]|] eqn:Hpop; [|done].
  destruct (py_upper t) as [t'|]; [|done]. cbn [bind].
  assert (dict_get (py "properties") (dict_set (py "type") t' schema1)
          = Some (JObj props)) as ->.
  { rewrite dict_get_set_ne by (by vm_compute).
    rewrite (dict_get_pop_ne _ _ _ _ _ Hpop) by (by vm_compute). done. }
  destruct (upper_prop_types props) as [props'|] eqn:Hup; [|done]. cbn [bind].
  rewrite dict_get_set_eq. cbn [bind]. intros [= <-].
  rewrite dict_get_set_eq. rewrite dict_get_set_ne by (by vm_compute).
  rewrite dict_get_set_eq. rewrite (upper_prop_types_keys _ _ Hup).
  split; [done|]. exists props'. split; [done|]. by eapply upper_prop_types_keys.
Qed.

(** C5. [get_response_schema] takes no input and reads nothing: it is one
    fixed value. Its [properties] are exactly [primaryDomain],
    [confidenceScore], [justification] in this order, their type tags are
    STRING, NUMBER, STRING, each equal to its own upper-casing, the tag of the
    schema is OBJECT, and [propertyOrdering] is the same three names in the
    same order. *)
Theorem get_response_schema_shape :
  ∃ schema,
    get_response_schema = ok schema
    ∧ property_names schema
      = Some [py "primaryDomain"; py "confidenceScore"; py "justification"]
    ∧ property_type schema (py "primaryDomain") = Some (JStr (py "STRING"))
    ∧ property_type schema (py "confidenceScore") = Some (JStr (py "NUMBER"))
    ∧ property_type schema (py "justification") = Some (JStr (py "STRING"))
    ∧ upper (py "STRING") = py "STRING" ∧ upper (py "NUMBER") = py "NUMBER"
    ∧ upper (py "string") = py "STRING" ∧ upper (py "number") = py "NUMBER"
    ∧ schema_member schema (py "type") = Some (JStr (py "OBJECT"))
    ∧ schema_member schema (py "propertyOrdering")
      = Some (JArr [JStr (py "primaryDomain"); JStr (py "confidenceScore");
                    JStr (py "justification")])
    ∧ schema_member schema (py "required")
      = Some (JArr [JStr (py "primaryDomain"); JStr (py "confidenceScore");
                    JStr (py "justification")]).
Proof.
  destruct get_response_schema as [schema|e] eqn:Hs; [|by vm_compute in Hs].
  exists schema. split; [done|].
  vm_compute in Hs. injection Hs as <-.
  vm_compute. repeat split; reflexivity.
Qed.

(** ** C9: the text of an empty object counts as no output *)

(** An envelope without a [text] gives the default, the text of an empty
    object. *)
Lemma extract_text_absent part :
  dict_get (py "text") part = None →
  extract_text
    (JObj [(py "candidates",
            JArr [JObj [(py "content", JObj [(py "parts", JArr [JObj part])])]])])
  = ok (JStr (py "{}")).
Proof.
  intros H. unfold extract_text.
  change (py_get (JObj [(py "candidates",
            JArr [JObj [(py "content", JObj [(py "parts", JArr [JObj part])])]])])
            (py "candidates") (JArr [JObj []]))
    with (ok (JArr [JObj [(py "content", JObj [(py "parts", JArr [JObj part])])]]) : result json).
  cbn [bind py_index0].
  change (py_get (JObj [(py "content", JObj [(py "parts", JArr [JObj part])])])
            (py "content") (JObj []))
    with (ok (JObj [(py "parts", JArr [JObj part])]) : result json).
  cbn [bind].
  change (py_get (JObj [(py "parts", JArr [JObj part])]) (py "parts") (JArr [JObj []]))
    with (ok (JArr [JObj part]) : result json).
  cbn [bind py_index0 py_get]. by rewrite H.
Qed.

(** C9. When the text extracted from the envelope is the two characters of an
    empty object, the client raises the same [RuntimeError] as for an empty
    text (or any other falsy value) and for a text that is absent, for which
    line 127 supplies these two characters as the default; the text is not
    handed to the validator, which would have refused it with a
    [ValidationError] (where the decoder does not meet the recursion limit
    of the interpreter before). *)
Theorem braces_count_as_empty_output (requests_post : pystr → json → http_outcome)
    (full_api_url : pystr) (payload data text : json) :
  post_json requests_post full_api_url payload = ok data →
  extract_text data = ok text →
  text = JStr (py "{}") ∨ truthy text = false →
  call_model requests_post full_api_url payload
  = raise (RuntimeError (py "AI model did not return valid classification content.") None)
  ∧ parse_model_output (JStr (py "{}"))
    = (if output_recursion python (py "{}") then raise RecursionError
       else raise ValidationError)
  ∧ extract_text (envelope (JStr (py "{}"))) = ok (JStr (py "{}"))
  ∧ extract_text (JObj [(py "candidates",
        JArr [JObj [(py "content", JObj [(py "parts", JArr [JObj []])])]])])
    = ok (JStr (py "{}")).
Proof.
  intros Hpost Ht Htext. split_and!.
  - unfold call_model. rewrite Hpost. cbn [bind]. rewrite Ht. cbn [bind].
    destruct Htext as [-> | ->]; done.
  - unfold parse_model_output, json_loads_at.
    by destruct (output_recursion python _); [|vm_compute].
  - by vm_compute.
  - by apply extract_text_absent.
Qed.


(** ** C10: the categories handed to the prompt *)

Lemma str_ltb_irrefl a : str_ltb a a = false.
Proof.
  induction a as [|x a IH]; simpl; [done|].
  rewrite N.ltb_irrefl, N.eqb_refl. exact IH.
Qed.

Lemma str_ltb_asym a b : str_ltb a b = true → str_ltb b a = false.
Proof.
  revert b. induction a as [|x a IH]; intros [|y b]; simpl; try done.
  destruct (N.ltb_spec x y), (N.ltb_spec y x), (N.eqb_spec x y), (N.eqb_spec y x);
    try done; try lia.
  apply IH.
Qed.

Lemma str_ltb_trans a b c : str_ltb a b = true → str_ltb b c = true → str_ltb a c = true.
Proof.
  revert b c. induction a as [|x a IH]; intros [|y b] [|z c]; simpl; try done.
  destruct (N.ltb_spec x y), (N.ltb_spec y z), (N.ltb_spec x z),
    (N.eqb_spec x y), (N.eqb_spec y z), (N.eqb_spec x z); try done; try lia.
  apply IH.
Qed.

(** Two texts neither of which is before the other are the same text. *)
Lemma str_ltb_trichotomy a b : str_ltb a b = false → str_ltb b a = false → a = b.
Proof.
  revert b. induction a as [|x a IH]; intros [|y b]; simpl; try done.
  destruct (N.ltb_spec x y), (N.ltb_spec y x), (N.eqb_spec x y), (N.eqb_spec y x);
    try done; try lia.
  intros. subst. f_equal. by apply IH.
Qed.

Lemma str_ltb_le_trans a b c : str_ltb b a = false → str_ltb c b = false → str_ltb c a = false.
Proof.
  intros Hab Hbc. destruct (str_ltb c a) eqn:Hca; [|done].
  destruct (str_ltb a b) eqn:Hlt.
  - by rewrite (str_ltb_trans _ _ _ Hca Hlt) in Hbc.
  - rewrite (str_ltb_trichotomy a b Hlt Hab) in Hca. by rewrite Hca in Hbc.
Qed.

Global Instance str_le_total : Total str_le.
Proof.
  intros a b. unfold str_le. destruct (str_ltb b a) eqn:H; [|by left].
  right. by apply str_ltb_asym.
Qed.
Global Instance str_le_trans : Transitive str_le.
Proof. intros a b c. unfold str_le. apply str_ltb_le_trans. Qed.
Global Instance str_le_antisym : AntiSymm (=) str_le.
Proof. intros a b Hab Hba. unfold str_le in *. by apply str_ltb_trichotomy. Qed.

(** [sorted] of a list without repetition is strictly ascending. *)
Lemma StronglySorted_le_lt (l : list pystr) :
  NoDup l → StronglySorted str_le l → StronglySorted str_lt l.
Proof.
  induction 2 as [|x l Hs IH Hall]; constructor.
  - apply IH. by eapply NoDup_cons_1_2.
  - apply NoDup_cons in H as [Hx _].
    rewrite Forall_forall in Hall |- *. intros y Hy.
    specialize (Hall y Hy). unfold str_le in Hall. unfold str_lt.
    destruct (str_ltb x y) eqn:Hlt; [done|].
    pose proof (str_ltb_trichotomy x y Hlt Hall) as ->. done.
Qed.

(** In whatever order the elements of the set are listed, [sorted] gives the
    same list. *)
Lemma sorted_set_unique (l1 l2 : list pystr) :
  l1 ≡ₚ l2 → merge_sort str_le l1 = merge_sort str_le l2.
Proof.
  intros Hp. apply (StronglySorted_unique str_le).
  - apply StronglySorted_merge_sort; apply _.
  - apply StronglySorted_merge_sort; apply _.
  - by rewrite !merge_sort_Permutation.
Qed.

(** C10. For every history, the list of existing categories has no repeated
    name, is strictly ascending in the order of [str], holds exactly the
    [primaryDomain] values of the records of the history, and is the same
    list for every order in which these records were appended; and the
    payload that a classification request posts to the provider is the one
    the prompt builder makes of this list. *)
Theorem existing_categories_sorted_unique (responses : list response_record) :
  NoDup (existing_categories_of responses)
  ∧ StronglySorted str_lt (existing_categories_of responses)
  ∧ (∀ c, c ∈ existing_categories_of responses
          ↔ ∃ res, res ∈ responses ∧ primaryDomain (classification res) = c)
  ∧ (∀ responses', responses' ≡ₚ responses →
       existing_categories_of responses' = existing_categories_of responses)
  ∧ (∀ requests_post key sess req now question posts emits,
       let st := mkState responses question posts emits in
       posted (snd (classify_objective requests_post key sess req now st)) = posted st
       ∨ ∃ objective payload url,
           get_gemini_api_payload objective question (existing_categories_of responses)
             = ok payload
           ∧ posted (snd (classify_objective requests_post key sess req now st))
             = posted st ++ [(url, payload)]).
Proof.
  unfold existing_categories_of at 1 2 3 4 5.
  set (domains := λ rs : list response_record,
         map (λ res, primaryDomain (classification res)) rs).
  assert (NoDup (merge_sort str_le (elements (list_to_set (domains responses) : gset pystr))))
    as Hnd by (rewrite merge_sort_Permutation; apply NoDup_elements).
  split_and!.
  - exact Hnd.
  - apply StronglySorted_le_lt; [exact Hnd|].
    apply StronglySorted_merge_sort; apply _.
  - intros c. rewrite merge_sort_Permutation, elem_of_elements, elem_of_list_to_set.
    unfold domains. change (map ?f ?l) with (f <$> l). rewrite list_elem_of_fmap.
    split; intros (res & H1 & H2); exists res; by split.
  - intros responses' Hp. f_equal. f_equal.
    apply list_to_set_perm_L. unfold domains. by rewrite Hp.
  - intros requests_post key sess req now question posts emits. cbv zeta.
    destruct (classify_objective_posted requests_post key sess req now
                (mkState responses question posts emits))
      as [Hp | (objective & payload & k & _ & Hpay & Hp)]; [by left|].
    right. exists objective, payload, (GEMINI_API_URL ++ py "?key=" ++ k). by split.
Qed.

Example existing_categories_example :
  existing_categories_of
    [mkRecord [] [] JNull (mkClassificationResult (py "Radiology") FNaN []) 0;
     oncology_record;
     mkRecord [] [] JNull (mkClassificationResult (py "Ethics") FNaN []) 0;
     mkRecord [] [] JNull (mkClassificationResult (py "Radiology") FNaN []) 0]
  = [py "Ethics"; py "Oncology"; py "Radiology"].
Proof. vm_compute. reflexivity. Qed.

(** ** C6: the prompt read back *)

(** *** Hexadecimal escapes *)

Lemma hex_value_digit d : d < 16 → hex_value (hex_digit d) = Some d.
Proof.
  intros Hd. unfold hex_value, hex_digit.
  destruct (N.ltb_spec d 10).
  - replace ((48 <=? 48 + d) && (48 + d <=? 57)) with true
      by (symmetry; apply andb_true_iff; split; apply N.leb_le; lia).
    f_equal. lia.
  - replace ((48 <=? 87 + d) && (87 + d <=? 57)) with false
      by (symmetry; apply andb_false_iff; right; apply N.leb_gt; lia).
    replace ((97 <=? 87 + d) && (87 + d <=? 102)) with true
      by (symmetry; apply andb_true_iff; split; apply N.leb_le; lia).
    f_equal. lia.
Qed.

Lemma hex4_value_hex4 n h1 h2 h3 h4 :
  n < 0x10000 → hex4 n = [h1; h2; h3; h4] → hex4_value h1 h2 h3 h4 = Some n.
Proof.
  intros Hn [= <- <- <- <-]. unfold hex4_value.
  rewrite !hex_value_digit by (apply N.mod_lt; lia).
  f_equal.
  pose proof (N.div_mod n 16 ltac:(lia)).
  pose proof (N.div_mod (n / 16) 16 ltac:(lia)).
  pose proof (N.div_mod (n / 16 / 16) 16 ltac:(lia)).
  assert (n / 256 = n / 16 / 16) as -> by (rewrite N.Div0.div_div; done).
  assert (n / 4096 = n / 16 / 16 / 16) as -> by (rewrite !N.Div0.div_div; done).
  assert (n / 16 / 16 / 16 < 16).
  { rewrite !N.Div0.div_div. apply N.Div0.div_lt_upper_bound. lia. }
  rewrite (N.mod_small (n / 16 / 16 / 16) 16) by done.
  lia.
Qed.

(** *** Surrogate pairs *)

Lemma lor_high_low a b : b < 1024 → N.lor (a * 1024) b = a * 1024 + b.
Proof.
  intros Hb.
  assert (N.land (a * 1024) b = 0) as Hland.
  { apply N.bits_inj. intros i. rewrite N.land_spec, N.bits_0.
    destruct (N.lt_ge_cases i 10) as [Hi|Hi].
    - change 1024 with (2 ^ 10). by rewrite N.mul_pow2_bits_low.
    - replace (N.testbit b i) with false; [apply andb_false_r|].
      symmetry. destruct (N.eq_dec b 0) as [->|Hb0]; [apply N.bits_0|].
      apply N.bits_above_log2.
      assert (N.log2 b < 10); [|lia].
      apply N.log2_lt_pow2; [lia|done]. }
  rewrite N.add_nocarry_lxor by done. by rewrite N.lxor_lor.
Qed.

Lemma surrogates_of c :
  0x10000 <= c < 0x110000 →
  N.lor 0xd800 (N.land (N.shiftr (c - 0x10000) 10) 0x3ff) = 0xd800 + (c - 0x10000) / 1024
  ∧ N.lor 0xdc00 (N.land (c - 0x10000) 0x3ff) = 0xdc00 + (c - 0x10000) mod 1024
  ∧ (c - 0x10000) / 1024 < 1024.
Proof.
  intros Hc. set (n := c - 0x10000).
  assert (n < 1024 * 1024) as Hn by (unfold n; lia).
  assert (n / 1024 < 1024) as Hq by (apply N.Div0.div_lt_upper_bound; lia).
  assert (n mod 1024 < 1024) as Hr by (apply N.mod_lt; lia).
  change 0x3ff with (N.ones 10). rewrite !N.land_ones, N.shiftr_div_pow2.
  change (2 ^ 10) with 1024. rewrite (N.mod_small (n / 1024)) by done.
  change 0xd800 with (54 * 1024). change 0xdc00 with (55 * 1024).
  rewrite !lor_high_low by done. done.
Qed.

Lemma join_surrogates_of q r :
  q < 1024 → r < 1024 →
  join_surrogates (0xd800 + q) (0xdc00 + r) = 0x10000 + q * 1024 + r.
Proof.
  intros Hq Hr. unfold join_surrogates.
  change 0x3ff with (N.ones 10). rewrite !N.land_ones, N.shiftl_mul_pow2.
  change (2 ^ 10) with 1024.
  replace ((0xd800 + q) mod 1024) with q.
  2:{ apply (N.mod_unique _ _ 54); lia. }
  replace ((0xdc00 + r) mod 1024) with r.
  2:{ apply (N.mod_unique _ _ 55); lia. }
  rewrite lor_high_low by done. lia.
Qed.
#[local] Opaque hex_digit hex4_value.

Lemma scanstring_u_escape n r :
  n < 0x10000 → low_escape_ahead r = false ∨ is_high_surrogate n = false →
  scanstring (u_escape n ++ r) = cons_char n (scanstring r).
Proof.
  intros Hn Hr. unfold u_escape, hex4. simpl.
  rewrite (hex4_value_hex4 n _ _ _ _ Hn eq_refl).
  destruct (is_high_surrogate n) eqn:Hhigh; [|done].
  destruct Hr as [Hr|]; [|done].
  destruct r as [|b [|u [|g1 [|g2 [|g3 [|g4 rest3]]]]]]; try done.
  unfold low_escape_ahead in Hr.
  destruct ((b =? 92) && (u =? 117) && match rest3 with [] => false | _ => true end); [|done].
  simpl in Hr. destruct (hex4_value g1 g2 g3 g4); [|done]. by rewrite Hr.
Qed.

Lemma scanstring_escape_char c r :
  c < 0x110000 → r ≠ [] → low_escape_ahead r = false ∨ is_high_surrogate c = false →
  scanstring (escape_char c ++ r) = cons_char c (scanstring r).
Proof.
  intros Hc Hr Hlow. unfold escape_char.
  destruct (N.eqb_spec c 92) as [->|?]; [done|].
  destruct (N.eqb_spec c 34) as [->|?]; [done|].
  destruct ((32 <=? c) && (c <=? 126)) eqn:Hprint.
  { apply andb_true_iff in Hprint as [?%N.leb_le ?%N.leb_le].
    cbn [app scanstring]. cmp. done. }
  destruct (N.eqb_spec c 8) as [->|?]; [done|].
  destruct (N.eqb_spec c 12) as [->|?]; [done|].
  destruct (N.eqb_spec c 10) as [->|?]; [done|].
  destruct (N.eqb_spec c 13) as [->|?]; [done|].
  destruct (N.eqb_spec c 9) as [->|?]; [done|].
  destruct (N.ltb_spec c 0x10000) as [Hbmp|Hastral].
  { by apply scanstring_u_escape. }
  cbv zeta.
  destruct (surrogates_of c ltac:(lia)) as (-> & -> & Hq).
  remember (c - 0x10000) as m eqn:Hm.
  assert (m mod 1024 < 1024) as Hr' by (apply N.mod_lt; lia).
  pose proof (N.le_0_l (m / 1024)). pose proof (N.le_0_l (m mod 1024)).
  unfold u_escape at 1, hex4. rewrite <- app_assoc. simpl.
  rewrite (hex4_value_hex4 (0xd800 + m / 1024) _ _ _ _ ltac:(lia) eq_refl).
  rewrite (hex4_value_hex4 (0xdc00 + m mod 1024) _ _ _ _ ltac:(lia) eq_refl).
  assert (is_high_surrogate (0xd800 + m / 1024) = true) as ->
    by (unfold is_high_surrogate; apply andb_true_iff; split; apply N.leb_le; lia).
  assert (is_low_surrogate (0xdc00 + m mod 1024) = true) as ->
    by (unfold is_low_surrogate; apply andb_true_iff; split; apply N.leb_le; lia).
  destruct r; [done|].
  rewrite join_surrogates_of by done.
  replace (0x10000 + m / 1024 * 1024 + m mod 1024) with c; [done|].
  pose proof (N.div_mod m 1024 ltac:(lia)). lia.
Qed.

(** The text after a string or after one of its characters: the escapes of
    the characters that follow, then the closing quote. *)
Lemma low_escape_ahead_quote r : low_escape_ahead (34 :: r) = false.
Proof. by destruct r as [|u [|g1 [|g2 [|g3 [|g4 rest3]]]]]. Qed.

Lemma low_escape_ahead_escape_char c r :
  c < 0x110000 → is_low_surrogate c = false → r ≠ [] →
  low_escape_ahead (escape_char c ++ r) = false.
Proof.
  intros Hc Hlow Hr. unfold escape_char.
  destruct (N.eqb_spec c 92) as [->|?].
  { by destruct r as [|g1 [|g2 [|g3 [|g4 rest3]]]]. }
  destruct (N.eqb_spec c 34) as [->|?].
  { by destruct r as [|g1 [|g2 [|g3 [|g4 rest3]]]]. }
  destruct ((32 <=? c) && (c <=? 126)) eqn:Hprint.
  { cbn [app]. destruct r as [|u [|g1 [|g2 [|g3 [|g4 rest3]]]]]; try done.
    unfold low_escape_ahead. by destruct (N.eqb_spec c 92). }
  destruct (N.eqb_spec c 8) as [->|?].
  { by destruct r as [|g1 [|g2 [|g3 [|g4 rest3]]]]. }
  destruct (N.eqb_spec c 12) as [->|?].
  { by destruct r as [|g1 [|g2 [|g3 [|g4 rest3]]]]. }
  destruct (N.eqb_spec c 10) as [->|?].
  { by destruct r as [|g1 [|g2 [|g3 [|g4 rest3]]]]. }
  destruct (N.eqb_spec c 13) as [->|?].
  { by destruct r as [|g1 [|g2 [|g3 [|g4 rest3]]]]. }
  destruct (N.eqb_spec c 9) as [->|?].
  { by destruct r as [|g1 [|g2 [|g3 [|g4 rest3]]]]. }
  destruct (N.ltb_spec c 0x10000) as [Hbmp|Hastral].
  { unfold u_escape, hex4. cbn [app low_escape_ahead].
    rewrite (hex4_value_hex4 c _ _ _ _ Hbmp eq_refl).
    rewrite Hlow. apply andb_false_r. }
  cbv zeta. destruct (surrogates_of c ltac:(lia)) as (-> & -> & Hq).
  pose proof (N.le_0_l ((c - 0x10000) / 1024)).
  unfold u_escape at 1, hex4. cbn [app low_escape_ahead].
  rewrite (hex4_value_hex4 (0xd800 + (c - 0x10000) / 1024) _ _ _ _ ltac:(lia) eq_refl).
  replace (is_low_surrogate (0xd800 + (c - 0x10000) / 1024)) with false;
    [apply andb_false_r|].
  symmetry. unfold is_low_surrogate. apply andb_false_iff. left. apply N.leb_gt. lia.
Qed.

Lemma wf_str_cons c s : wf_str (c :: s) → c < 0x110000 ∧ wf_str s.
Proof.
  unfold wf_str. cbn [forallb]. intros [H1 H2]%andb_true_iff.
  split; [by apply N.ltb_lt|done].
Qed.

Lemma escape_chars_quote_ahead s r :
  wf_str s → (∀ c, head s = Some c → is_low_surrogate c = false) →
  low_escape_ahead (escape_chars s ++ 34 :: r) = false.
Proof.
  intros Hwf Hhead. destruct s as [|c s]; simpl.
  - apply low_escape_ahead_quote.
  - rewrite <- app_assoc. apply low_escape_ahead_escape_char.
    + by apply wf_str_cons in Hwf as [? _].
    + by apply Hhead.
    + by destruct (escape_chars s).
Qed.

(** The scanner reads the encoding of a string back, when no high surrogate
    of the string is followed by a low one. *)
Lemma scanstring_escape_chars s r :
  wf_str s → no_surrogate_pair s = true →
  scanstring (escape_chars s ++ 34 :: r) = Some (s, r).
Proof.
  intros Hwf. induction s as [|c s IH]; intros Hpair; [done|].
  apply wf_str_cons in Hwf as [Hc Hwf].
  cbn [escape_chars]. rewrite <- app_assoc.
  rewrite scanstring_escape_char.
  - rewrite IH; [done|done|]. destruct s; [done|].
    by apply andb_true_iff in Hpair as [_ ?].
  - done.
  - by destruct (escape_chars s).
  - destruct (is_high_surrogate c) eqn:Hhigh; [left|by right].
    apply escape_chars_quote_ahead; [done|].
    intros c' Hc'. destruct s as [|c'' s]; simplify_eq/=.
    apply andb_true_iff in Hpair as [Hp _]. rewrite Hhigh in Hp.
    by destruct (is_low_surrogate c').
Qed.

Lemma scan_encoded_string s r :
  wf_str s → no_surrogate_pair s = true →
  scanstring (tl (encode_basestring_ascii s) ++ r) = Some (s, r).
Proof.
  intros. unfold encode_basestring_ascii. cbn [tl]. rewrite <- app_assoc.
  by apply scanstring_escape_chars.
Qed.


(** *** The scanner, one step at a time *)

Lemma scan_once_S f s :
  scan_once (S f) s =
  match s with
  | [] => Malformed
  | c :: rest =>
      if c =? 34 then
        match scanstring rest with
        | Some (str, r) => Scanned (JStr str) r
        | None => Malformed
        end
      else if c =? 123 then
        match skip_ws rest with
        | c' :: r' => if c' =? 125 then Scanned (JObj []) r'
                      else parse_members f (skip_ws rest) []
        | [] => Malformed
        end
      else if c =? 91 then
        match skip_ws rest with
        | c' :: r' => if c' =? 93 then Scanned (JArr []) r'
                      else parse_items f (skip_ws rest) []
        | [] => Malformed
        end
      else scan_atom s
  end.
Proof. reflexivity. Qed.

Lemma parse_items_S f s acc :
  parse_items (S f) s acc =
  match scan_once f s with
  | Scanned v r =>
      match skip_ws r with
      | c :: r' =>
          if c =? 93 then Scanned (JArr (acc ++ [v])) r'
          else if c =? 44 then parse_items f (skip_ws r') (acc ++ [v])
          else Malformed
      | [] => Malformed
      end
  | Malformed => Malformed
  | DigitLimit n => DigitLimit n
  | OutOfFuel => OutOfFuel
  end.
Proof. reflexivity. Qed.

Lemma parse_members_S f s acc :
  parse_members (S f) s acc =
  match s with
  | q :: r =>
      if q =? 34 then
        match scanstring r with
        | Some (key, r1) =>
            match skip_ws r1 with
            | colon :: r2 =>
                if colon =? 58 then
                  match scan_once f (skip_ws r2) with
                  | Scanned v r3 =>
                      match skip_ws r3 with
                      | c :: r4 =>
                          if c =? 125 then Scanned (JObj (dict_set key v acc)) r4
                          else if c =? 44 then parse_members f (skip_ws r4) (dict_set key v acc)
                          else Malformed
                      | [] => Malformed
                      end
                  | Malformed => Malformed
                  | DigitLimit n => DigitLimit n
                  | OutOfFuel => OutOfFuel
                  end
                else Malformed
            | [] => Malformed
            end
        | None => Malformed
        end
      else Malformed
  | [] => Malformed
  end.
Proof. reflexivity. Qed.

(** More fuel does not change what was scanned. *)
Lemma scan_fuel_mono f :
  ∀ f', (f ≤ f')%nat →
    (∀ s v r, scan_once f s = Scanned v r → scan_once f' s = Scanned v r)
    ∧ (∀ s acc v r, parse_items f s acc = Scanned v r → parse_items f' s acc = Scanned v r)
    ∧ (∀ s acc v r, parse_members f s acc = Scanned v r → parse_members f' s acc = Scanned v r).
Proof.
  induction f as [|f IH]; intros f' Hle.
  { split_and!; intros; discriminate. }
  destruct f' as [|f']; [lia|].
  destruct (IH f' ltac:(lia)) as (IHv & IHi & IHm).
  split_and!.
  - intros s v r. rewrite !scan_once_S.
    repeat case_match; try done; auto.
  - intros s acc v r. rewrite !parse_items_S.
    destruct (scan_once f s) as [v0 r0| | |] eqn:Hs; try done.
    rewrite (IHv _ _ _ Hs). repeat case_match; try done; auto.
  - intros s acc v r. rewrite !parse_members_S.
    destruct s as [|q s]; [done|]. destruct (q =? 34); [|done].
    destruct (scanstring s) as [[key r1]|]; [|done].
    destruct (skip_ws r1) as [|colon r2]; [done|]. destruct (colon =? 58); [|done].
    destruct (scan_once f (skip_ws r2)) as [v0 r3| | |] eqn:Hs; try done.
    rewrite (IHv _ _ _ Hs).
    destruct (skip_ws r3) as [|c r4]; [done|].
    destruct (c =? 125); [done|]. destruct (c =? 44); [|done]. apply IHm.
Qed.

Lemma scan_once_fuel f f' s v r :
  (f ≤ f')%nat → scan_once f s = Scanned v r → scan_once f' s = Scanned v r.
Proof. intros Hle. by apply (scan_fuel_mono f f' Hle). Qed.

(** *** The fuel [json_loads] gives is enough *)

Lemma skip_ws_length s : (length (skip_ws s) ≤ length s)%nat.
Proof.
  induction s as [|c s IH]; [done|]. cbn [skip_ws].
  destruct (is_ws c); simpl in *; lia.
Qed.

Lemma cons_char_length c o x r (n : nat) :
  cons_char c o = Some (x, r) → (∀ y, o = Some (y, r) → (length r < n)%nat) →
  (length r < n)%nat.
Proof. destruct o as [[y r']|]; intros; simplify_eq/=. eauto. Qed.

(** A string that was scanned took at least its closing quote. *)
Lemma scanstring_length n :
  ∀ s x r, (length s ≤ n)%nat → scanstring s = Some (x, r) → (length r < length s)%nat.
Proof.
  induction n as [|n IH]; intros s x r Hn.
  { destruct s; [done|simpl in Hn; lia]. }
  destruct s as [|c s]; [done|]. cbn [scanstring].
  assert (∀ t y, (length t ≤ length s)%nat → scanstring t = Some (y, r) →
                 (length r < length (c :: s))%nat) as Hrec.
  { intros t y Ht Hs. apply IH in Hs; simpl in *; lia. }
  destruct (c =? 34); [intros; simplify_eq/=; lia|].
  destruct (c =? 92).
  - destruct s as [|e s1]; [done|].
    destruct (e =? 117).
    + destruct s1 as [|h1 [|h2 [|h3 [|h4 s2]]]]; try done.
      destruct (hex4_value h1 h2 h3 h4) as [uni|]; [|done].
      assert (∀ o, cons_char uni o = Some (x, r) → o = scanstring s2 →
                   (length r < length (c :: e :: h1 :: h2 :: h3 :: h4 :: s2))%nat) as Hs2.
      { intros o Ho ->. eapply cons_char_length; [exact Ho|].
        intros y Hy. eapply Hrec; [|exact Hy]. simpl. lia. }
      destruct (is_high_surrogate uni); [|by eauto].
      destruct s2 as [|b [|u [|g1 [|g2 [|g3 [|g4 s3]]]]]]; try by eauto.
      destruct ((b =? 92) && (u =? 117) && match s3 with [] => false | _ => true end);
        [|by eauto].
      destruct (hex4_value g1 g2 g3 g4) as [uni2|]; [|done].
      destruct (is_low_surrogate uni2); [|by eauto].
      intros Ho. eapply cons_char_length; [exact Ho|].
      intros y Hy. eapply Hrec; [|exact Hy]. simpl. lia.
    + destruct (simple_escape e) as [ch|]; [|done].
      intros Ho. eapply cons_char_length; [exact Ho|].
      intros y Hy. eapply Hrec; [|exact Hy]. simpl. lia.
  - destruct (c <=? 31); [done|].
    intros Ho. eapply cons_char_length; [exact Ho|].
    intros y Hy. eapply Hrec; [|exact Hy]. simpl. lia.
Qed.

Lemma strip_prefix_length p s r :
  strip_prefix p s = Some r → (length r + length p = length s)%nat.
Proof.
  revert s. induction p as [|a p IH]; intros [|b s] H; simplify_eq/=; try done.
  destruct (a =? b); [|done]. apply IH in H. lia.
Qed.

Lemma span_digits_length s ds r :
  span_digits s = (ds, r) → (length ds + length r = length s)%nat.
Proof.
  revert ds r. induction s as [|c s IH]; intros ds r H; simplify_eq/=; [done|].
  destruct (is_digit c); simplify_eq/=; [|done].
  destruct (span_digits s) as [ds' r'] eqn:Hs. simplify_eq/=.
  specialize (IH _ _ eq_refl). lia.
Qed.

Lemma match_number_length s v r :
  match_number s = Some (v, r) → (length r < length s)%nat.
Proof.
  unfold match_number.
  set (signed := match s with
                 | c :: r0 => if c =? 45 then (true, r0) else (false, s)
                 | [] => (false, s)
                 end).
  assert (length signed.2 ≤ length s)%nat as Hsign.
  { unfold signed. destruct s as [|c s0]; [done|]. destruct (c =? 45); simpl; lia. }
  destruct signed as [neg s1]. cbn [snd] in Hsign.
  set (int_part := match s1 with
                   | c :: r0 =>
                       if (49 <=? c) && (c <=? 57) then Some (span_digits s1)
                       else if c =? 48 then Some ([48], r0)
                       else None
                   | [] => None
                   end).
  assert (∀ ds s2, int_part = Some (ds, s2) → (length s2 < length s1)%nat) as Hint.
  { intros ds s2. unfold int_part. destruct s1 as [|c s0]; [done|].
    destruct ((49 <=? c) && (c <=? 57)) eqn:Hc.
    - intros [= Hs]. pose proof (span_digits_length (c :: s0) ds s2 Hs) as Hlen.
      assert (is_digit c = true) as Hd.
      { unfold is_digit. apply andb_true_iff in Hc as [H1 H2].
        apply andb_true_iff. split; [|done]. apply N.leb_le in H1. apply N.leb_le. lia. }
      rewrite Hd in Hs. destruct (span_digits s0). simplify_eq/=. lia.
    - destruct (c =? 48); [|done]. intros [= <- <-]. simpl. lia. }
  destruct int_part as [[ds s2]|]; [|done].
  specialize (Hint ds s2 eq_refl).
  set (frac := match s2 with
               | dot :: d :: _ =>
                   if (dot =? 46) && is_digit d then span_digits (tl s2) else ([], s2)
               | _ => ([], s2)
               end).
  assert (length frac.2 ≤ length s2)%nat as Hfrac.
  { unfold frac. destruct s2 as [|dot [|d s0]]; try done.
    destruct ((dot =? 46) && is_digit d); [|done].
    destruct (span_digits (tl (dot :: d :: s0))) as [fs r0] eqn:Hs.
    apply span_digits_length in Hs. simpl in *. lia. }
  destruct frac as [fs s3]. cbn [snd] in Hfrac.
  set (expo := match s3 with
               | e :: r0 =>
                   if (e =? 101) || (e =? 69) then
                     let '(eneg, r1) := match r0 with
                                        | sg :: r' => if sg =? 45 then (true, r')
                                                      else if sg =? 43 then (false, r')
                                                      else (false, r0)
                                        | [] => (false, r0)
                                        end in
                     let '(es, r2) := span_digits r1 in
                     match es with
                     | [] => (None, s3)
                     | _ => (Some (if eneg then - digits_value es else digits_value es)%Z, r2)
                     end
                   else (None, s3)
               | [] => (None, s3)
               end).
  assert (length expo.2 ≤ length s3)%nat as Hexp.
  { unfold expo. destruct s3 as [|e r0]; [done|].
    destruct ((e =? 101) || (e =? 69)); [|done].
    set (sg := match r0 with
               | sg :: r' => if sg =? 45 then (true, r')
                             else if sg =? 43 then (false, r') else (false, r0)
               | [] => (false, r0)
               end).
    assert (length sg.2 ≤ length r0)%nat as Hsg.
    { unfold sg. destruct r0 as [|c r']; [done|].
      destruct (c =? 45); [simpl; lia|]. destruct (c =? 43); simpl; lia. }
    destruct sg as [eneg r1]. cbn [snd] in Hsg.
    destruct (span_digits r1) as [es r2] eqn:Hs. apply span_digits_length in Hs.
    destruct es; simpl in *; lia. }
  destruct expo as [ex s4]. cbn [snd] in Hexp.
  destruct fs, ex; intros [= _ <-]; lia.
Qed.

Lemma scan_atom_length s v r :
  scan_atom s = Scanned v r → (length r < length s)%nat.
Proof.
  unfold scan_atom.
  repeat match goal with
         | |- context [strip_prefix ?p s] =>
             let H := fresh in
             destruct (strip_prefix p s) eqn:H;
               [apply strip_prefix_length in H; vm_compute (length p) in H;
                intros [= _ <-]; lia|clear H]
         end.
  destruct (match_number s) as [[v' r']|] eqn:Hn; [|done].
  apply match_number_length in Hn.
  destruct v'; try (by intros [= _ <-]).
  destruct (over_digit_limit _); [done|]. by intros [= _ <-].
Qed.

(** Whatever was scanned took at least one character. *)
Lemma scan_consumes f :
  (∀ s v r, scan_once f s = Scanned v r → (length r < length s)%nat)
  ∧ (∀ s acc v r, parse_items f s acc = Scanned v r → (length r < length s)%nat)
  ∧ (∀ s acc v r, parse_members f s acc = Scanned v r → (length r < length s)%nat).
Proof.
  induction f as [|f (IHv & IHi & IHm)]; [split_and!; intros; discriminate|].
  split_and!.
  - intros s v r. rewrite scan_once_S.
    destruct s as [|c s]; [done|].
    destruct (c =? 34).
    { destruct (scanstring s) as [[str r']|] eqn:Hs; [|done].
      intros [= _ <-]. apply (scanstring_length _ _ _ _ (le_n _)) in Hs. simpl. lia. }
    pose proof (skip_ws_length s) as Hws.
    destruct (c =? 123).
    { destruct (skip_ws s) as [|c' r'] eqn:Hsk; [done|].
      destruct (c' =? 125); [intros [= _ <-]; simpl in *; lia|].
      intros H%IHm. simpl in *. lia. }
    destruct (c =? 91).
    { destruct (skip_ws s) as [|c' r'] eqn:Hsk; [done|].
      destruct (c' =? 93); [intros [= _ <-]; simpl in *; lia|].
      intros H%IHi. simpl in *. lia. }
    apply scan_atom_length.
  - intros s acc v r. rewrite parse_items_S.
    destruct (scan_once f s) as [v0 r0| | |] eqn:Hs; try done. apply IHv in Hs.
    pose proof (skip_ws_length r0) as Hws.
    destruct (skip_ws r0) as [|c r'] eqn:Hsk; [done|].
    destruct (c =? 93); [intros [= _ <-]; simpl in *; lia|].
    destruct (c =? 44); [|done].
    intros H%IHi. pose proof (skip_ws_length r'). simpl in *. lia.
  - intros s acc v r. rewrite parse_members_S.
    destruct s as [|q s]; [done|]. destruct (q =? 34); [|done].
    destruct (scanstring s) as [[key r1]|] eqn:Hk; [|done].
    apply (scanstring_length _ _ _ _ (le_n _)) in Hk.
    pose proof (skip_ws_length r1) as Hws1.
    destruct (skip_ws r1) as [|colon r2] eqn:Hsk1; [done|].
    destruct (colon =? 58); [|done].
    pose proof (skip_ws_length r2) as Hws2.
    destruct (scan_once f (skip_ws r2)) as [v0 r3| | |] eqn:Hs; try done. apply IHv in Hs.
    pose proof (skip_ws_length r3) as Hws3.
    destruct (skip_ws r3) as [|c r4] eqn:Hsk3; [done|].
    destruct (c =? 125); [intros [= _ <-]; simpl in *; lia|].
    destruct (c =? 44); [|done].
    intros H%IHm. pose proof (skip_ws_length r4). simpl in *. lia.
Qed.

(** With twice the length of the text as fuel, the scanner never stops for
    want of fuel. *)
Lemma scan_enough_fuel f :
  (∀ s, (2 * length s + 1 ≤ f)%nat → scan_once f s ≠ OutOfFuel)
  ∧ (∀ s acc, (2 * length s + 2 ≤ f)%nat → parse_items f s acc ≠ OutOfFuel)
  ∧ (∀ s acc, (2 * length s + 2 ≤ f)%nat → parse_members f s acc ≠ OutOfFuel).
Proof.
  induction f as [|f (IHv & IHi & IHm)]; [split_and!; intros; lia|].
  split_and!.
  - intros s Hf. rewrite scan_once_S.
    destruct s as [|c s]; [done|].
    destruct (c =? 34); [by destruct (scanstring s) as [[]|]|].
    pose proof (skip_ws_length s) as Hws.
    destruct (c =? 123).
    { destruct (skip_ws s) as [|c' r'] eqn:Hsk; [done|].
      destruct (c' =? 125); [done|]. apply IHm. simpl in *. lia. }
    destruct (c =? 91).
    { destruct (skip_ws s) as [|c' r'] eqn:Hsk; [done|].
      destruct (c' =? 93); [done|]. apply IHi. simpl in *. lia. }
    unfold scan_atom. repeat case_match; done.
  - intros s acc Hf. rewrite parse_items_S.
    pose proof (IHv s ltac:(lia)) as Hv.
    destruct (scan_once f s) as [v0 r0| | |] eqn:Hs; try done.
    apply scan_consumes in Hs.
    pose proof (skip_ws_length r0) as Hws.
    destruct (skip_ws r0) as [|c r'] eqn:Hsk; [done|].
    destruct (c =? 93); [done|]. destruct (c =? 44); [|done].
    apply IHi. pose proof (skip_ws_length r'). simpl in *. lia.
  - intros s acc Hf. rewrite parse_members_S.
    destruct s as [|q s]; [done|]. destruct (q =? 34); [|done].
    destruct (scanstring s) as [[key r1]|] eqn:Hk; [|done].
    apply (scanstring_length _ _ _ _ (le_n _)) in Hk.
    pose proof (skip_ws_length r1) as Hws1.
    destruct (skip_ws r1) as [|colon r2] eqn:Hsk1; [done|].
    destruct (colon =? 58); [|done].
    pose proof (skip_ws_length r2) as Hws2.
    pose proof (IHv (skip_ws r2) ltac:(simpl in *; lia)) as Hv.
    destruct (scan_once f (skip_ws r2)) as [v0 r3| | |] eqn:Hs; try done.
    apply scan_consumes in Hs.
    pose proof (skip_ws_length r3) as Hws3.
    destruct (skip_ws r3) as [|c r4] eqn:Hsk3; [done|].
    destruct (c =? 125); [done|]. destruct (c =? 44); [|done].
    apply IHm. pose proof (skip_ws_length r4). simpl in *. lia.
Qed.

(** [json_loads] is total: it returns a value or raises [JSONDecodeError] or
    the [ValueError] of the digit limit, and it raises only where the scanner
    found the text malformed, found an integer too long or found more text
    after the value. *)
Lemma json_loads_total s :
  scan_once (2 * length s + 2) (skip_ws s) ≠ OutOfFuel
  ∧ (json_loads s = raise JSONDecodeError
     ∨ (∃ n, json_loads s = raise (int_digits_error n))
     ∨ ∃ v, json_loads s = ok v).
Proof.
  split.
  - apply scan_enough_fuel. pose proof (skip_ws_length s). lia.
  - unfold json_loads. repeat case_match; eauto.
Qed.

(** *** Whitespace and the pieces of the prompt *)


Lemma skip_ws_newline_indent level s : skip_ws (newline_indent level ++ s) = skip_ws s.
Proof.
  unfold newline_indent. cbn [app skip_ws is_ws N.eqb orb].
  change (is_ws 10) with true. cbn iota.
  induction (2 * level)%nat as [|n IH]; [done|]. exact IH.
Qed.

Lemma encode_basestring_ascii_cons s :
  encode_basestring_ascii s = 34 :: tl (encode_basestring_ascii s).
Proof. done. Qed.

Lemma skip_ws_encoded s r :
  skip_ws (encode_basestring_ascii s ++ r) = encode_basestring_ascii s ++ r.
Proof. done. Qed.

(** A string value. *)
Lemma scan_once_encoded f s r :
  text_ok s → scan_once (S f) (encode_basestring_ascii s ++ r) = Scanned (JStr s) r.
Proof.
  intros [Hwf Hpair]. rewrite scan_once_S.
  rewrite encode_basestring_ascii_cons. cbn [app]. change (34 =? 34) with true. cbn iota.
  by rewrite scan_encoded_string.
Qed.

(** The items of a list of strings and its closing bracket. *)
Lemma parse_items_encoded f k j cats acc r :
  cats ≠ [] → Forall text_ok cats → (length cats < f)%nat →
  parse_items f
    (join_items (44 :: newline_indent k) (map encode_basestring_ascii cats)
       ++ newline_indent j ++ 93 :: r) acc
  = Scanned (JArr (acc ++ map JStr cats)) r.
Proof.
  intros Hne Hall. revert f acc.
  induction Hall as [|c cats Hc Hall IH]; [done|]. intros f acc Hf.
  destruct f as [|f]; [simpl in Hf; lia|].
  destruct f as [|f]; [simpl in Hf; lia|].
  rewrite parse_items_S.
  destruct cats as [|c2 cats].
  - cbn [map join_items]. rewrite scan_once_encoded by done.
    rewrite skip_ws_newline_indent. cbn [skip_ws is_ws N.eqb orb].
    change (is_ws 93) with false. cbn iota. change (93 =? 93) with true. done.
  - change (join_items ?sep (map ?g (c :: c2 :: cats)))
      with (g c ++ sep ++ join_items sep (map g (c2 :: cats))).
    rewrite <- !app_assoc. rewrite scan_once_encoded by done.
    cbn [app skip_ws]. change (is_ws 44) with false. cbn iota.
    change (44 =? 93) with false. change (44 =? 44) with true. cbn iota.
    rewrite skip_ws_newline_indent.
    assert (∀ t, skip_ws (join_items (44 :: newline_indent k)
                            (map encode_basestring_ascii (c2 :: cats)) ++ t)
                 = join_items (44 :: newline_indent k)
                     (map encode_basestring_ascii (c2 :: cats)) ++ t) as ->.
    { intros t. by destruct cats. }
    rewrite IH; [|done|simpl in *; lia].
    by rewrite <- app_assoc.
Qed.

(** A list of strings as a value. *)
Lemma scan_once_str_list f level cats r :
  Forall text_ok cats → (length cats + 1 < f)%nat →
  scan_once f (dumps_str_list level cats ++ r) = Scanned (JArr (map JStr cats)) r.
Proof.
  intros Hall Hf. destruct f as [|f]; [lia|]. rewrite scan_once_S.
  destruct cats as [|c cats]; [done|].
  unfold dumps_str_list.
  set (items := join_items _ _).
  cbn [app]. change (91 =? 34) with false. change (91 =? 123) with false.
  change (91 =? 91) with true. cbn iota.
  rewrite <- !app_assoc. rewrite skip_ws_newline_indent.
  assert (∀ t, skip_ws (items ++ t) = items ++ t) as ->.
  { intros t. unfold items. by destruct cats. }
  assert (∃ rest, items ++ newline_indent level ++ [93] ++ r = 34 :: rest) as [rest Hrest].
  { unfold items. destruct cats; cbn; eauto. }
  rewrite Hrest. change (34 =? 93) with false. cbn iota. rewrite <- Hrest.
  change ([93] ++ r) with (93 :: r).
  rewrite (parse_items_encoded f (S level) level (c :: cats) []); [done|done|done|].
  simpl in *. lia.
Qed.

(** One member of the object: the key, the colon and a value that the
    scanner reads as [v]. *)
Lemma parse_members_step f key valtext v acc r :
  text_ok key →
  (∀ t, skip_ws (valtext ++ t) = valtext ++ t) →
  scan_once f (valtext ++ r) = Scanned v r →
  parse_members (S f) (encode_basestring_ascii key ++ py ": " ++ valtext ++ r) acc
  = match skip_ws r with
    | c :: r4 =>
        if c =? 125 then Scanned (JObj (dict_set key v acc)) r4
        else if c =? 44 then parse_members f (skip_ws r4) (dict_set key v acc)
        else Malformed
    | [] => Malformed
    end.
Proof.
  intros [Hwf Hpair] Hws Hv. rewrite parse_members_S.
  rewrite encode_basestring_ascii_cons. cbn [app]. change (34 =? 34) with true. cbn iota.
  rewrite scan_encoded_string by done.
  change (py ": ") with [58; 32]. cbn [app skip_ws].
  change (is_ws 58) with false. cbn iota. change (58 =? 58) with true. cbn iota.
  cbn [skip_ws]. change (is_ws 32) with true. cbn iota.
  by rewrite Hws, Hv.
Qed.

Lemma skip_ws_str_list level cats t :
  skip_ws (dumps_str_list level cats ++ t) = dumps_str_list level cats ++ t.
Proof. by destruct cats. Qed.

Lemma key_text_ok :
  text_ok (py "user_answer") ∧ text_ok (py "question") ∧ text_ok (py "existing_categories").
Proof.
  unfold text_ok, wf_str. split_and!; by vm_compute.
Qed.

Lemma not_closing_brace {A} s t (a : pystr → A) (b c : A) :
  match encode_basestring_ascii s ++ t with
  | c' :: r' => if c' =? 125 then a r' else b
  | [] => c
  end = b.
Proof. done. Qed.

(** The prompt, scanned with enough fuel. *)
Lemma scan_user_prompt f a q cats :
  text_ok a → text_ok q → Forall text_ok cats → (length cats + 6 < f)%nat →
  scan_once f (dumps_user_prompt a q cats)
  = Scanned (JObj [(py "user_answer", JStr a); (py "question", JStr q);
                   (py "existing_categories", JArr (map JStr cats))]) [].
Proof.
  intros Ha Hq Hcats Hf.
  destruct key_text_ok as (Hk1 & Hk2 & Hk3).
  do 5 (destruct f as [|f]; [lia|]).
  unfold dumps_user_prompt. rewrite scan_once_S.
  change (123 =? 34) with false. change (123 =? 123) with true. cbn iota.
  rewrite skip_ws_newline_indent, skip_ws_encoded.
  rewrite not_closing_brace.
  repeat rewrite <- app_assoc.
  rewrite (parse_members_step _ (py "user_answer") (encode_basestring_ascii a) (JStr a));
    [|done|done|by apply scan_once_encoded].
  cbn [app skip_ws]. change (is_ws 44) with false. cbn iota.
  change (44 =? 125) with false. change (44 =? 44) with true. cbn iota.
  rewrite skip_ws_newline_indent, skip_ws_encoded.
  repeat rewrite <- app_assoc.
  rewrite (parse_members_step _ (py "question") (encode_basestring_ascii q) (JStr q));
    [|done|done|by apply scan_once_encoded].
  cbn [app skip_ws]. change (is_ws 44) with false. cbn iota.
  change (44 =? 125) with false. change (44 =? 44) with true. cbn iota.
  rewrite skip_ws_newline_indent, skip_ws_encoded.
  repeat rewrite <- app_assoc.
  rewrite (parse_members_step _ (py "existing_categories") (dumps_str_list 1 cats)
             (JArr (map JStr cats)));
    [|done|apply skip_ws_str_list|apply scan_once_str_list; [done|lia]].
  rewrite skip_ws_newline_indent. cbn [skip_ws]. change (is_ws 125) with false. cbn iota.
  change (125 =? 125) with true. cbn iota.
  by vm_compute.
Qed.

Lemma join_items_length sep (items : list pystr) :
  Forall (λ x, x ≠ []) items → (length items ≤ length (join_items sep items))%nat.
Proof.
  induction 1 as [|x items Hx Hall IH]; [done|].
  destruct items as [|y items].
  - destruct x; [done|]. simpl. lia.
  - change (join_items sep (x :: y :: items)) with (x ++ sep ++ join_items sep (y :: items)).
    rewrite !length_app. destruct x; [done|]. simpl in *. lia.
Qed.

Lemma dumps_str_list_length level cats :
  (length cats ≤ length (dumps_str_list level cats))%nat.
Proof.
  destruct cats as [|c cats]; [apply Nat.le_0_l|].
  unfold dumps_str_list. cbn [length]. rewrite !length_app.
  pose proof (join_items_length (44 :: newline_indent (S level))
                (map encode_basestring_ascii (c :: cats))) as Hlen.
  rewrite length_map in Hlen.
  assert (Forall (λ x : pystr, x ≠ []) (map encode_basestring_ascii (c :: cats))) as Hall.
  { apply Forall_forall. intros x Hx. change (map ?f ?l) with (f <$> l) in Hx.
    apply list_elem_of_fmap in Hx as (y & -> & _). done. }
  specialize (Hlen Hall). cbn [map length] in *. lia.
Qed.

Lemma dumps_user_prompt_length a q cats :
  (length cats + 6 < 2 * length (dumps_user_prompt a q cats) + 2)%nat.
Proof.
  unfold dumps_user_prompt.
  repeat (rewrite length_app || rewrite length_cons).
  pose proof (dumps_str_list_length 1 cats).
  assert (length (encode_basestring_ascii (py "user_answer")) = 13%nat) as -> by done.
  lia.
Qed.

(** [json.loads] of the prompt gives back what the prompt was built from. *)
Lemma json_loads_user_prompt a q cats :
  text_ok a → text_ok q → Forall text_ok cats →
  json_loads (dumps_user_prompt a q cats)
  = ok (JObj [(py "user_answer", JStr a); (py "question", JStr q);
              (py "existing_categories", JArr (map JStr cats))]).
Proof.
  intros Ha Hq Hcats. unfold json_loads.
  assert (skip_ws (dumps_user_prompt a q cats) = dumps_user_prompt a q cats) as -> by done.
  rewrite (scan_user_prompt _ a q cats Ha Hq Hcats (dumps_user_prompt_length a q cats)).
  done.
Qed.


(** C6, as amended. For every answer, every question and every list of
    categories in which no high surrogate is directly followed by a low
    surrogate (every text without lone surrogates is such), the payload is
    built, and the [user_prompt] in its [contents], read with [json.loads],
    gives back exactly the answer, the question and the list of categories. *)
Theorem prompt_round_trip (a q : pystr) (cats : list pystr) :
  text_ok a → text_ok q → Forall text_ok cats →
  ∃ payload user_prompt,
    get_gemini_api_payload (JStr a) q cats = ok payload
    ∧ payload_user_prompt payload = Some user_prompt
    ∧ json_loads user_prompt
      = ok (JObj [(py "user_answer", JStr a); (py "question", JStr q);
                  (py "existing_categories", JArr (map JStr cats))]).
Proof.
  intros Ha Hq Hcats.
  assert (∃ schema, get_response_schema = ok schema) as [schema Hs]
    by (vm_compute; eauto).
  eexists _, (dumps_user_prompt a q cats). split_and!.
  - unfold get_gemini_api_payload. cbn [ClassificationRequest validate_str].
    rewrite Hs. cbn [bind]. reflexivity.
  - done.
  - by apply json_loads_user_prompt.
Qed.


(** * Further properties of the code *)

(** ** [classify_learning_objective]: what a result requires *)

Lemma classify_except_ok {A} (m : result A) a : classify_except m = ok a ↔ m = ok a.
Proof. destruct m as [a'|[]]; simpl; split; intros; simplify_eq; done. Qed.

(** X1. The service returns a result exactly when the provider answered with a
    status outside 400 to 599 and a JSON body, the text at
    candidates[0].content.parts[0].text is a text other than the empty one and
    the two braces, this text is a JSON object, and the model accepts it; the
    decoder has read both the body and the text within the limits of the
    interpreter. *)
Theorem call_model_result (requests_post : pystr → json → http_outcome)
    (full_api_url : pystr) (payload : json) (r : ClassificationResult) :
  call_model requests_post full_api_url payload = ok r ↔
  ∃ status body data text kwargs,
    requests_post full_api_url payload = Response status body
    ∧ (status < 400 ∨ 600 <= status)
    ∧ json_loads_at (response_recursion python) body = ok data
    ∧ extract_text data = ok (JStr text)
    ∧ text ≠ [] ∧ text ≠ py "{}"
    ∧ json_loads_at (output_recursion python) text = ok (JObj kwargs)
    ∧ ClassificationResult_init kwargs = ok r.
Proof.
  unfold call_model, post_json. split.
  - destruct (requests_post full_api_url payload) as [|status body] eqn:Hpost; [done|].
    destruct ((400 <=? status) && (status <? 600)) eqn:Hstatus; [done|].
    destruct (json_loads_at _ body) as [data|[]] eqn:Hbody; try done. cbn [bind].
    destruct (extract_text data) as [text|] eqn:Htext; [|done]. cbn [bind].
    destruct (negb (truthy text) || py_eq_str text (py "{}")) eqn:Hempty; [done|].
    apply orb_false_iff in Hempty as [Htruthy Hbraces].
    unfold parse_model_output.
    destruct text as [| | | |s| |]; try done. cbn [bind].
    destruct (json_loads_at _ s) as [[| | | | | |kwargs]|] eqn:Hs; try done. cbn [bind].
    intros Hr. exists status, body, data, s, kwargs.
    split_and!; try done.
    + apply andb_false_iff in Hstatus as [H%N.leb_gt|H%N.ltb_ge]; [by left|by right].
    + intros ->. done.
    + intros ->. cbn [py_eq_str] in Hbraces. by rewrite bool_decide_eq_true_2 in Hbraces.
  - intros (status & body & data & text & kwargs & -> & Hstatus & -> & Ht & Hne & Hnb & Hs & Hr).
    replace ((400 <=? status) && (status <? 600)) with false.
    2:{ symmetry. apply andb_false_iff.
        destruct Hstatus; [left; by apply N.leb_gt|right; by apply N.ltb_ge]. }
    cbn [bind]. rewrite Ht. cbn [bind truthy py_eq_str].
    rewrite !bool_decide_eq_false_2 by done. cbn [negb orb].
    unfold parse_model_output. rewrite Hs. cbn [bind]. done.
Qed.

(** ** [classify_objective]: the successful request *)

Lemma call_model_accepted (requests_post : pystr → json → http_outcome) url payload r :
  call_model requests_post url payload = ok r →
  ∃ kwargs, ClassificationResult_init kwargs = ok r.
Proof.
  unfold call_model, parse_model_output.
  destruct (post_json _ _ _) as [data|]; [|done]. cbn [bind].
  destruct (extract_text data) as [text|]; [|done]. cbn [bind].
  destruct (_ || _); [done|].
  destruct text as [| | | |s| |]; try done. cbn [bind].
  destruct (json_loads_at _ s) as [[| | | | | |kwargs]|]; try done. cbn [bind]. eauto.
Qed.

(** The two ways a request ends: without a 200, the globals and the broadcast
    log as they were, or with a 200 and one record more. *)
Lemma classify_objective_cases (requests_post : pystr → json → http_outcome)
    (key : option pystr) (sess : session) (req : get_json) (now : Z) (st : app_state) :
  (reply_status (fst (classify_objective requests_post key sess req now st)) ≠ 200
   ∧ user_responses (snd (classify_objective requests_post key sess req now st))
     = user_responses st
   ∧ current_question (snd (classify_objective requests_post key sess req now st))
     = current_question st
   ∧ emitted (snd (classify_objective requests_post key sess req now st)) = emitted st)
  ∨ ∃ k d a payload r,
      key = Some k ∧ k ≠ []
      ∧ req = Returned (JObj d)
      ∧ dict_get (py "answer") d = Some (JStr a)
      ∧ get_gemini_api_payload (JStr a) (current_question st)
          (existing_categories_of (user_responses st)) = ok payload
      ∧ call_model requests_post (GEMINI_API_URL ++ py "?key=" ++ k) payload = ok r
      ∧ classify_objective requests_post key sess req now st
        = (mkReply (model_dump r) 200,
           mkState
             (user_responses st
              ++ [mkRecord (py "res-" ++ str_of_N (N.of_nat (length (user_responses st)) + 1))
                    (default (py "anonymous") (user_id sess)) (JStr a) r now])
             (current_question st)
             (posted st ++ [(GEMINI_API_URL ++ py "?key=" ++ k, payload)])
             (emitted st
              ++ [(current_question st,
                   user_responses st
                   ++ [mkRecord (py "res-" ++ str_of_N (N.of_nat (length (user_responses st)) + 1))
                         (default (py "anonymous") (user_id sess)) (JStr a) r now])])).
Proof.
  unfold classify_objective.
  destruct key as [[|c k]|]; [by left| |by left].
  unfold classify_objective_body.
  destruct req as [data| |]; [|by left..].
  destruct (negb (truthy data)); [by left|].
  destruct data as [| | | |s|l|d]; try by left.
  - cbn [py_contains]. destruct (is_infix _ _); by left.
  - cbn [py_contains]. destruct (existsb _ _); by left.
  - cbn [py_contains py_getitem].
    destruct (bool_decide _); [|by left].
    destruct (dict_get (py "answer") d) as [objective|] eqn:Hd; [|by left].
    cbn [bind].
    destruct objective as [| | | |a|l|d']; try by left.
    unfold classify_learning_objective. cbn [py_sliceable bind].
    destruct (get_gemini_api_payload (JStr a) _ _) as [payload|e] eqn:Hp.
    2:{ cbn [classify_except]. destruct e; by left. }
    destruct (classify_except (call_model _ _ _)) as [r|e] eqn:Hr.
    2:{ destruct e; by left. }
    apply (proj1 (classify_except_ok _ _)) in Hr.
    right. exists (c :: k), d, a, payload, r. cbn [posted]. by split_and!.
Qed.

(** X2. A 200 is sent only for a JSON object whose answer is a text, with a key
    set, after one request to the provider whose output the model accepted.
    Then exactly one record is appended, numbered one more than the length of
    the history, with the user of the session or anonymous, the answer as it
    came, the timestamp of the call; the question is untouched; one
    [state_update] with the new history is broadcast; the body of the reply
    is the dump of the stored classification. *)
Theorem classification_recorded (requests_post : pystr → json → http_outcome)
    (key : option pystr) (sess : session) (req : get_json) (now : Z) (st : app_state) :
  reply_status (fst (classify_objective requests_post key sess req now st)) = 200 →
  ∃ k d a payload r,
    key = Some k ∧ k ≠ []
    ∧ req = Returned (JObj d)
    ∧ dict_get (py "answer") d = Some (JStr a)
    ∧ get_gemini_api_payload (JStr a) (current_question st)
        (existing_categories_of (user_responses st)) = ok payload
    ∧ call_model requests_post (GEMINI_API_URL ++ py "?key=" ++ k) payload = ok r
    ∧ classify_objective requests_post key sess req now st
      = (mkReply (model_dump r) 200,
         mkState
           (user_responses st
            ++ [mkRecord (py "res-" ++ str_of_N (N.of_nat (length (user_responses st)) + 1))
                  (default (py "anonymous") (user_id sess)) (JStr a) r now])
           (current_question st)
           (posted st ++ [(GEMINI_API_URL ++ py "?key=" ++ k, payload)])
           (emitted st
            ++ [(current_question st,
                 user_responses st
                 ++ [mkRecord (py "res-" ++ str_of_N (N.of_nat (length (user_responses st)) + 1))
                       (default (py "anonymous") (user_id sess)) (JStr a) r now])])).
Proof.
  intros Hstatus.
  by destruct (classify_objective_cases requests_post key sess req now st) as [[? _]|?].
Qed.


(** ** [classify_objective]: the replies *)

(** X3. Whatever the request and the provider, the reply is the 200 with the dump
    of a classification or one of four fixed error bodies with 400 or 500.
    The 422 of the [ValidationError] clause is never sent, and no text of an
    exception (which may hold the URL with the key) reaches the caller. *)
Theorem classify_objective_replies (requests_post : pystr → json → http_outcome)
    (key : option pystr) (sess : session) (req : get_json) (now : Z) (st : app_state) :
  (∃ res, fst (classify_objective requests_post key sess req now st)
          = mkReply (model_dump res) 200)
  ∨ fst (classify_objective requests_post key sess req now st)
    ∈ [error_reply "Server is not configured for AI classification." 500;
       error_reply "Missing required field 'answer'" 400;
       error_reply "AI classification failed due to internal schema mismatch." 500;
       error_reply "An internal server error occurred." 500].
Proof.
  unfold classify_objective.
  destruct key as [[|c k]|]; cbn [fst]; [right; set_solver| |right; set_solver].
  destruct (classify_objective_body _ _ _ _ _ _) as [[r|e] st'] eqn:Hb; cbn [fst].
  - destruct (classify_objective_body_reply _ _ _ _ _ _ _ _ Hb)
      as [[-> _]|(Hr & rec & _ & Hbody)].
    + right. set_solver.
    + left. exists (classification rec). destruct r as [body status].
      cbn [reply_status reply_body] in *. by subst.
  - apply classify_objective_body_raise_kind in Hb.
    right. destruct e; cbn [fst]; try done; set_solver.
Qed.

(** ** The process over a sequence of calls *)

(** What one call does to the globals and to the broadcast log: nothing, or
    it appends one record, or it empties the history, or it sets the
    question; each change is broadcast. *)
Lemma serve_cases key c st st' :
  serve key c st = Some st' →
  (user_responses st' = user_responses st
   ∧ current_question st' = current_question st
   ∧ emitted st' = emitted st)
  ∨ (∃ rec,
       stored_ok rec
       ∧ rec_id rec = py "res-" ++ str_of_N (N.of_nat (length (user_responses st)) + 1)
       ∧ user_responses st' = user_responses st ++ [rec]
       ∧ current_question st' = current_question st
       ∧ emitted st' = emitted st ++ [(current_question st', user_responses st')])
  ∨ (by_admin c = true
     ∧ user_responses st' = []
     ∧ current_question st' = current_question st
     ∧ emitted st' = emitted st ++ [(current_question st', user_responses st')])
  ∨ (by_admin c = true
     ∧ user_responses st' = user_responses st
     ∧ emitted st' = emitted st ++ [(current_question st', user_responses st')]).
Proof.
  destruct c as [requests_post sess req now|sess|sess data|]; cbn [serve].
  - intros [= <-].
    destruct (classify_objective_cases requests_post key sess req now st)
      as [(_ & H1 & H2 & H3)|(k & d & a & payload & r & _ & _ & _ & _ & _ & Hr & ->)].
    + by left.
    + right; left.
      exists (mkRecord (py "res-" ++ str_of_N (N.of_nat (length (user_responses st)) + 1))
                (default (py "anonymous") (user_id sess)) (JStr a) r now).
      cbn [snd user_responses current_question emitted rec_id].
      split_and!; try reflexivity.
      destruct (call_model_accepted _ _ _ _ Hr) as [kwargs Hk].
      apply ClassificationResult_init_ok in Hk as (_ & _ & v & _ & _ & Hge & Hle).
      unfold stored_ok. cbn [answer classification]. eauto.
  - intros [= <-]. unfold handle_clear_data. cbn [by_admin].
    destruct (logged_in sess); [|by left]. right; right; left. done.
  - unfold handle_set_question. cbn [by_admin].
    destruct (logged_in sess); [|intros [= <-]; by left].
    destruct (py_get data (py "question") JNull) as [question_text|]; [|intros [= <-]; by left].
    destruct (truthy question_text); [|intros [= <-]; by left].
    destruct question_text; try done.
    intros [= <-]. right; right; right. done.
  - intros [= <-]. by left.
Qed.

(** A sequence of calls in which no logged-in session sets a question that
    counts as true and is not a text is served to its end. *)
Lemma serve_defined key c st :
  question_is_text c = true → ∃ st1, serve key c st = Some st1.
Proof.
  destruct c as [| |sess data|]; cbn [serve question_is_text]; eauto.
  unfold handle_set_question. destruct (logged_in sess); [|by eauto].
  cbn [negb orb].
  destruct (py_get data (py "question") JNull) as [question_text|]; [|by eauto].
  destruct (truthy question_text); [|by eauto]. cbn [negb orb].
  destruct question_text; try done; eauto.
Qed.

Lemma serve_all_defined key calls st :
  forallb question_is_text calls = true → ∃ st', serve_all key calls st = Some st'.
Proof.
  revert st. induction calls as [|c calls IH]; intros st Hcalls; cbn [serve_all].
  - by exists st.
  - cbn [forallb] in Hcalls. apply andb_true_iff in Hcalls as [Hc Hcalls].
    destruct (serve_defined key c st Hc) as [st1 ->]. cbn [mbind option_bind].
    by apply IH.
Qed.

Lemma str_of_pos_aux_value fuel :
  ∀ n acc, n < 2 ^ N.of_nat fuel →
  ∃ ds, str_of_pos_aux fuel n acc = ds ++ acc
        ∧ fold_left (λ a c, a * 10 + (c - 48)) ds 0 = n.
Proof.
  induction fuel as [|fuel IH]; intros n acc Hn.
  - exists []. split; [done|]. cbn in *. lia.
  - cbn [str_of_pos_aux]. destruct (N.eqb_spec (n / 10) 0) as [Hq|Hq].
    + exists [digit_char (n mod 10)]. split; [done|].
      apply N.div_small_iff in Hq; [|done].
      rewrite N.mod_small by done. cbn. unfold digit_char. lia.
    + destruct (IH (n / 10) (digit_char (n mod 10) :: acc)) as (ds & Heq & Hval).
      { apply N.Div0.div_lt_upper_bound.
        rewrite Nat2N.inj_succ, N.pow_succ_r' in Hn.
        generalize dependent (2 ^ N.of_nat fuel). intros p _ Hn. lia. }
      exists (ds ++ [digit_char (n mod 10)]). rewrite Heq, <- app_assoc.
      split; [done|]. rewrite fold_left_app. cbn. rewrite Hval. unfold digit_char.
      generalize (N.Div0.div_mod n 10). generalize (n / 10), (n mod 10). lia.
Qed.

(** [str] of a number tells the number. *)
Lemma str_of_N_inj n m : str_of_N n = str_of_N m → n = m.
Proof.
  assert (∀ k, k < 2 ^ N.of_nat (S (N.to_nat (N.log2 k)))) as Hfuel.
  { intros k. rewrite Nat2N.inj_succ, N2Nat.id.
    destruct (N.eq_dec k 0) as [->|Hk]; [done|].
    apply N.log2_spec. lia. }
  unfold str_of_N.
  destruct (str_of_pos_aux_value _ n [] (Hfuel n)) as (ds & -> & <-).
  destruct (str_of_pos_aux_value _ m [] (Hfuel m)) as (ds' & -> & <-).
  rewrite !app_nil_r. by intros ->.
Qed.

Lemma response_id_inj : Inj (=) (=) response_id.
Proof.
  intros i j H. unfold response_id in H.
  apply app_inv_head, str_of_N_inj in H. lia.
Qed.

Lemma ids_in_sequence_app responses rec :
  ids_in_sequence responses →
  rec_id rec = py "res-" ++ str_of_N (N.of_nat (length responses) + 1) →
  ids_in_sequence (responses ++ [rec]).
Proof.
  unfold ids_in_sequence. intros Hids Hrec.
  rewrite map_app, length_app, seq_app, map_app, Hids. cbn [length map seq Nat.add].
  f_equal. rewrite Hrec. unfold response_id. do 3 f_equal. lia.
Qed.

Lemma stored_ok_kept key calls st st' :
  Forall stored_ok (user_responses st) →
  serve_all key calls st = Some st' →
  Forall stored_ok (user_responses st').
Proof.
  revert st. induction calls as [|c calls IH]; intros st Hok; cbn [serve_all].
  - by intros [= <-].
  - destruct (serve key c st) as [st1|] eqn:Hc; [|done]. cbn [mbind option_bind].
    apply IH.
    destruct (serve_cases _ _ _ _ Hc)
      as [(H & _)|[(rec & Hrec & _ & H & _)|[(_ & H & _)|(_ & H & _)]]]; rewrite H.
    + done.
    + apply Forall_app. split; [done|]. by apply Forall_singleton.
    + constructor.
    + done.
Qed.

(** X4. Every sequence of calls in which a logged-in session sets the question
    to nothing but a text (or to a value that counts as false, which the code
    ignores) is served to its end, whatever the provider answers, and after
    it every record of the history holds a text as its answer and a
    confidence score within the bounds of the model, when the records before
    it did: what the validation let through is what is stored, and nothing
    else is. *)
Theorem stored_records_valid (key : option pystr) (calls : list call) (st : app_state) :
  Forall stored_ok (user_responses st) →
  forallb question_is_text calls = true →
  ∃ st', serve_all key calls st = Some st'
         ∧ Forall stored_ok (user_responses st').
Proof.
  intros Hok Hcalls. destruct (serve_all_defined key calls st Hcalls) as [st' Hrun].
  exists st'. split; [done|]. by eapply stored_ok_kept.
Qed.


Lemma ids_in_sequence_kept key calls st st' :
  ids_in_sequence (user_responses st) →
  serve_all key calls st = Some st' →
  ids_in_sequence (user_responses st') ∧ NoDup (map rec_id (user_responses st')).
Proof.
  intros Hids Hrun.
  assert (ids_in_sequence (user_responses st')) as Hids'.
  { revert st Hids Hrun. induction calls as [|c calls IH]; intros st Hids; cbn [serve_all].
    - by intros [= <-].
    - destruct (serve key c st) as [st1|] eqn:Hc; [|done]. cbn [mbind option_bind].
      apply IH.
      destruct (serve_cases _ _ _ _ Hc)
        as [(H & _)|[(rec & _ & Hrec & H & _)|[(_ & H & _)|(_ & H & _)]]]; rewrite H.
      + done.
      + by apply ids_in_sequence_app.
      + reflexivity.
      + done. }
  split; [done|]. rewrite Hids'.
  apply (NoDup_fmap_2 _ (Inj0:=response_id_inj)), NoDup_seq.
Qed.

(** X5. Every sequence of calls in which a logged-in session sets the question
    to nothing but a text (or to a value that counts as false) is served to
    its end, and after it the records of the history are numbered res-1,
    res-2, ... in their order, so no two of them share an identifier, when
    the records before it were; after the history is cleared the numbers
    start again at 1. *)
Theorem response_ids_in_sequence (key : option pystr) (calls : list call) (st : app_state) :
  ids_in_sequence (user_responses st) →
  forallb question_is_text calls = true →
  ∃ st', serve_all key calls st = Some st'
         ∧ ids_in_sequence (user_responses st')
         ∧ NoDup (map rec_id (user_responses st')).
Proof.
  intros Hids Hcalls. destruct (serve_all_defined key calls st Hcalls) as [st' Hrun].
  exists st'. split; [done|]. by eapply ids_in_sequence_kept.
Qed.


Lemma in_sync_kept key calls st st' :
  serve_all key calls st = Some st' →
  (emitted st' = emitted st
   ∧ user_responses st' = user_responses st
   ∧ current_question st' = current_question st)
  ∨ in_sync st'.
Proof.
  assert (∀ st1,
            (emitted st1 = emitted st
             ∧ user_responses st1 = user_responses st
             ∧ current_question st1 = current_question st)
            ∨ in_sync st1 →
            serve_all key calls st1 = Some st' →
            (emitted st' = emitted st
             ∧ user_responses st' = user_responses st
             ∧ current_question st' = current_question st)
            ∨ in_sync st') as Hgen.
  { induction calls as [|c calls IH]; intros st1 Hinv; cbn [serve_all].
    - by intros [= <-].
    - destruct (serve key c st1) as [st2|] eqn:Hc; [|done]. cbn [mbind option_bind].
      apply IH. unfold in_sync, handle_connect in *.
      destruct (serve_cases _ _ _ _ Hc)
        as [(H1 & H2 & H3)|[(rec & _ & _ & _ & _ & H)|[(_ & _ & _ & H)|(_ & _ & H)]]].
      + rewrite H1, H2, H3. done.
      + right. rewrite H. apply last_snoc.
      + right. rewrite H. apply last_snoc.
      + right. rewrite H. apply last_snoc. }
  apply Hgen. by left.
Qed.

(** X6. The globals change only together with a broadcast of their new value:
    every sequence of calls in which a logged-in session sets the question to
    nothing but a text (or to a value that counts as false) is served to its
    end, and after it either nothing was broadcast and the question and the
    history are as before, or the last [state_update] broadcast carries the
    question and the history as they are now, which is what [handle_connect]
    sends to a client that connects. *)
Theorem broadcasts_in_sync (key : option pystr) (calls : list call) (st : app_state) :
  forallb question_is_text calls = true →
  ∃ st', serve_all key calls st = Some st'
         ∧ ((emitted st' = emitted st
             ∧ user_responses st' = user_responses st
             ∧ current_question st' = current_question st)
            ∨ in_sync st').
Proof.
  intros Hcalls. destruct (serve_all_defined key calls st Hcalls) as [st' Hrun].
  exists st'. split; [done|]. by eapply in_sync_kept.
Qed.


(** X7. Without a socket event of a logged-in session the history only grows and
    the question stays: every such sequence of calls is served, the records
    that were there are still there, in front and in their order, and the
    question is the one there was. *)
Theorem visitors_only_append (key : option pystr) (calls : list call) (st : app_state) :
  forallb (λ c, negb (by_admin c)) calls = true →
  ∃ st', serve_all key calls st = Some st'
         ∧ current_question st' = current_question st
         ∧ user_responses st `prefix_of` user_responses st'.
Proof.
  revert st. induction calls as [|c calls IH]; intros st Hcalls; cbn [serve_all].
  - by exists st.
  - cbn [forallb] in Hcalls. apply andb_true_iff in Hcalls as [Hc Hcalls].
    apply negb_true_iff in Hc.
    assert (∃ st1, serve key c st = Some st1) as [st1 Hst1].
    { destruct c as [| |sess data|]; cbn [serve]; eauto.
      cbn [by_admin] in Hc. unfold handle_set_question. rewrite Hc. eauto. }
    rewrite Hst1. cbn [mbind option_bind].
    destruct (IH st1 Hcalls) as (st' & -> & Hq & Hpre).
    exists st'. split; [done|].
    destruct (serve_cases _ _ _ _ Hst1)
      as [(H1 & H2 & _)|[(rec & _ & _ & H1 & H2 & _)|[(Ha & _)|(Ha & _)]]];
      try congruence.
    + rewrite Hq, H2. rewrite H1 in Hpre. done.
    + rewrite Hq, H2. rewrite H1 in Hpre. split; [done|].
      etrans; [|exact Hpre]. by apply prefix_app_r.
Qed.


(** ** The categories after one more record *)

(** X8. When a record is appended, the list of categories of the next prompt is
    the one before if the domain of the record was in it; otherwise the
    domain is put in at its place and the other names keep their order. *)
Theorem categories_after_append (responses : list response_record) (rec : response_record) :
  (primaryDomain (classification rec) ∈ existing_categories_of responses
   ∧ existing_categories_of (responses ++ [rec]) = existing_categories_of responses)
  ∨ ((primaryDomain (classification rec) ∉ existing_categories_of responses)
     ∧ ∃ l1 l2,
         existing_categories_of responses = l1 ++ l2
         ∧ existing_categories_of (responses ++ [rec])
           = l1 ++ primaryDomain (classification rec) :: l2).
Proof.
  unfold existing_categories_of.
  set (d := primaryDomain (classification rec)).
  rewrite map_app. cbn [map]. fold d. rewrite list_to_set_snoc_L.
  set (X := (list_to_set (map (λ res, primaryDomain (classification res)) responses)
             : gset pystr)).
  assert (∀ c, c ∈ merge_sort str_le (elements X) ↔ c ∈ X) as Hin.
  { intros c. by rewrite merge_sort_Permutation, elem_of_elements. }
  destruct (decide (d ∈ X)) as [Hd|Hd].
  - left. split; [by apply Hin|].
    rewrite (union_comm_L X), (subseteq_union_1_L {[d]} X); [done|].
    by apply singleton_subseteq_l.
  - right. split; [by rewrite Hin|].
    assert (merge_sort str_le (elements (X ∪ {[d]})) ≡ₚ d :: merge_sort str_le (elements X))
      as Hp.
    { rewrite !merge_sort_Permutation, (union_comm_L X).
      by apply elements_union_singleton. }
    apply Permutation_cons_inv_r in Hp as (k1 & k2 & Hnew & Hold).
    exists k1, k2. split; [|done].
    apply (StronglySorted_unique str_le); [| |done].
    + apply StronglySorted_merge_sort; apply _.
    + pose proof (StronglySorted_merge_sort str_le (elements (X ∪ {[d]}))) as Hs.
      rewrite Hnew in Hs.
      apply StronglySorted_app in Hs as (H12 & H1 & H2).
      apply StronglySorted_cons in H2 as [_ H2].
      apply StronglySorted_app_2; [|done..].
      intros x1 x2 Hx1 Hx2. apply H12; [done|]. by right.
Qed.

(** ** The pages and the session *)

Lemma browse_snoc U P rqs rq sess :
  browse U P (rqs ++ [rq]) sess = snd (respond U P rq (browse U P rqs sess)).
Proof. unfold browse. by rewrite fold_left_app. Qed.

(** No handler writes [user_id] into the session. *)
Lemma browse_user_id U P rqs sess : user_id (browse U P rqs sess) = user_id sess.
Proof.
  induction rqs as [|rq rqs IH] using rev_ind; [done|].
  rewrite browse_snoc, <- IH.
  destruct rq; cbn [respond snd logout]; try done.
  unfold handle_login. by destruct (_ && _).
Qed.

(** X9. A browser whose session is not logged in and which never posts the
    username and the password of the admin stays out: after any sequence of
    its requests the session is not logged in, the admin panel answers with
    the redirect to the login page, and its socket events leave the state of
    the process as it is. *)
Theorem no_admin_without_credentials (ADMIN_USERNAME ADMIN_PASSWORD : pystr)
    (rqs : list page_request) (sess : session) :
  logged_in sess = false →
  forallb (λ rq, negb (is_login_with ADMIN_USERNAME ADMIN_PASSWORD rq)) rqs = true →
  logged_in (browse ADMIN_USERNAME ADMIN_PASSWORD rqs sess) = false
  ∧ serve_admin_panel (browse ADMIN_USERNAME ADMIN_PASSWORD rqs sess) = Redirect (py "/")
  ∧ ∀ data st,
      handle_clear_data (browse ADMIN_USERNAME ADMIN_PASSWORD rqs sess) st = st
      ∧ handle_set_question (browse ADMIN_USERNAME ADMIN_PASSWORD rqs sess) data st
        = QuestionState st.
Proof.
  intros Hsess Hrqs.
  assert (logged_in (browse ADMIN_USERNAME ADMIN_PASSWORD rqs sess) = false) as Hout.
  { induction rqs as [|rq rqs IH] using rev_ind; [done|].
    rewrite forallb_app in Hrqs. apply andb_true_iff in Hrqs as [Hrqs Hrq].
    cbn [forallb] in Hrq. rewrite andb_true_r in Hrq. apply negb_true_iff in Hrq.
    specialize (IH Hrqs). rewrite browse_snoc.
    destruct rq; cbn [respond snd logout logged_in]; try done.
    unfold handle_login. cbn [is_login_with] in Hrq. by rewrite Hrq. }
  unfold serve_admin_panel, handle_clear_data, handle_set_question.
  rewrite Hout. done.
Qed.


(** X10. After a login with the username and the password of the admin, the admin
    panel is served and stays served over any further requests other than a
    logout, a failed login included; a logout ends it. *)
Theorem login_until_logout (ADMIN_USERNAME ADMIN_PASSWORD : pystr)
    (before after : list page_request) (sess : session) :
  GetLogout ∉ after →
  serve_admin_panel
    (browse ADMIN_USERNAME ADMIN_PASSWORD
       (before ++ PostLogin (Some ADMIN_USERNAME) (Some ADMIN_PASSWORD) :: after) sess)
  = SendFile (py "admin.html")
  ∧ serve_admin_panel
      (browse ADMIN_USERNAME ADMIN_PASSWORD
         (before ++ PostLogin (Some ADMIN_USERNAME) (Some ADMIN_PASSWORD) :: after
          ++ [GetLogout]) sess)
    = Redirect (py "/").
Proof.
  intros Hafter.
  assert (logged_in
            (browse ADMIN_USERNAME ADMIN_PASSWORD
               (before ++ PostLogin (Some ADMIN_USERNAME) (Some ADMIN_PASSWORD) :: after) sess)
          = true) as Hin.
  { induction after as [|rq after IH] using rev_ind.
    - rewrite browse_snoc. cbn [respond]. unfold handle_login.
      by rewrite !bool_decide_eq_true_2.
    - rewrite not_elem_of_app in Hafter. destruct Hafter as [Hafter Hrq].
      specialize (IH Hafter).
      rewrite app_comm_cons, app_assoc, browse_snoc.
      destruct rq; cbn [respond snd]; try done.
      + unfold handle_login. by destruct (_ && _).
      + exfalso. apply Hrq. by left. }
  split.
  - unfold serve_admin_panel. by rewrite Hin.
  - rewrite app_comm_cons, app_assoc, browse_snoc. done.
Qed.


(** X11. A session made by the handlers of the pages from one without a
    [user_id] has none: every record stored for it is attributed to
    anonymous, logged in or not. *)
Theorem records_are_anonymous (ADMIN_USERNAME ADMIN_PASSWORD : pystr)
    (rqs : list page_request) (sess : session)
    (requests_post : pystr → json → http_outcome) (key : option pystr)
    (req : get_json) (now : Z) (st : app_state) :
  user_id sess = None →
  reply_status
    (fst (classify_objective requests_post key (browse ADMIN_USERNAME ADMIN_PASSWORD rqs sess)
            req now st)) = 200 →
  ∃ rec,
    user_responses
      (snd (classify_objective requests_post key
              (browse ADMIN_USERNAME ADMIN_PASSWORD rqs sess) req now st))
    = user_responses st ++ [rec]
    ∧ userId rec = py "anonymous".
Proof.
  intros Hid Hstatus.
  destruct (classify_objective_cases requests_post key
              (browse ADMIN_USERNAME ADMIN_PASSWORD rqs sess) req now st)
    as [[? _]|(k & d & a & payload & r & _ & _ & _ & _ & _ & _ & Heq)]; [done|].
  rewrite Heq. cbn [snd user_responses]. eexists. split; [reflexivity|].
  cbn [userId]. by rewrite browse_user_id, Hid.
Qed.


(** ** A request that reaches the provider *)

(** A request with a text as its answer, served with a key: one request is
    posted, and the reply follows what the service makes of the response. *)
Lemma classify_objective_sends (requests_post : pystr → json → http_outcome)
    k sess d a now st payload :
  k ≠ [] →
  dict_get (py "answer") d = Some (JStr a) →
  get_gemini_api_payload (JStr a) (current_question st)
    (existing_categories_of (user_responses st)) = ok payload →
  ∃ r, classify_objective requests_post (Some k) sess (Returned (JObj d)) now st
       = (r, snd (classify_objective requests_post (Some k) sess (Returned (JObj d)) now st))
    ∧ posted (snd (classify_objective requests_post (Some k) sess (Returned (JObj d)) now st))
      = posted st ++ [(GEMINI_API_URL ++ py "?key=" ++ k, payload)]
    ∧ match call_model requests_post (GEMINI_API_URL ++ py "?key=" ++ k) payload with
      | inl res => r = mkReply (model_dump res) 200
      | inr ValidationError | inr (RequestException _) | inr (RuntimeError _ _)
      | inr RecursionError =>
          r = error_reply "AI classification failed due to internal schema mismatch." 500
      | inr _ => r = error_reply "An internal server error occurred." 500
      end.
Proof.
  intros Hk Hd Hp. unfold classify_objective, classify_objective_body.
  destruct k as [|c k]; [done|].
  assert (truthy (JObj d) = true) as -> by (by destruct d).
  cbn [negb py_contains py_getitem]. rewrite Hd.
  rewrite bool_decide_eq_true_2 by eauto.
  cbn [bind py_sliceable]. unfold classify_learning_objective. rewrite Hp.
  destruct (call_model _ _ _) as [res|e]; [|destruct e]; cbn [classify_except];
    eexists; split_and!; reflexivity.
Qed.


(** X12. The defaults of line 127 cover a missing key, not a list that is there
    and empty, nor a value of another kind: when the body of the provider is
    JSON and the walk to candidates[0].content.parts[0].text raises, the
    exception passes the service untouched, the caller gets the 500 with the
    generic message, and nothing is stored or broadcast. *)
Theorem malformed_envelope_reply (requests_post : pystr → json → http_outcome)
    (k : pystr) (sess : session) (d : list (pystr * json)) (a : pystr) (now : Z)
    (st : app_state) (status : N) (body : pystr) (data : json) (e : exn) :
  k ≠ [] →
  dict_get (py "answer") d = Some (JStr a) →
  (∀ url payload, requests_post url payload = Response status body) →
  status < 400 ∨ 600 <= status →
  json_loads_at (response_recursion python) body = ok data →
  extract_text data = raise e →
  fst (classify_objective requests_post (Some k) sess (Returned (JObj d)) now st)
  = error_reply "An internal server error occurred." 500
  ∧ user_responses (snd (classify_objective requests_post (Some k) sess (Returned (JObj d)) now st))
    = user_responses st
  ∧ emitted (snd (classify_objective requests_post (Some k) sess (Returned (JObj d)) now st))
    = emitted st.
Proof.
  intros Hk Hd Hpost Hstatus Hbody Hext.
  destruct (get_gemini_api_payload_text a (current_question st)
              (existing_categories_of (user_responses st))) as [payload Hp].
  destruct (classify_objective_sends requests_post k sess d a now st payload Hk Hd Hp)
    as (r & Heq & _ & Hr).
  assert (call_model requests_post (GEMINI_API_URL ++ py "?key=" ++ k) payload = raise e)
    as Hcall.
  { unfold call_model, post_json. rewrite Hpost.
    replace ((400 <=? status) && (status <? 600)) with false.
    2:{ symmetry. apply andb_false_iff.
        destruct Hstatus; [left; by apply N.leb_gt|right; by apply N.ltb_ge]. }
    rewrite Hbody. cbn [bind]. by rewrite Hext. }
  rewrite Hcall in Hr.
  assert (r = error_reply "An internal server error occurred." 500) as ->.
  { destruct (extract_text_raise _ _ Hext) as [->|[->|[->| ->]]]; exact Hr. }
  destruct (classify_objective_cases requests_post (Some k) sess (Returned (JObj d)) now st)
    as [(_ & H1 & _ & H3)|(? & ? & ? & ? & ? & _ & _ & _ & _ & _ & _ & Heq')].
  - rewrite Heq. cbn [fst]. done.
  - rewrite Heq' in Heq. discriminate Heq.
Qed.


(** ** The admin events and the next request *)

(** X13. A question set by a logged-in session, a text that is not empty, is
    broadcast with the history untouched, and it is the question in the
    prompt of the next request that reaches the provider. *)
Theorem question_reaches_prompt (requests_post : pystr → json → http_outcome)
    (admin : session) (data : list (pystr * json)) (q : pystr) (st : app_state)
    (k : pystr) (sess : session) (d : list (pystr * json)) (a : pystr) (now : Z) :
  logged_in admin = true →
  dict_get (py "question") data = Some (JStr q) →
  q ≠ [] →
  k ≠ [] →
  dict_get (py "answer") d = Some (JStr a) →
  ∃ st1 payload,
    handle_set_question admin (JObj data) st = QuestionState st1
    ∧ user_responses st1 = user_responses st
    ∧ last (emitted st1) = Some (q, user_responses st)
    ∧ get_gemini_api_payload (JStr a) q (existing_categories_of (user_responses st))
      = ok payload
    ∧ payload_user_prompt payload
      = Some (dumps_user_prompt a q (existing_categories_of (user_responses st)))
    ∧ posted (snd (classify_objective requests_post (Some k) sess (Returned (JObj d)) now st1))
      = posted st ++ [(GEMINI_API_URL ++ py "?key=" ++ k, payload)].
Proof.
  intros Hadmin Hq Hne Hk Hd.
  destruct (get_gemini_api_payload_text a q (existing_categories_of (user_responses st)))
    as [payload Hp].
  eexists. exists payload.
  split.
  { unfold handle_set_question. rewrite Hadmin. cbn [py_get]. rewrite Hq.
    cbn [from_option id truthy]. rewrite bool_decide_eq_false_2 by done. reflexivity. }
  cbn [user_responses emitted]. split_and!; [done|apply last_snoc|done| |].
  - revert Hp. unfold get_gemini_api_payload. cbn [ClassificationRequest validate_str].
    destruct get_response_schema; [|done]. cbn [bind]. by intros [= <-].
  - destruct (classify_objective_sends requests_post k sess d a now
                (mkState (user_responses st) q (posted st)
                   (emitted st ++ [(q, user_responses st)])) payload Hk Hd Hp)
      as (r & _ & Hposted & _).
    exact Hposted.
Qed.


(** X14. After a logged-in session has cleared the data, the next request that
    reaches the provider offers no category in its prompt, and the record
    that a 200 stores is the only one of the history and is numbered 1. *)
Theorem cleared_history_restarts (requests_post : pystr → json → http_outcome)
    (admin : session) (st : app_state)
    (k : pystr) (sess : session) (d : list (pystr * json)) (a : pystr) (now : Z) :
  logged_in admin = true →
  k ≠ [] →
  dict_get (py "answer") d = Some (JStr a) →
  ∃ payload,
    get_gemini_api_payload (JStr a) (current_question st) [] = ok payload
    ∧ posted (snd (classify_objective requests_post (Some k) sess (Returned (JObj d)) now
                     (handle_clear_data admin st)))
      = posted st ++ [(GEMINI_API_URL ++ py "?key=" ++ k, payload)]
    ∧ (reply_status (fst (classify_objective requests_post (Some k) sess (Returned (JObj d)) now
                            (handle_clear_data admin st))) = 200 →
       map rec_id (user_responses
                     (snd (classify_objective requests_post (Some k) sess (Returned (JObj d)) now
                             (handle_clear_data admin st))))
       = [py "res-1"]).
Proof.
  intros Hadmin Hk Hd. unfold handle_clear_data. rewrite Hadmin.
  destruct (get_gemini_api_payload_text a (current_question st) []) as [payload Hp].
  exists payload. split; [done|]. split.
  - destruct (classify_objective_sends requests_post k sess d a now
                (mkState [] (current_question st) (posted st)
                   (emitted st ++ [(current_question st, [])])) payload Hk Hd Hp)
      as (r & _ & Hposted & _).
    exact Hposted.
  - intros Hstatus.
    destruct (classify_objective_cases requests_post (Some k) sess (Returned (JObj d)) now
                (mkState [] (current_question st) (posted st)
                   (emitted st ++ [(current_question st, [])])))
      as [[? _]|(? & ? & ? & ? & ? & _ & _ & _ & _ & _ & _ & Heq)]; [done|].
    rewrite Heq. reflexivity.
Qed.


(** ** The prompt is ASCII *)

Lemma hex4_printable n : forallb printable (hex4 n) = true.
Proof.
  assert (∀ d, d < 16 → printable (hex_digit d) = true) as Hd.
  { intros d Hlt. with_strategy transparent [hex_digit] unfold printable, hex_digit.
    destruct (N.ltb_spec d 10); cmp; lia. }
  unfold hex4. cbn [forallb].
  rewrite !Hd by (by apply N.mod_lt). done.
Qed.

Lemma escape_char_printable c : forallb printable (escape_char c) = true.
Proof.
  assert (∀ n, forallb printable (u_escape n) = true) as Hu.
  { intros n. unfold u_escape. cbn [forallb]. by rewrite hex4_printable. }
  unfold escape_char.
  repeat (case_match; [done|]).
  destruct ((32 <=? c) && (c <=? 126)) eqn:Hc.
  { cbn [forallb]. unfold printable. rewrite Hc. by rewrite orb_true_r. }
  repeat (case_match; [done|]).
  by rewrite forallb_app, !Hu.
Qed.

Lemma encode_basestring_ascii_printable s :
  forallb printable (encode_basestring_ascii s) = true.
Proof.
  unfold encode_basestring_ascii. cbn [forallb]. rewrite forallb_app.
  assert (forallb printable (escape_chars s) = true) as ->; [|done].
  induction s as [|c s IH]; [done|].
  cbn [escape_chars]. by rewrite forallb_app, escape_char_printable.
Qed.

Lemma newline_indent_printable level : forallb printable (newline_indent level) = true.
Proof.
  unfold newline_indent. cbn [forallb].
  induction (2 * level)%nat as [|n IH]; [done|]. exact IH.
Qed.

Lemma dumps_str_list_printable level l :
  forallb printable (dumps_str_list level l) = true.
Proof.
  assert (∀ sep items, forallb printable sep = true →
            forallb printable (join_items sep (map encode_basestring_ascii items)) = true)
    as Hjoin.
  { intros sep items Hsep. induction items as [|x [|y items] IH]; [done| |].
    - apply encode_basestring_ascii_printable.
    - change (forallb printable
                (encode_basestring_ascii x ++ sep
                 ++ join_items sep (map encode_basestring_ascii (y :: items))) = true).
      by rewrite !forallb_app, encode_basestring_ascii_printable, Hsep, IH. }
  destruct l as [|x l]; [done|].
  unfold dumps_str_list. cbn [forallb].
  rewrite !forallb_app, !newline_indent_printable, Hjoin; [done|].
  cbn [forallb]. by rewrite newline_indent_printable.
Qed.

(** X15. Whatever the answer, the question and the categories hold, the prompt of
    a payload is made of printable ASCII characters and line breaks only:
    every other character of the answer reaches the model as a backslash
    escape of the JSON text. *)
Theorem prompt_is_ascii (objective : json) (question : pystr)
    (existing_categories : list pystr) (payload : json) :
  get_gemini_api_payload objective question existing_categories = ok payload →
  ∃ user_prompt,
    payload_user_prompt payload = Some user_prompt
    ∧ forallb printable user_prompt = true.
Proof.
  unfold get_gemini_api_payload.
  destruct (ClassificationRequest objective) as [a|]; [|done].
  destruct get_response_schema; [|done]. cbn [bind]. intros [= <-].
  exists (dumps_user_prompt a question existing_categories). split; [done|].
  unfold dumps_user_prompt.
  repeat (rewrite !forallb_app || cbn [forallb]).
  by rewrite !newline_indent_printable, !encode_basestring_ascii_printable,
    dumps_str_list_printable.
Qed.


(** ** [get_response_schema] on any schema *)

Lemma dict_get_pop_eq {V} k (v : V) d d' :
  dict_pop k d = Some (v, d') → dict_get k d = Some v.
Proof.
  revert d'. induction d as [|[k0 v0] d IH]; intros d' Hpop; simplify_eq/=.
  destruct (decide (k0 = k)) as [->|Hne0]; simplify_eq/=; [done|].
  destruct (dict_pop k d) as [[x d'']|]; simplify_eq/=. by eapply IH.
Qed.

Lemma upper_prop_types_get props props' name prop :
  upper_prop_types props = ok props' →
  dict_get name props = Some prop →
  ∃ prop', dict_get name props' = Some prop' ∧ upper_prop_type prop = ok prop'.
Proof.
  revert props'. induction props as [|[k p] props IH]; intros props' Hup Hget; [done|].
  cbn [upper_prop_types] in Hup.
  destruct (upper_prop_type p) as [p'|] eqn:Hp; [|done]. cbn [bind] in Hup.
  destruct (upper_prop_types props) as [rest|]; [|done]. cbn [bind] in Hup.
  injection Hup as <-. cbn [dict_get] in *.
  destruct (decide (k = name)); [|by apply IH].
  injection Hget as <-. eauto.
Qed.

(** X16. What lines 47 to 53 do to whatever dict [model_json_schema()] returns,
    when they do not raise: the type tag of the schema is upper-cased;
    [properties] keeps its names and their order, [propertyOrdering] lists
    them, and in each property with a type tag this tag is upper-cased and
    nothing else is touched; every other member of the schema (title,
    description, required, ...) is as it was. *)
Theorem compile_schema_effect (schema schema' : list (pystr * json)) :
  compile_schema schema = ok schema' →
  (∃ t, dict_get (py "type") schema = Some (JStr t)
        ∧ dict_get (py "type") schema' = Some (JStr (upper t)))
  ∧ (∀ k, k ≠ py "type" → k ≠ py "properties" → k ≠ py "propertyOrdering" →
       dict_get k schema' = dict_get k schema)
  ∧ (∀ props, dict_get (py "properties") schema = Some (JObj props) →
       ∃ props',
         dict_get (py "properties") schema' = Some (JObj props')
         ∧ dict_keys props' = dict_keys props
         ∧ dict_get (py "propertyOrdering") schema'
           = Some (JArr (map JStr (dict_keys props)))
         ∧ ∀ name d t,
             dict_get name props = Some (JObj d) →
             dict_get (py "type") d = Some (JStr t) →
             ∃ d', dict_get name props' = Some (JObj d')
                   ∧ dict_get (py "type") d' = Some (JStr (upper t))
                   ∧ ∀ k, k ≠ py "type" → dict_get k d' = dict_get k d).
Proof.
  intros Hc.
  assert (∃ t schema1 schema3,
            dict_pop (py "type") schema = Some (JStr t, schema1)
            ∧ dict_get (py "type") schema3 = Some (JStr (upper t))
            ∧ (∀ k, k ≠ py "type" → k ≠ py "properties" →
                 dict_get k schema3 = dict_get k schema)
            ∧ ∃ ordering,
                schema' = dict_set (py "propertyOrdering") (JArr (map JStr ordering)) schema3)
    as (t & schema1 & schema3 & Hpop & Htype & Hother & ordering & ->).
  { revert Hc. unfold compile_schema.
    destruct (dict_pop (py "type") schema) as [[t schema1]|] eqn:Hpop; [|done].
    destruct t as [| | | |t| |]; try done. cbn [py_upper bind].
    assert (∀ k, k ≠ py "type" →
              dict_get k (dict_set (py "type") (JStr (upper t)) schema1) = dict_get k schema)
      as H2.
    { intros k Hk. rewrite dict_get_set_ne by done. by eapply dict_get_pop_ne. }
    destruct (dict_get (py "properties") (dict_set (py "type") (JStr (upper t)) schema1))
      as [[| | | | | |props]|]; try done.
    - destruct (upper_prop_types props) as [props'|]; [|done]. cbn [bind].
      destruct (dict_get (py "properties") _) as [[| | | | | |props'']|]; try done;
        cbn [bind]; intros [= <-];
        exists t, schema1,
          (dict_set (py "properties") (JObj props')
             (dict_set (py "type") (JStr (upper t)) schema1));
        (split; [done|]);
        (split; [rewrite dict_get_set_ne by (by vm_compute); apply dict_get_set_eq|]);
        (split; [intros k Hk1 Hk2; rewrite dict_get_set_ne by done; by apply H2|]);
        first [by exists []|by eexists].
    - cbn [bind].
      destruct (dict_get (py "properties") _) as [[| | | | | |props'']|]; try done;
        cbn [bind]; intros [= <-];
        exists t, schema1, (dict_set (py "type") (JStr (upper t)) schema1);
        (split; [done|]);
        (split; [apply dict_get_set_eq|]);
        (split; [intros k Hk1 Hk2; by apply H2|]);
        first [by exists []|by eexists]. }
  split_and!.
  - exists t. split; [by eapply dict_get_pop_eq|].
    by rewrite dict_get_set_ne by (by vm_compute).
  - intros k Hk1 Hk2 Hk3. rewrite dict_get_set_ne by done. by apply Hother.
  - intros props Hprops.
    destruct (compile_schema_ordering _ _ _ Hprops Hc) as (Hord & props' & Hget & Hkeys).
    exists props'. split_and!; try done.
    intros name d t0 Hname Ht0.
    assert (upper_prop_types props = ok props') as Hup.
    { revert Hc Hget. unfold compile_schema. rewrite Hpop. cbn [py_upper bind].
      rewrite dict_get_set_ne by (by vm_compute).
      rewrite (dict_get_pop_ne _ _ _ _ _ Hpop) by (by vm_compute). rewrite Hprops.
      destruct (upper_prop_types props) as [props0|]; [|done]. cbn [bind].
      rewrite dict_get_set_eq. cbn [bind]. intros [= <-].
      rewrite dict_get_set_ne by (by vm_compute). rewrite dict_get_set_eq.
      by intros [= ->]. }
    destruct (upper_prop_types_get _ _ _ _ Hup Hname) as (prop' & Hprop' & Hupper).
    unfold upper_prop_type in Hupper. cbn [py_contains py_getitem bind] in Hupper.
    rewrite Ht0 in Hupper. rewrite bool_decide_eq_true_2 in Hupper by eauto.
    cbn [py_upper bind] in Hupper. injection Hupper as <-.
    eexists. split; [done|]. split; [apply dict_get_set_eq|].
    intros k Hk. by apply dict_get_set_ne.
Qed.


(** ** The reply of a 200 against the model *)

(** X17. The body of a 200 is an object that the model [ClassificationResult]
    accepts, and validating it gives the classification whose dump it is:
    a caller can check the reply with the schema the provider was given. *)
Theorem reply_revalidates (requests_post : pystr → json → http_outcome)
    (key : option pystr) (sess : session) (req : get_json) (now : Z) (st : app_state) :
  reply_status (fst (classify_objective requests_post key sess req now st)) = 200 →
  ∃ kwargs r,
    reply_body (fst (classify_objective requests_post key sess req now st)) = JObj kwargs
    ∧ ClassificationResult_init kwargs = ok r
    ∧ model_dump r = JObj kwargs.
Proof.
  intros Hstatus.
  destruct (classify_objective_cases requests_post key sess req now st)
    as [[? _]|(k & d & a & payload & r & _ & _ & _ & _ & _ & Hr & Heq)]; [done|].
  rewrite Heq. cbn [fst reply_body].
  destruct (call_model_accepted _ _ _ _ Hr) as [kwargs0 Hk].
  apply ClassificationResult_init_ok in Hk as (_ & _ & v & _ & _ & Hge & Hle).
  eexists _, r. split; [reflexivity|]. split; [|reflexivity].
  apply ClassificationResult_init_ok.
  split; [reflexivity|]. split; [reflexivity|].
  exists (JFloat (confidenceScore r)). by split_and!.
Qed.


End Python.

(** * The properties on instances

    The theorems above hold for every interpreter; here they are applied to
    concrete requests and providers, with the interpreter [test_python]. *)

Lemma handle_clear_data_idempotent_witness :
  user_responses (handle_clear_data admin_session oncology_state) = []
  ∧ user_responses (handle_clear_data admin_session
                      (handle_clear_data admin_session oncology_state)) = []
  ∧ current_question (handle_clear_data admin_session
                        (handle_clear_data admin_session oncology_state))
    = current_question oncology_state.
Proof. apply (handle_clear_data_idempotent admin_session oncology_state). reflexivity. Defined.

(** An empty provider response ([candidates] empty): the history is as long
    as before. *)
Lemma history_unchanged_on_failure_witness :
  user_responses (snd (classify_objective test_python provider_no_candidates test_key
                         no_session (request_with_answer "I want to learn about AI") 0
                         oncology_state))
    = user_responses oncology_state
  ∧ current_question (snd (classify_objective test_python provider_no_candidates test_key
                         no_session (request_with_answer "I want to learn about AI") 0
                         oncology_state))
    = current_question oncology_state
  ∧ emitted (snd (classify_objective test_python provider_no_candidates test_key
                         no_session (request_with_answer "I want to learn about AI") 0
                         oncology_state))
    = emitted oncology_state.
Proof.
  apply (history_unchanged_on_failure test_python provider_no_candidates test_key no_session
           (request_with_answer "I want to learn about AI") 0 oncology_state).
  vm_compute. discriminate.
Defined.

(** C1, counterexample. The empty string is not rejected: the payload is
    built for it and the request goes out to the provider. *)
Lemma empty_answer_is_sent :
  ∃ payload,
    get_gemini_api_payload test_python (JStr []) (current_question empty_state) []
    = ok payload
    ∧ posted (snd (classify_objective test_python provider_oncology test_key no_session
                     (request_with_answer "") 0 empty_state))
      = [(GEMINI_API_URL ++ py "?key=" ++ py "k", payload)]
    ∧ reply_status (fst (classify_objective test_python provider_oncology test_key no_session
                           (request_with_answer "") 0 empty_state)) = 200.
Proof.
  destruct (get_gemini_api_payload_text test_python [] (current_question empty_state) [])
    as [payload Hp].
  exists payload. split; [exact Hp|].
  revert Hp. vm_compute. intros [= <-]. split; reflexivity.
Qed.

(** A body without the key, and an answer that is a number. *)
Lemma request_without_answer_rejected_witness :
  classify_objective test_python provider_oncology test_key no_session
    request_without_answer 0 oncology_state
  = (error_reply "Missing required field 'answer'" 400, oncology_state)
  ∧ get_gemini_api_payload test_python (JInt 5) (current_question oncology_state) []
    = raise (ValueError (py "Invalid objective format.")).
Proof.
  destruct (request_without_answer_rejected test_python provider_oncology test_key
              no_session request_without_answer 0 oncology_state eq_refl) as [H1 H2].
  split; [exact H1|]. apply H2. reflexivity.
Defined.

(** C2, counterexample. A provider that cannot be reached, a provider that
    answers with an empty text and a provider whose answer breaks the schema
    are three causes that [classify_learning_objective] tells apart, and the
    /classify endpoint gives the caller one and the same reply for the three. *)
Lemma failure_causes_collapsed :
  let service p := fst (classify_learning_objective test_python p (JStr (py "x"))
                          GEMINI_API_URL (py "k") (current_question empty_state) []) in
  let endpoint p := fst (classify_objective test_python p test_key no_session
                           (request_with_answer "x") 0 empty_state) in
  service provider_down
    = raise (RuntimeError (py "Failed to communicate with the AI service: ")
                          (Some ConnectionFailure))
  ∧ service provider_empty_text
    = raise (RuntimeError (py "AI model did not return valid classification content.") None)
  ∧ service provider_bad_score
    = raise (RuntimeError (py "AI output failed schema validation.") None)
  ∧ endpoint provider_down = endpoint provider_empty_text
  ∧ endpoint provider_empty_text = endpoint provider_bad_score
  ∧ endpoint provider_down
    = error_reply "AI classification failed due to internal schema mismatch." 500.
Proof. vm_compute. repeat split; reflexivity. Qed.

(** A provider that answers 503, one that answers with the two braces, and an
    answer that is a number: the exception of each cause. *)
Lemma failures_attributed_by_service_witness :
  fst (classify_learning_objective test_python provider_unavailable (JStr (py "x"))
         GEMINI_API_URL (py "k") (current_question empty_state) [])
  = raise (RuntimeError (py "Failed to communicate with the AI service: ")
             (Some (HTTPError 503)))
  ∧ fst (classify_learning_objective test_python provider_braces (JStr (py "x"))
           GEMINI_API_URL (py "k") (current_question empty_state) [])
    = raise (RuntimeError (py "AI model did not return valid classification content.") None)
  ∧ fst (classify_learning_objective test_python provider_braces (JInt 5)
           GEMINI_API_URL (py "k") (current_question empty_state) [])
    = raise (ValueError (py "Invalid objective format.")).
Proof.
  destruct (get_gemini_api_payload_text test_python (py "x") (current_question empty_state)
              [])
    as [payload Hp].
  split; [|split].
  - apply (proj2 (proj1 (failures_attributed_by_service test_python provider_unavailable
                           (JStr (py "x")) GEMINI_API_URL (py "k")
                           (current_question empty_state) [] _))).
    eapply CommunicationFailure; [exact Hp|reflexivity].
  - apply (proj2 (proj1 (failures_attributed_by_service test_python provider_braces
                           (JStr (py "x")) GEMINI_API_URL (py "k")
                           (current_question empty_state) [] _))).
    eapply EmptyModelOutput; [exact Hp|reflexivity|reflexivity|reflexivity].
  - apply (proj2 (proj1 (failures_attributed_by_service test_python provider_braces
                           (JInt 5) GEMINI_API_URL (py "k")
                           (current_question empty_state) [] _))).
    apply InvalidInput. reflexivity.
Defined.

(** C3, counterexample. [confidenceScore] given as the text 0.5 is not
    refused: the text is converted to the number. *)
Lemma confidence_text_is_coerced :
  parse_model_output test_python
    (JStr (pyq "{'primaryDomain': 'Oncology', 'confidenceScore': '0.5', 'justification': 'x'}"))
  = ok (mkClassificationResult (py "Oncology") (FDec 5 (-1)) (py "x")).
Proof. vm_compute. reflexivity. Qed.

Lemma validator_fails_closed_witness :
  ClassificationResult_init
    [(py "primaryDomain", JStr (py "Oncology")); (py "confidenceScore", JFloat (FDec 5 (-1)));
     (py "justification", JInt 7)]
  = raise ValidationError.
Proof.
  apply validator_fails_closed.
  right; right; right; right; left. exists (JInt 7). split; [reflexivity|discriminate].
Defined.

(** C4, counterexample. A text that is not JSON is accepted: the payload of
    the specification with one member more, whose value is the constant NaN,
    is outside the grammar of RFC 8259 and the validator returns the
    classification for it. *)
Lemma nan_member_is_accepted :
  ¬ json_text false payload_with_nan
  ∧ json_text true payload_with_nan
  ∧ parse_model_output test_python (JStr payload_with_nan)
    = ok (mkClassificationResult (py "Cancer Imaging") (FDec 87 (-2))
            (py "Mentions tumor segmentation in CT scans.")).
Proof.
  split_and!.
  - intros H%json_text_bare_characters. vm_compute in H. discriminate H.
  - apply (json_loads_ok_text test_python payload_with_nan
             (JObj [(py "primaryDomain", JStr (py "Cancer Imaging"));
                    (py "confidenceScore", JFloat (FDec 87 (-2)));
                    (py "justification",
                     JStr (py "Mentions tumor segmentation in CT scans."));
                    (py "note", JFloat FNaN)])).
    vm_compute. reflexivity.
  - vm_compute. reflexivity.
Qed.

(** The repr of a Python dict, with apostrophes for quotes, is no JSON. *)
Lemma validator_examples_witness :
  ∃ e,
    parse_model_output test_python
      (JStr (py "{'primaryDomain': 'Cancer Imaging', 'confidenceScore': 0.87}"))
    = raise e
    ∧ (e = JSONDecodeError ∨ e = RecursionError ∨ ∃ n, e = int_digits_error test_python n)
    ∧ classify_except (raise e : result ClassificationResult) = raise e.
Proof.
  apply (validator_examples test_python
           (py "{'primaryDomain': 'Cancer Imaging', 'confidenceScore': 0.87}")).
  intros H%json_text_bare_characters. vm_compute in H. discriminate H.
Defined.

Lemma braces_count_as_empty_output_witness :
  call_model test_python provider_braces (py "u") JNull
  = raise (RuntimeError (py "AI model did not return valid classification content.") None)
  ∧ call_model test_python provider_empty_text (py "u") JNull
    = raise (RuntimeError (py "AI model did not return valid classification content.") None)
  ∧ call_model test_python provider_no_text (py "u") JNull
    = raise (RuntimeError (py "AI model did not return valid classification content.") None).
Proof.
  split_and!.
  - eapply (braces_count_as_empty_output test_python provider_braces (py "u") JNull);
      [reflexivity|reflexivity|left; reflexivity].
  - eapply (braces_count_as_empty_output test_python provider_empty_text (py "u") JNull);
      [reflexivity|reflexivity|right; reflexivity].
  - eapply (braces_count_as_empty_output test_python provider_no_text (py "u") JNull);
      [reflexivity|reflexivity|left; reflexivity].
Defined.

(** C6, counterexample. An answer made of a high surrogate followed by a low
    surrogate, two code points, is written into the prompt as two escapes,
    which the decoder reads back as the one code point of the pair. *)
Lemma surrogate_pair_not_read_back :
  ∃ payload user_prompt,
    get_gemini_api_payload test_python (JStr [0xd83d; 0xde00]) (py "q") [py "Oncology"]
    = ok payload
    ∧ payload_user_prompt payload = Some user_prompt
    ∧ json_loads test_python user_prompt
      = ok (JObj [(py "user_answer", JStr [0x1f600]); (py "question", JStr (py "q"));
                  (py "existing_categories", JArr [JStr (py "Oncology")])])
    ∧ [0x1f600] ≠ [0xd83d; 0xde00]
    ∧ wf_str [0xd83d; 0xde00].
Proof.
  destruct (get_gemini_api_payload_text test_python [0xd83d; 0xde00] (py "q")
              [py "Oncology"])
    as [payload Hp].
  exists payload, (dumps_user_prompt [0xd83d; 0xde00] (py "q") [py "Oncology"]).
  split; [exact Hp|].
  split; [revert Hp; vm_compute; by intros [= <-]|].
  split_and!; [by vm_compute|done|done].
Qed.

Lemma prompt_round_trip_witness :
  ∃ payload user_prompt,
    get_gemini_api_payload test_python
      (JStr (py "I want to learn how AI detects cancer in scans"))
      (current_question empty_state) [py "Ethics"; py "Oncology"] = ok payload
    ∧ payload_user_prompt payload = Some user_prompt
    ∧ json_loads test_python user_prompt
      = ok (JObj [(py "user_answer", JStr (py "I want to learn how AI detects cancer in scans"));
                  (py "question", JStr (current_question empty_state));
                  (py "existing_categories", JArr (map JStr [py "Ethics"; py "Oncology"]))]).
Proof.
  apply (prompt_round_trip test_python (py "I want to learn how AI detects cancer in scans")
           (current_question empty_state) [py "Ethics"; py "Oncology"]).
  - split; vm_compute; reflexivity.
  - split; vm_compute; reflexivity.
  - repeat (apply Forall_cons; split); [..|apply Forall_nil];
      split; vm_compute; reflexivity.
Defined.

(** ** The end-to-end scenario of the specification

    With the history holding one record of category Oncology, an answer that
    the model files under Oncology is appended as the second record, the reply
    is the 200 with the result, and the categories are still Oncology
    alone. *)
Example end_to_end_oncology :
  let '(r, st') :=
    classify_objective test_python provider_oncology test_key no_session
      (request_with_answer "I want to learn how AI detects cancer in scans") 1700000100
      oncology_state in
  reply_status r = 200
  ∧ existing_categories_of (user_responses oncology_state) = [py "Oncology"]
  ∧ existing_categories_of (user_responses st') = [py "Oncology"]
  ∧ map rec_id (user_responses st') = [py "res-1"; py "res-2"]
  ∧ map (λ res, primaryDomain (classification res)) (user_responses st')
    = [py "Oncology"; py "Oncology"]
  ∧ length (posted st') = 1%nat
  ∧ emitted st' = [(current_question oncology_state, user_responses st')].
Proof. vm_compute. repeat split; reflexivity. Qed.

(** ** Instances of the further properties *)

Lemma classification_recorded_witness :
  ∃ r,
    user_responses
      (snd (classify_objective test_python provider_oncology test_key no_session
              (request_with_answer "treat tumours") 5 empty_state))
    = [mkRecord (py "res-1") (py "anonymous") (JStr (py "treat tumours")) r 5].
Proof.
  destruct (classification_recorded test_python provider_oncology test_key no_session
              (request_with_answer "treat tumours") 5 empty_state)
    as (k & d & a & payload & r & Hk & _ & Hreq & Hd & Hp & Hr & Heq).
  - vm_compute. reflexivity.
  - injection Hreq as <-. vm_compute in Hd. injection Hd as <-.
    exists r. rewrite Heq. reflexivity.
Defined.

Lemma stored_records_valid_witness :
  ∃ st', serve_all test_python test_key sample_calls empty_state = Some st'
         ∧ Forall stored_ok (user_responses st').
Proof.
  apply (stored_records_valid test_python test_key sample_calls empty_state).
  - constructor.
  - reflexivity.
Defined.

Lemma response_ids_in_sequence_witness :
  ∃ st', serve_all test_python test_key sample_calls empty_state = Some st'
         ∧ ids_in_sequence (user_responses st')
         ∧ NoDup (map rec_id (user_responses st')).
Proof.
  apply (response_ids_in_sequence test_python test_key sample_calls empty_state).
  - reflexivity.
  - reflexivity.
Defined.

Lemma broadcasts_in_sync_witness :
  ∃ st', serve_all test_python test_key sample_calls empty_state = Some st'
         ∧ ((emitted st' = emitted empty_state
             ∧ user_responses st' = user_responses empty_state
             ∧ current_question st' = current_question empty_state)
            ∨ in_sync st').
Proof.
  apply (broadcasts_in_sync test_python test_key sample_calls empty_state).
  reflexivity.
Defined.

Lemma visitors_only_append_witness :
  ∃ st', serve_all test_python test_key visitor_calls oncology_state = Some st'
         ∧ current_question st' = current_question oncology_state
         ∧ user_responses oncology_state `prefix_of` user_responses st'.
Proof.
  apply (visitors_only_append test_python test_key visitor_calls oncology_state).
  reflexivity.
Defined.

Lemma no_admin_without_credentials_witness :
  serve_admin_panel
    (browse (py "admin") (py "admin123")
       [GetLoginPage; PostLogin (Some (py "admin")) (Some (py "admin")); GetUserPanel;
        PostLogin (Some (py "admin")) None; GetAdminPanel; GetLogout]
       no_session)
  = Redirect (py "/").
Proof.
  apply (no_admin_without_credentials (py "admin") (py "admin123")
           [GetLoginPage; PostLogin (Some (py "admin")) (Some (py "admin")); GetUserPanel;
            PostLogin (Some (py "admin")) None; GetAdminPanel; GetLogout] no_session);
    reflexivity.
Defined.

Lemma login_until_logout_witness :
  serve_admin_panel
    (browse (py "admin") (py "admin123")
       ([GetLoginPage; GetAdminPanel]
        ++ PostLogin (Some (py "admin")) (Some (py "admin123"))
           :: [GetAdminPanel; PostLogin (Some (py "admin")) (Some (py "x")); GetUserPanel])
       no_session)
  = SendFile (py "admin.html").
Proof.
  apply (login_until_logout (py "admin") (py "admin123") [GetLoginPage; GetAdminPanel]
           [GetAdminPanel; PostLogin (Some (py "admin")) (Some (py "x")); GetUserPanel]
           no_session).
  intros H. repeat (apply elem_of_cons in H as [H|H]; [discriminate H|]).
  by apply elem_of_nil in H.
Defined.

Lemma records_are_anonymous_witness :
  ∃ rec,
    user_responses
      (snd (classify_objective test_python provider_oncology test_key
              (browse (py "admin") (py "admin123")
                 [PostLogin (Some (py "admin")) (Some (py "admin123")); GetAdminPanel] no_session)
              (request_with_answer "treat tumours") 5 empty_state))
    = user_responses empty_state ++ [rec]
    ∧ userId rec = py "anonymous".
Proof.
  apply (records_are_anonymous test_python (py "admin") (py "admin123")
           [PostLogin (Some (py "admin")) (Some (py "admin123")); GetAdminPanel] no_session
           provider_oncology test_key (request_with_answer "treat tumours") 5 empty_state).
  - reflexivity.
  - vm_compute. reflexivity.
Defined.

Lemma malformed_envelope_reply_witness :
  fst (classify_objective test_python provider_no_candidates test_key no_session
         (request_with_answer "treat tumours") 5 oncology_state)
  = error_reply "An internal server error occurred." 500.
Proof.
  apply (malformed_envelope_reply test_python provider_no_candidates (py "k") no_session
           [(py "answer", JStr (py "treat tumours"))] (py "treat tumours") 5 oncology_state
           200 (pyq "{'candidates': []}") (JObj [(py "candidates", JArr [])]) IndexError).
  - done.
  - reflexivity.
  - reflexivity.
  - left. reflexivity.
  - vm_compute. reflexivity.
  - reflexivity.
Defined.

Lemma question_reaches_prompt_witness :
  ∃ st1 payload,
    handle_set_question admin_session (set_question_data "What do you expect from AI?")
      oncology_state = QuestionState st1
    ∧ payload_user_prompt payload
      = Some (dumps_user_prompt (py "read scans") (py "What do you expect from AI?")
                (existing_categories_of (user_responses oncology_state)))
    ∧ posted (snd (classify_objective test_python provider_down test_key no_session
                     (request_with_answer "read scans") 9 st1))
      = posted oncology_state ++ [(GEMINI_API_URL ++ py "?key=" ++ py "k", payload)].
Proof.
  destruct (question_reaches_prompt test_python provider_down admin_session
              [(py "question", JStr (py "What do you expect from AI?"))]
              (py "What do you expect from AI?") oncology_state (py "k") no_session
              [(py "answer", JStr (py "read scans"))] (py "read scans") 9)
    as (st1 & payload & H1 & _ & _ & _ & H5 & H6); try done.
  exists st1, payload. done.
Defined.

Lemma cleared_history_restarts_witness :
  ∃ payload,
    get_gemini_api_payload test_python (JStr (py "read scans"))
      (current_question oncology_state) []
    = ok payload
    ∧ posted (snd (classify_objective test_python provider_oncology test_key no_session
                     (request_with_answer "read scans") 9
                     (handle_clear_data admin_session oncology_state)))
      = posted oncology_state ++ [(GEMINI_API_URL ++ py "?key=" ++ py "k", payload)].
Proof.
  destruct (cleared_history_restarts test_python provider_oncology admin_session
              oncology_state (py "k")
              no_session [(py "answer", JStr (py "read scans"))] (py "read scans") 9)
    as (payload & H1 & H2 & _); try done.
  exists payload. done.
Defined.

Lemma prompt_is_ascii_witness :
  ∃ payload,
    get_gemini_api_payload test_python (JStr [233; 128512; 10]) (py "Why?") [[20013]]
    = ok payload
    ∧ ∃ user_prompt,
        payload_user_prompt payload = Some user_prompt
        ∧ forallb printable user_prompt = true.
Proof.
  eexists. split; [vm_compute; reflexivity|].
  apply (prompt_is_ascii test_python (JStr [233; 128512; 10]) (py "Why?") [[20013]]).
  vm_compute. reflexivity.
Defined.

Lemma compile_schema_effect_witness :
  ∃ schema',
    compile_schema test_python model_json_schema = ok schema'
    ∧ dict_get (py "type") schema' = Some (JStr (py "OBJECT"))
    ∧ dict_get (py "required") schema' = dict_get (py "required") model_json_schema.
Proof.
  destruct (compile_schema test_python model_json_schema) as [schema'|] eqn:Hc;
    [|by vm_compute in Hc].
  destruct (compile_schema_effect test_python model_json_schema schema' Hc)
    as ((t & Ht & Ht') & Hother & _).
  exists schema'. split; [done|]. split.
  - rewrite Ht'. vm_compute in Ht. by injection Ht as <-.
  - apply Hother; by vm_compute.
Defined.

Lemma reply_revalidates_witness :
  ∃ kwargs r,
    reply_body (fst (classify_objective test_python provider_oncology test_key no_session
                       (request_with_answer "treat tumours") 5 empty_state)) = JObj kwargs
    ∧ ClassificationResult_init kwargs = ok r
    ∧ model_dump r = JObj kwargs.
Proof.
  apply (reply_revalidates test_python provider_oncology test_key no_session
           (request_with_answer "treat tumours") 5 empty_state).
  vm_compute. reflexivity.
Defined.
